(** * PI Web API data source: query pipeline of the Go backend

    A shallow embedding of [pkg/plugin]'s query path (query model, URI
    builder, target expansion, batch orchestration, response
    classification, frame assembly, resource calls) together with the
    properties the specification states about it and further properties
    of the code; the pure parts of the frontend's discovery code
    ([datasource.ts]) are embedded in [Frontend].

    Conventions of the embedding.
    - Go [string]s are byte strings: [string] of 8-bit [ascii].
    - Go [int] and [int64] are [Z]; conversions wrap at 64 bits ([int] is
      64 bits wide on the targets the plugin is built for).
    - A run-time panic is an explicit [Panic] outcome.
    - JSON is decoded as [encoding/json] decodes it: members are matched
      to struct fields with the case of letters ignored, members of one
      field are decoded one after the other into it, and a number
      becomes the nearest [float64] wherever the target is an
      [interface{}].
    - The remote API, the WebID cache and the UUID generator are a
      [World] that the effectful functions thread through. *)

From Stdlib Require Import ZArith Ascii String List Lia Bool.
From stdpp Require Import base option list strings gmap pretty.

Local Open Scope Z_scope.

(** ** Byte strings *)

Module Str.

Fixpoint to_list (s : string) : list ascii :=
  match s with
  | EmptyString => []
  | String c r => c :: to_list r
  end.

Fixpoint of_list (l : list ascii) : string :=
  match l with
  | [] => EmptyString
  | c :: r => String c (of_list r)
  end.

Fixpoint concat (l : list string) : string :=
  match l with
  | [] => ""
  | s :: r => s +:+ concat r
  end.

Fixpoint has_prefix (p s : string) : bool :=
  match p, s with
  | EmptyString, _ => true
  | String a p', String b s' => if decide (a = b) then has_prefix p' s' else false
  | String _ _, EmptyString => false
  end.

(** [contains sub s]: [sub] occurs in [s] (Go's [strings.Contains]). *)
Fixpoint contains (sub s : string) : bool :=
  has_prefix sub s
  || match s with
     | EmptyString => false
     | String _ r => contains sub r
     end.

Fixpoint all (P : ascii -> bool) (s : string) : bool :=
  match s with
  | EmptyString => true
  | String a r => P a && all P r
  end.

Fixpoint mem (c : ascii) (s : string) : bool :=
  match s with
  | EmptyString => false
  | String a r => if decide (a = c) then true else mem c r
  end.

(** Index of the first occurrence of the byte [c], Go's
    [strings.Index(s, sep)] for a one-byte [sep]; [-1] when absent. *)
Fixpoint index_from (c : ascii) (s : string) (i : Z) : Z :=
  match s with
  | EmptyString => -1
  | String a r => if decide (a = c) then i else index_from c r (i + 1)
  end.

Definition Index (s : string) (c : ascii) : Z := index_from c s 0.

Fixpoint take (n : nat) (s : string) : string :=
  match n, s with
  | O, _ => ""
  | S n', String a r => String a (take n' r)
  | S _, EmptyString => ""
  end.

Fixpoint drop (n : nat) (s : string) : string :=
  match n, s with
  | O, _ => s
  | S n', String _ r => drop n' r
  | S _, EmptyString => ""
  end.

Definition len (s : string) : Z := Z.of_nat (String.length s).

(** [Split s c]: Go's [strings.Split(s, sep)] for a one-byte [sep]: the
    pieces between the separators, always at least one piece. *)
Fixpoint split_go (c : ascii) (cur : list ascii) (s : string) : list string :=
  match s with
  | EmptyString => [of_list (rev cur)]
  | String a r =>
      if decide (a = c) then of_list (rev cur) :: split_go c [] r
      else split_go c (a :: cur) r
  end.

Definition Split (s : string) (c : ascii) : list string := split_go c [] s.

(** The part of [s] before the first byte [c] (all of [s] without one). *)
Fixpoint before (c : ascii) (s : string) : string :=
  match s with
  | EmptyString => ""
  | String a r => if decide (a = c) then "" else String a (before c r)
  end.

(** The part of [s] after the first byte [c] (empty without one). *)
Fixpoint after (c : ascii) (s : string) : string :=
  match s with
  | EmptyString => ""
  | String a r => if decide (a = c) then r else after c r
  end.

End Str.

(** ** Outcomes of Go code that may panic *)

Inductive Outcome (A : Type) : Type :=
| Ok (a : A)
| Panic (msg : string).
Arguments Ok {A} a.
Arguments Panic {A} msg.

Definition is_Ok {A} (o : Outcome A) : bool :=
  match o with Ok _ => true | Panic _ => false end.

(** Go slice expressions on strings: [s[:i]] and [s[i:]] panic when the
    index is outside [0 .. len(s)]. *)
Definition slice_to (s : string) (i : Z) : Outcome string :=
  if decide (0 <= i <= Str.len s) then Ok (Str.take (Z.to_nat i) s)
  else Panic "slice bounds out of range".

Definition slice_from (s : string) (i : Z) : Outcome string :=
  if decide (0 <= i <= Str.len s) then Ok (Str.drop (Z.to_nat i) s)
  else Panic "slice bounds out of range".

(** ** Machine integers *)

(** Conversion to a signed 64-bit integer, wrapping around. *)
Definition wrap64 (x : Z) : Z := (x + 2 ^ 63) mod 2 ^ 64 - 2 ^ 63.

Definition int64_range (x : Z) : Prop := - 2 ^ 63 <= x < 2 ^ 63.

(** [fmt.Sprintf("%d", x)]: decimal digits, a leading [-] when negative. *)
Definition fmt_d (x : Z) : string := pretty x.

(** ** [time.Time] and its RFC 3339 rendering

    A [Time] is given by the calendar fields of the instant in UTC, the
    decomposition [t.UTC()] exposes to [Format]. *)

Record Time : Type := mkTime {
  tYear : Z;
  tMonth : N;
  tDay : N;
  tHour : N;
  tMinute : N;
  tSecond : N
}.

(** Left-pad with zeros up to [width] bytes. *)
Definition zero_pad (width : nat) (s : string) : string :=
  Str.of_list (replicate (width - String.length s) "0"%char) +:+ s.

(** [appendInt] of package [time]: sign, then the magnitude zero-padded. *)
Definition appendInt (x : Z) (width : nat) : string :=
  (if decide (x < 0) then "-" else "") +:+ zero_pad width (pretty (Z.abs_N x)).

(** [t.UTC().Format(time.RFC3339)]: [2006-01-02T15:04:05Z]. *)
Definition formatRFC3339 (t : Time) : string :=
  appendInt (tYear t) 4 +:+ "-" +:+ appendInt (Z.of_N (tMonth t)) 2 +:+ "-" +:+
  appendInt (Z.of_N (tDay t)) 2 +:+ "T" +:+ appendInt (Z.of_N (tHour t)) 2 +:+ ":" +:+
  appendInt (Z.of_N (tMinute t)) 2 +:+ ":" +:+ appendInt (Z.of_N (tSecond t)) 2 +:+ "Z".

(** ** [url.QueryEscape] *)

Definition hex_digit (n : N) : ascii :=
  match n with
  | 0 => "0" | 1 => "1" | 2 => "2" | 3 => "3" | 4 => "4" | 5 => "5" | 6 => "6"
  | 7 => "7" | 8 => "8" | 9 => "9" | 10 => "A" | 11 => "B" | 12 => "C"
  | 13 => "D" | 14 => "E" | _ => "F"
  end%N%char.

Definition is_digit (c : ascii) : bool :=
  let n := N_of_ascii c in ((48 <=? n) && (n <=? 57))%N.

Definition is_alnum (c : ascii) : bool :=
  let n := N_of_ascii c in
  ((48 <=? n) && (n <=? 57) || (65 <=? n) && (n <=? 90) || (97 <=? n) && (n <=? 122))%N.

(** [shouldEscape(c, encodeQueryComponent)]: only the unreserved bytes
    (letters, digits, [-], [_], [.], [~]) are kept. *)
Definition shouldEscape (c : ascii) : bool :=
  negb (is_alnum c
        || match c with
           | "-" | "_" | "." | "~" => true
           | _ => false
           end%char).

Definition escape_byte (c : ascii) : string :=
  if decide (c = " "%char) then "+"
  else if shouldEscape c then
    String "%" (String (hex_digit (N_of_ascii c / 16))
                  (String (hex_digit (N_of_ascii c mod 16)) ""))
  else String c "".

Fixpoint QueryEscape (s : string) : string :=
  match s with
  | EmptyString => ""
  | String c r => escape_byte c +:+ QueryEscape r
  end.

(** The decoding a server applies to a query component: [+] is a
    space, [%XY] the byte with hexadecimal digits [X] and [Y]. *)
Definition hex_val (c : ascii) : N :=
  let n := N_of_ascii c in
  (if (48 <=? n) && (n <=? 57) then n - 48
   else if (65 <=? n) && (n <=? 70) then n - 55
   else if (97 <=? n) && (n <=? 102) then n - 87
   else 0)%N.

Fixpoint unescape (s : string) : string :=
  match s with
  | EmptyString => ""
  | String c r =>
      match c, r with
      | "%"%char, String h (String l r') =>
          String (ascii_of_N (16 * hex_val h + hex_val l)) (unescape r')
      | "+"%char, _ => String " " (unescape r)
      | _, _ => String c (unescape r)
      end
  end.

(** ** The query model *)

Record SummaryType : Type := mkSummaryType {
  st_Label : string;
  st_Expandable : bool;
  st_Value : string          (* [Value.Value] *)
}.

Record QuerySummary : Type := mkQuerySummary {
  sum_Basis : string;
  sum_Interval : string;
  sum_Nodata : string;
  sum_Types : list SummaryType
}.

(** [PIWebAPIQuery]; the attribute and segment lists, which only the
    query editor reads, and the data source reference are left out. *)
Record PIWebAPIQuery : Type := mkPIWebAPIQuery {
  pi_DigitalStates : bool;      (* [DigitalStates.Enable] *)
  pi_EnableStreaming : bool;    (* [EnableStreaming.Enable] *)
  pi_ElementPath : string;
  pi_Expression : string;
  pi_Hide : bool;
  pi_Interpolate : bool;        (* [Interpolate.Enable] *)
  pi_IntervalMs : Z;
  pi_IsPiPoint : bool;
  pi_MaxDataPoints : Z;
  pi_RecordedValues : bool;     (* [RecordedValues.Enable] *)
  pi_RecordedMaxNumber : Z;     (* [RecordedValues.MaxNumber] *)
  pi_RefID : string;
  pi_Regex : bool;              (* [Regex.Enable] *)
  pi_Summary : QuerySummary;
  pi_Target : string
}.

Record Query : Type := mkQuery {
  q_RefID : string;
  q_QueryType : string;
  q_MaxDataPoints : Z;
  q_Interval : Z;               (* [int64] *)
  q_From : Time;                (* [TimeRange.From] *)
  q_To : Time;                  (* [TimeRange.To] *)
  q_Pi : PIWebAPIQuery
}.

(** ** Query predicates and the URI builder *)

Definition isExpression (p : PIWebAPIQuery) : bool :=
  negb (bool_decide (pi_Expression p = "")).

Definition isSummary (p : PIWebAPIQuery) : bool :=
  negb (bool_decide (sum_Basis (pi_Summary p) = ""))
  && bool_decide (0 < length (sum_Types (pi_Summary p)))%nat.

Definition isRecordedValues (p : PIWebAPIQuery) : bool := pi_RecordedValues p.
Definition isInterpolated (p : PIWebAPIQuery) : bool := pi_Interpolate p.
Definition isRegex (p : PIWebAPIQuery) : bool := pi_Regex p.

Definition getIntervalTime (q : Query) : Z :=
  let intervalTime := pi_IntervalMs (q_Pi q) in
  if decide (intervalTime = 0) then wrap64 (q_Interval q) else intervalTime.

Definition getMaxDataPoints (q : Query) : Z :=
  let maxDataPoints := pi_MaxDataPoints (q_Pi q) in
  if decide (maxDataPoints = 0) then q_MaxDataPoints q else maxDataPoints.

Definition getTimeRangeURIComponent (q : Query) : string :=
  "?startTime=" +:+ formatRFC3339 (q_From q) +:+ "&endTime=" +:+ formatRFC3339 (q_To q).

Definition streamingEnabled (q : Query) : bool := pi_EnableStreaming (q_Pi q).

Definition isStreamable (q : Query) : bool :=
  negb (isExpression (q_Pi q)) && streamingEnabled q.

Definition getSummaryDuration (p : PIWebAPIQuery) : string :=
  if decide (sum_Interval (pi_Summary p) = "") then "30s"
  else sum_Interval (pi_Summary p).

Definition getSummaryURIComponent (p : PIWebAPIQuery) : string :=
  if negb (isExpression p) then
    let uri := fold_left (fun uri t => uri +:+ "&summaryType=" +:+ st_Value t)
                 (sum_Types (pi_Summary p)) "" in
    let uri := uri +:+ "&summaryBasis=" +:+ sum_Basis (pi_Summary p) in
    uri +:+ "&summaryDuration=" +:+ getSummaryDuration p
  else "".

Definition getQueryBaseURL (q : Query) : string :=
  if isExpression (q_Pi q) then
    let uri := "/calculation" in
    let uri :=
      if isSummary (q_Pi q) then
        let uri := uri +:+ "/summary" +:+ getTimeRangeURIComponent q in
        if isInterpolated (q_Pi q) then
          uri +:+ "&sampleType=Interval&sampleInterval=" +:+ fmt_d (getIntervalTime q) +:+ "ms"
        else uri
      else
        let uri := uri +:+ "/intervals" +:+ getTimeRangeURIComponent q in
        uri +:+ "&sampleInterval=" +:+ fmt_d (getIntervalTime q) +:+ "ms" in
    uri +:+ "&expression=" +:+ QueryEscape (pi_Expression (q_Pi q))
  else
    let uri := "/streamsets" in
    if isSummary (q_Pi q) then
      let uri := uri +:+ "/summary" +:+ getTimeRangeURIComponent q
                     +:+ "&intervals=" +:+ fmt_d (getMaxDataPoints q) in
      uri +:+ getSummaryURIComponent (q_Pi q)
    else if isInterpolated (q_Pi q) then
      uri +:+ "/interpolated" +:+ getTimeRangeURIComponent q
          +:+ "&interval=" +:+ fmt_d (getIntervalTime q)
    else if isRecordedValues (q_Pi q) then
      uri +:+ "/recorded" +:+ getTimeRangeURIComponent q
          +:+ "&maxCount=" +:+ fmt_d (getMaxDataPoints q)
    else
      uri +:+ "/plot" +:+ getTimeRangeURIComponent q
          +:+ "&intervals=" +:+ fmt_d (getMaxDataPoints q).

(** ** Target expansion *)

Definition getBasePath (p : PIWebAPIQuery) : Outcome string :=
  let semiIndex := Str.Index (pi_Target p) ";" in
  slice_to (pi_Target p) semiIndex.

Definition getTargets (p : PIWebAPIQuery) : Outcome (list string) :=
  let semiIndex := Str.Index (pi_Target p) ";" in
  match slice_from (pi_Target p) (semiIndex + 1) with
  | Ok rest => Ok (Str.Split rest ";")
  | Panic m => Panic m
  end.

(** ** JSON values

    A JSON text as [encoding/json] reads it.  An object is the list of
    its members in the order of the text, duplicates included.  [JNum z]
    is the integer literal whose text is the decimal form of [z];
    [JFrac lit] is any other number literal of the JSON grammar, kept
    as its text ([-0], [1.5], [2e3], ...).  Strings and member names
    are what Go has after unquoting them, so valid UTF-8.  A text with
    arrays and objects nested more than 10000 deep is a value here but
    is turned down by [json.Unmarshal]: see [valid]. *)

#[warnings="-register-all"]
Inductive json : Type :=
| JNull
| JBool (b : bool)
| JNum (z : Z)
| JFrac (lit : string)
| JStr (s : string)
| JArr (items : list json)
| JObj (fields : list (string * json)).

(** The member of an object that a Go map built from it holds under
    [key]: the last one of that name. *)
Fixpoint obj_get (key : string) (fields : list (string * json)) : option json :=
  match fields with
  | [] => None
  | (k, v) :: rest =>
      match obj_get key rest with
      | Some v' => Some v'
      | None => if decide (k = key) then Some v else None
      end
  end.

(** The nesting of arrays and objects in a value. *)
Definition depth_list (depth : json -> N) : list json -> N :=
  fix go (l : list json) : N :=
    match l with
    | [] => 0%N
    | x :: rest => N.max (depth x) (go rest)
    end.

Definition depth_members (depth : json -> N) : list (string * json) -> N :=
  fix go (l : list (string * json)) : N :=
    match l with
    | [] => 0%N
    | (_, x) :: rest => N.max (depth x) (go rest)
    end.

Fixpoint depth (j : json) : N :=
  match j with
  | JArr items => (1 + depth_list depth items)%N
  | JObj fields => (1 + depth_members depth fields)%N
  | _ => 0%N
  end.

Definition maxNestingDepth : N := 10000.

(** [checkValid], which [json.Unmarshal] runs before it decodes
    anything: the scanner gives up on a text nested deeper than
    [maxNestingDepth]. *)
Definition valid (data : json) : bool := (depth data <=? maxNestingDepth)%N.

(** ** [strconv.ParseInt(s, 10, 64)], which decodes the keys of a
    [map[int]...] and integer fields *)

Definition digit_val (c : ascii) : option Z :=
  if is_digit c then Some (Z.of_N (N_of_ascii c) - 48) else None.

Fixpoint parse_digits (s : string) (acc : Z) : option Z :=
  match s with
  | EmptyString => Some acc
  | String c r => d ← digit_val c; parse_digits r (10 * acc + d)
  end.

Definition ParseInt (s : string) : option Z :=
  let '(neg, body) :=
    match s with
    | String "-" r => (true, r)
    | String "+" r => (false, r)
    | _ => (false, s)
    end in
  if decide (body = "") then None
  else
    n ← parse_digits body 0;
    let v := if (neg : bool) then - n else n in
    if decide (- 2 ^ 63 <= v < 2 ^ 63) then Some v else None.

(** ** [float64] and [strconv.ParseFloat(s, 64)]

    A finite [float64] is a sign with [f_mant * 2 ^ f_exp], the
    mantissa odd, or zero with exponent zero.  [ParseFloat] gives the
    [float64] nearest to the decimal literal, ties to the even
    mantissa, and fails with a range error when that is beyond the
    largest finite value; a literal too small for a subnormal gives a
    zero without an error. *)

Record float64 : Type := mkFloat64 {
  f_neg : bool;
  f_mant : Z;
  f_exp : Z
}.

Fixpoint strip_zeros (m : positive) (e : Z) : Z * Z :=
  match m with
  | xO m' => strip_zeros m' (e + 1)
  | _ => (Z.pos m, e)
  end.

(** The floor of the binary logarithm of [num / den], both positive. *)
Definition floor_log2_ratio (num den : Z) : Z :=
  let l := Z.log2 num - Z.log2 den in
  if decide (den * 2 ^ Z.max l 0 <= num * 2 ^ Z.max (- l) 0) then l else l - 1.

(** [num / den] rounded to 53 bits, or to a multiple of [2 ^ -1074]
    when it is that small; [None] when the result is [2 ^ 1024] or
    more. *)
Definition round_ratio (num den : Z) : option (Z * Z) :=
  if decide (num <= 0) then Some (0, 0)
  else
    let e := Z.max (-1074) (floor_log2_ratio num den - 52) in
    let n := num * 2 ^ Z.max (- e) 0 in
    let d := den * 2 ^ Z.max e 0 in
    let q := n / d in
    let r := n mod d in
    let q := if decide (d < 2 * r \/ (2 * r = d /\ Z.odd q = true)) then q + 1 else q in
    if decide (2 ^ 1024 <= q * 2 ^ e) then None
    else
      match q with
      | Z.pos m => Some (strip_zeros m e)
      | _ => Some (0, 0)
      end.

Definition float_of_ratio (neg : bool) (num den : Z) : option float64 :=
  match round_ratio num den with
  | Some (m, e) => Some (mkFloat64 neg m e)
  | None => None
  end.

(** The [float64] of an integer literal. *)
Definition float_of_Z (z : Z) : option float64 :=
  float_of_ratio (z <? 0) (Z.abs z) 1.

(** The leading decimal digits of a string, and what follows them. *)
Fixpoint span_digits (s : string) : string * string :=
  match s with
  | EmptyString => ("", "")
  | String c r =>
      if is_digit c then let '(d, rest) := span_digits r in (String c d, rest)
      else ("", s)
  end.

(** The exponent part of a number literal, [0] when there is none. *)
Definition parse_exponent (s : string) : option Z :=
  match s with
  | EmptyString => Some 0
  | String c r =>
      if bool_decide (c = "e"%char) || bool_decide (c = "E"%char) then
        let '(neg, body) :=
          match r with
          | String "-" b => (true, b)
          | String "+" b => (false, b)
          | _ => (false, r)
          end in
        if decide (body = "") then None
        else n ← parse_digits body 0; Some (if (neg : bool) then - n else n)
      else None
  end.

(** A number literal of the JSON grammar as sign, decimal mantissa and
    decimal exponent: the number is the mantissa times ten to the
    exponent. *)
Definition parse_number (lit : string) : option (bool * Z * Z) :=
  let '(neg, body) :=
    match lit with
    | String "-" b => (true, b)
    | _ => (false, lit)
    end in
  let '(int, rest) := span_digits body in
  if decide (int = "") then None
  else
    let '(frac, rest) :=
      match rest with
      | String "." r => span_digits r
      | _ => ("", rest)
      end in
    e ← parse_exponent rest;
    m ← parse_digits (int +:+ frac) 0;
    Some (neg, m, e - Z.of_nat (String.length frac)).

Definition ParseFloat (lit : string) : option float64 :=
  match parse_number lit with
  | Some (neg, m, e) =>
      if decide (0 <= e) then float_of_ratio neg (m * 10 ^ e) 1
      else float_of_ratio neg m (10 ^ (- e))
  | None => None
  end.

(** ** Decoding into [interface{}]

    What [json.Unmarshal] builds for an [interface{}]: [nil], [bool],
    [float64], [string], [[]interface{}] and [map[string]interface{}].
    A Go map is kept as the list of its entries in the order of their
    keys, compared byte by byte, which is the order [json.Marshal]
    writes them in. *)

#[warnings="-register-all"]
Inductive any : Type :=
| ANil
| ABool (b : bool)
| AFloat (f : float64)
| AStr (s : string)
| AArr (items : list any)
| AMap (entries : list (string * any)).

(** [s < t] on Go strings. *)
Fixpoint string_ltb (s t : string) : bool :=
  match s, t with
  | _, EmptyString => false
  | EmptyString, String _ _ => true
  | String a s', String b t' =>
      if (N_of_ascii a <? N_of_ascii b)%N then true
      else if (N_of_ascii b <? N_of_ascii a)%N then false
      else string_ltb s' t'
  end.

(** [m[key] = v]. *)
Fixpoint map_set (key : string) (v : any) (m : list (string * any))
    : list (string * any) :=
  match m with
  | [] => [(key, v)]
  | (k, v') :: rest =>
      if decide (key = k) then (key, v) :: rest
      else if string_ltb key k then (key, v) :: (k, v') :: rest
      else (k, v') :: map_set key v rest
  end.

(** [m[key]]. *)
Fixpoint map_get (key : string) (m : list (string * any)) : option any :=
  match m with
  | [] => None
  | (k, v) :: rest => if decide (k = key) then Some v else map_get key rest
  end.

Definition decode_list (dec : json -> option any) : list json -> option (list any) :=
  fix go (l : list json) : option (list any) :=
    match l with
    | [] => Some []
    | x :: rest =>
        match dec x, go rest with
        | Some a, Some r => Some (a :: r)
        | _, _ => None
        end
    end.

(** The members of an object are stored one after the other, a later
    one replacing an earlier one of the same name. *)
Definition decode_members (dec : json -> option any)
    : list (string * json) -> list (string * any) -> option (list (string * any)) :=
  fix go (l : list (string * json)) (m : list (string * any))
      : option (list (string * any)) :=
    match l with
    | [] => Some m
    | (k, v) :: rest =>
        match dec v with
        | Some a => go rest (map_set k a m)
        | None => None
        end
    end.

(** [json.Unmarshal] into an [interface{}].  The only error there is
    for a text that is valid JSON is a number literal that
    [ParseFloat] rejects; the decoder records it and goes on, and
    [Unmarshal] returns it in the end: [None]. *)
Fixpoint decode_any (j : json) : option any :=
  match j with
  | JNull => Some ANil
  | JBool b => Some (ABool b)
  | JNum z => AFloat <$> float_of_Z z
  | JFrac lit => AFloat <$> ParseFloat lit
  | JStr s => Some (AStr s)
  | JArr items => AArr <$> decode_list decode_any items
  | JObj fields => AMap <$> decode_members decode_any fields []
  end.

(** [json.Unmarshal(data, &v)] for a [v] of type [interface{}]. *)
Definition Unmarshal_any (data : json) : option any :=
  if valid data then decode_any data else None.

(** ** Decoding into typed values

    [json.Unmarshal] into a struct takes the members of the object one
    by one, in the order of the text.  A member belongs to the field
    whose name it has, or, failing that, whose name it has when the
    case of letters is ignored ([foldName]); other members are skipped.
    The member's value is decoded into the field as the field is at
    that point, so two members of one field are decoded one after the
    other into the same value.  A value of the wrong kind is an
    [UnmarshalTypeError], which is recorded while decoding goes on and
    is returned in the end; as the code drops what was decoded whenever
    an error is returned, an error is [None] here. *)

Definition upper (c : ascii) : ascii :=
  let n := N_of_ascii c in
  if ((97 <=? n) && (n <=? 122))%N then ascii_of_N (n - 32) else c.

(** [foldName] as far as it can give an ASCII name: ASCII letters go to
    upper case, and so do the two letters outside ASCII that fold to
    one, the long s (U+017F, bytes C5 BF) and the Kelvin sign (U+212A,
    bytes E2 84 AA); all other bytes stay. *)
Fixpoint fold_name (s : string) : string :=
  match s with
  | EmptyString => EmptyString
  | String c r =>
      match r with
      | String d r' =>
          if bool_decide (c = ascii_of_N 197) && bool_decide (d = ascii_of_N 191)
          then String "S" (fold_name r')
          else
            match r' with
            | String e r'' =>
                if bool_decide (c = ascii_of_N 226) && bool_decide (d = ascii_of_N 132)
                   && bool_decide (e = ascii_of_N 170)
                then String "K" (fold_name r'')
                else String (upper c) (fold_name r)
            | EmptyString => String (upper c) (fold_name r)
            end
      | EmptyString => String (upper c) (fold_name r)
      end
  end.

(** The member named [key] belongs to the field named [field].  (No
    struct here has two fields whose names fold to the same.) *)
Definition names_field (field key : string) : bool :=
  bool_decide (fold_name key = fold_name field).

(** The values, in order, of the entries that belong to [field]. *)
Definition field_values (field : string) (m : list (string * any)) : list any :=
  map snd (filter (fun kv => names_field field (fst kv) = true) m).

(** A [string] field: [null] leaves it as it is. *)
Definition dec_string (cur : string) (v : any) : option string :=
  match v with
  | ANil => Some cur
  | AStr s => Some s
  | _ => None
  end.

Definition dec_bool (cur : bool) (v : any) : option bool :=
  match v with
  | ANil => Some cur
  | ABool b => Some b
  | _ => None
  end.

(** A [*string] field: [null] makes it [nil]. *)
Definition dec_string_ptr (cur : option string) (v : any) : option (option string) :=
  match v with
  | ANil => Some None
  | AStr s => Some (Some s)
  | _ => None
  end.

(** A [map[string]interface{}] field: [null] makes it [nil], an object
    is stored into the map that is there. *)
Definition dec_map (cur : list (string * any)) (v : any) : option (list (string * any)) :=
  match v with
  | ANil => Some []
  | AMap entries => Some (fold_left (fun m kv => map_set (fst kv) (snd kv) m) entries cur)
  | _ => None
  end.

(** A Go slice: the elements up to its length, and the elements its
    array still holds beyond the length. *)
Record slice (A : Type) : Type := mkSlice {
  live : list A;
  stale : list A
}.
Arguments mkSlice {A}.
Arguments live {A}.
Arguments stale {A}.

(** The elements of an array are decoded into the elements the slice's
    array holds at their index, [zero] where it holds none. *)
Fixpoint dec_elems {A} (zero : A) (dec : A -> any -> option A)
    (backing : list A) (items : list any) : option (list A) :=
  match items with
  | [] => Some []
  | x :: rest =>
      match dec (hd zero backing) x, dec_elems zero dec (tl backing) rest with
      | Some a, Some r => Some (a :: r)
      | _, _ => None
      end
  end.

(** A slice field: [null] makes it [nil], the empty array a new empty
    slice; any other array is decoded element by element into the
    slice that is there, whose length becomes the array's. *)
Definition dec_slice {A} (zero : A) (dec : A -> any -> option A)
    (cur : slice A) (v : any) : option (slice A) :=
  match v with
  | ANil => Some (mkSlice [] [])
  | AArr [] => Some (mkSlice [] [])
  | AArr items =>
      let backing := live cur ++ stale cur in
      match dec_elems zero dec backing items with
      | Some elems => Some (mkSlice elems (drop (length items) backing))
      | None => None
      end
  | _ => None
  end.

(** The members of an object, decoded in turn into a struct. *)
Fixpoint dec_members {S} (member : S -> string -> any -> option S)
    (cur : S) (entries : list (string * any)) : option S :=
  match entries with
  | [] => Some cur
  | (k, v) :: rest =>
      match member cur k v with
      | Some cur' => dec_members member cur' rest
      | None => None
      end
  end.

(** A struct: [null] leaves it as it is. *)
Definition dec_struct {S} (member : S -> string -> any -> option S)
    (cur : S) (v : any) : option S :=
  match v with
  | ANil => Some cur
  | AMap entries => dec_members member cur entries
  | _ => None
  end.

(** Several values decoded one after the other into the same field. *)
Fixpoint dec_values {T} (dec : T -> any -> option T) (cur : T) (vs : list any)
    : option T :=
  match vs with
  | [] => Some cur
  | v :: rest =>
      match dec cur v with
      | Some cur' => dec_values dec cur' rest
      | None => None
      end
  end.

(** ** Batch response payloads *)

Record PiBatchContentItem : Type := mkItem {
  it_Timestamp : string;
  it_Value : any;               (* [interface{}] *)
  it_UnitsAbbreviation : string;
  it_Good : bool;
  it_Questionable : bool;
  it_Substituted : bool;
  it_Annotated : bool
}.

Record PiBatchContentLinks : Type := mkLinks { ln_Source : string }.

(** An element of [PiBatchDataWithSubItems.Items]. *)
Record PiBatchSubItem : Type := mkSubItem {
  si_WebId : string;
  si_Name : string;
  si_Path : string;
  si_Links : PiBatchContentLinks;
  si_Items : slice PiBatchContentItem;
  si_UnitsAbbreviation : string
}.

Record PiBatchDataWithSubItems : Type := mkWithSub {
  ws_Links : list (string * any);
  ws_Items : slice PiBatchSubItem;
  ws_Error : option string
}.

Record PiBatchDataWithoutSubItems : Type := mkWithoutSub {
  wo_Links : list (string * any);
  wo_Items : slice PiBatchContentItem;
  wo_UnitsAbbreviation : string
}.

Record ErrorResponse : Type := mkErrorResponse { Errors : list string }.

(** The interface [PiBatchData] with its three implementations. *)
Inductive PiBatchData : Type :=
| PiBatchDataError (e : ErrorResponse)
| DataWithSubItems (p : PiBatchDataWithSubItems)
| DataWithoutSubItems (p : PiBatchDataWithoutSubItems).

Definition getUnits (d : PiBatchData) : Outcome string :=
  match d with
  | PiBatchDataError _ => Ok ""
  | DataWithSubItems p =>
      match live (ws_Items p) with
      | first :: _ => Ok (si_UnitsAbbreviation first)
      | [] => Panic "index out of range [0] with length 0"
      end
  | DataWithoutSubItems p => Ok (wo_UnitsAbbreviation p)
  end.

Definition getItems (d : PiBatchData) : Outcome (list PiBatchContentItem) :=
  match d with
  | PiBatchDataError _ => Ok []
  | DataWithSubItems p =>
      match live (ws_Items p) with
      | first :: _ => Ok (live (si_Items first))
      | [] => Panic "index out of range [0] with length 0"
      end
  | DataWithoutSubItems p => Ok (live (wo_Items p))
  end.

Definition createPiBatchDataError (errorMessage : list string) : PiBatchData :=
  PiBatchDataError (mkErrorResponse errorMessage).

(** *** Decoders of the payload structs *)

Definition zero_item : PiBatchContentItem := mkItem "" ANil "" false false false false.

Definition zero_subitem : PiBatchSubItem :=
  mkSubItem "" "" "" (mkLinks "") (mkSlice [] []) "".

(** One member of an object decoded into a [PiBatchContentItem]. *)
Definition dec_item_member (cur : PiBatchContentItem) (k : string) (v : any)
    : option PiBatchContentItem :=
  let '(mkItem ts val u g q s a) := cur in
  if names_field "Timestamp" k then x ← dec_string ts v; Some (mkItem x val u g q s a)
  else if names_field "Value" k then Some (mkItem ts v u g q s a)
  else if names_field "UnitsAbbreviation" k then
    x ← dec_string u v; Some (mkItem ts val x g q s a)
  else if names_field "Good" k then x ← dec_bool g v; Some (mkItem ts val u x q s a)
  else if names_field "Questionable" k then
    x ← dec_bool q v; Some (mkItem ts val u g x s a)
  else if names_field "Substituted" k then
    x ← dec_bool s v; Some (mkItem ts val u g q x a)
  else if names_field "Annotated" k then x ← dec_bool a v; Some (mkItem ts val u g q s x)
  else Some cur.

Definition dec_item : PiBatchContentItem -> any -> option PiBatchContentItem :=
  dec_struct dec_item_member.

Definition dec_links_member (cur : PiBatchContentLinks) (k : string) (v : any)
    : option PiBatchContentLinks :=
  if names_field "Source" k then x ← dec_string (ln_Source cur) v; Some (mkLinks x)
  else Some cur.

Definition dec_links : PiBatchContentLinks -> any -> option PiBatchContentLinks :=
  dec_struct dec_links_member.

Definition dec_subitem_member (cur : PiBatchSubItem) (k : string) (v : any)
    : option PiBatchSubItem :=
  let '(mkSubItem w n p l i u) := cur in
  if names_field "WebId" k then x ← dec_string w v; Some (mkSubItem x n p l i u)
  else if names_field "Name" k then x ← dec_string n v; Some (mkSubItem w x p l i u)
  else if names_field "Path" k then x ← dec_string p v; Some (mkSubItem w n x l i u)
  else if names_field "Links" k then x ← dec_links l v; Some (mkSubItem w n p x i u)
  else if names_field "Items" k then
    x ← dec_slice zero_item dec_item i v; Some (mkSubItem w n p l x u)
  else if names_field "UnitsAbbreviation" k then
    x ← dec_string u v; Some (mkSubItem w n p l i x)
  else Some cur.

Definition dec_subitem : PiBatchSubItem -> any -> option PiBatchSubItem :=
  dec_struct dec_subitem_member.

Definition dec_WithoutSubItems_member (cur : PiBatchDataWithoutSubItems)
    (k : string) (v : any) : option PiBatchDataWithoutSubItems :=
  let '(mkWithoutSub l i u) := cur in
  if names_field "Links" k then x ← dec_map l v; Some (mkWithoutSub x i u)
  else if names_field "Items" k then
    x ← dec_slice zero_item dec_item i v; Some (mkWithoutSub l x u)
  else if names_field "UnitsAbbreviation" k then
    x ← dec_string u v; Some (mkWithoutSub l i x)
  else Some cur.

(** [json.Unmarshal(rawContent, &PiBatchDataWithoutSubItems{})], on the
    entries of [Content], which [json.Marshal] writes in the order of
    their keys and [json.Unmarshal] reads back as they were. *)
Definition dec_WithoutSubItems (content : list (string * any))
    : option PiBatchDataWithoutSubItems :=
  dec_members dec_WithoutSubItems_member (mkWithoutSub [] (mkSlice [] []) "") content.

Definition dec_WithSubItems_member (cur : PiBatchDataWithSubItems)
    (k : string) (v : any) : option PiBatchDataWithSubItems :=
  let '(mkWithSub l i e) := cur in
  if names_field "Links" k then x ← dec_map l v; Some (mkWithSub x i e)
  else if names_field "Items" k then
    x ← dec_slice zero_subitem dec_subitem i v; Some (mkWithSub l x e)
  else if names_field "Error" k then x ← dec_string_ptr e v; Some (mkWithSub l i x)
  else Some cur.

(** [json.Unmarshal(rawContent, &PiBatchDataWithSubItems{})]. *)
Definition dec_WithSubItems (content : list (string * any))
    : option PiBatchDataWithSubItems :=
  dec_members dec_WithSubItems_member (mkWithSub [] (mkSlice [] []) None) content.

Definition dec_Errors_member (cur : slice string) (k : string) (v : any)
    : option (slice string) :=
  if names_field "Errors" k then dec_slice "" dec_string cur v else Some cur.

(** [json.Unmarshal(rawContent, &ErrorResponse{})]. *)
Definition dec_ErrorResponse (content : list (string * any)) : option ErrorResponse :=
  errors ← dec_members dec_Errors_member (mkSlice [] []) content;
  Some (mkErrorResponse (live errors)).

(** ** The response classifier *)

Record PIBatchResponse : Type := mkPIBatchResponse {
  Status : Z;
  Content : option PiBatchData      (* [None]: the nil interface *)
}.

Definition StatusOK : Z := 200.

(** The [Status] field as [json.Unmarshal(data, &PIBatchResponseBase)]
    leaves it: every member that belongs to the field is decoded in
    turn; an integer literal in the range of [int] sets the field, any
    other value leaves it as it was.  The error of that decode is
    dropped by the code, so a missing or ill-typed status reads 0. *)
Fixpoint dec_Status_fields (fields : list (string * json)) (status : Z) : Z :=
  match fields with
  | [] => status
  | (k, v) :: rest =>
      dec_Status_fields rest
        (if names_field "Status" k then
           match v with
           | JNum z => if decide (- 2 ^ 63 <= z < 2 ^ 63) then z else status
           | JFrac lit => default status (ParseInt lit)
           | _ => status
           end
         else status)
  end.

Definition dec_Status (data : json) : Z :=
  if valid data then
    match data with
    | JObj fields => dec_Status_fields fields 0
    | _ => 0
    end
  else 0.

(** [json.Unmarshal(data, &rawData)] for the [map[string]interface{}]:
    [null] leaves the map [nil], anything but an object is an error,
    and so are a number that [ParseFloat] rejects, wherever it is, and
    a text that is nested too deep. *)
Definition dec_rawData (data : json) : option (list (string * any)) :=
  match Unmarshal_any data with
  | Some ANil => Some []
  | Some (AMap rawData) => Some rawData
  | _ => None
  end.

Definition could_not_process : list string :=
  ["Could not process response from PI Web API"].

(** [PIBatchResponse.UnmarshalJSON], run on a zero receiver: the
    receiver afterwards and the returned error ([None] for [nil]; the
    text of an error of [encoding/json] is not modelled). *)
Definition UnmarshalJSON (data : json) : Outcome (PIBatchResponse * option string) :=
  let status := dec_Status data in
  let p := mkPIBatchResponse status None in
  match dec_rawData data with
  | None => Ok (p, Some "json: cannot unmarshal into Go value of type map[string]interface {}")
  | Some rawData =>
      match map_get "Content" rawData with
      | Some (AMap Content) =>
          if negb (bool_decide (status = StatusOK)) then
            match dec_ErrorResponse Content with
            | None => Ok (p, Some "json: cannot unmarshal error response")
            | Some temp_error =>
                Ok (mkPIBatchResponse status
                      (Some (createPiBatchDataError (Errors temp_error))), None)
            end
          else
            match map_get "Items" Content with
            | Some (AArr items) =>
                match items with
                | [] => Panic "index out of range [0] with length 0"
                | AMap item :: _ =>
                    match map_get "WebId" item with
                    | Some (AStr _) =>
                        match dec_WithSubItems Content with
                        | None =>
                            Ok (mkPIBatchResponse status
                                  (Some (createPiBatchDataError could_not_process)), None)
                        | Some ResContent =>
                            Ok (mkPIBatchResponse status
                                  (Some (DataWithSubItems ResContent)), None)
                        end
                    | _ =>
                        match dec_WithoutSubItems Content with
                        | None =>
                            Ok (mkPIBatchResponse status
                                  (Some (createPiBatchDataError could_not_process)), None)
                        | Some ResContent =>
                            Ok (mkPIBatchResponse status
                                  (Some (DataWithoutSubItems ResContent)), None)
                        end
                    end
                | _ :: _ =>
                    Ok (mkPIBatchResponse status
                          (Some (createPiBatchDataError could_not_process)), None)
                end
            | _ =>
                Ok (mkPIBatchResponse status
                      (Some (createPiBatchDataError could_not_process)), None)
            end
      | _ => Ok (p, Some "key 'Content' not found in raw JSON")
      end
  end.

(** ** Processed queries and frames *)

Record BatchSubRequest : Type := mkBatchSubRequest {
  Method : string;
  Resource : string
}.

Record PiProcessedQuery : Type := mkPiProcessedQuery {
  Label : string;
  WebID : string;
  UID : string;
  IntervalNanoSeconds : Z;
  IsPIPoint : bool;
  Streamable : bool;
  FullTargetPath : string;
  ResponseUnits : string;
  BatchRequest : BatchSubRequest;
  Response : option PiBatchData     (* [None]: the nil interface *)
}.

Definition set_Response (p : PiProcessedQuery) (r : option PiBatchData) : PiProcessedQuery :=
  mkPiProcessedQuery (Label p) (WebID p) (UID p) (IntervalNanoSeconds p) (IsPIPoint p)
    (Streamable p) (FullTargetPath p) (ResponseUnits p) (BatchRequest p) r.

(** The registry entry of a streaming channel. *)
Record StreamChannelConstruct : Type := mkStreamChannelConstruct {
  sc_WebID : string;
  sc_IntervalNanoSeconds : Z
}.

(** A [data.Frame] as far as this code touches it: the fields built by
    the converter, and the three attributes the assembler sets. *)
Record Frame (Fields : Type) : Type := mkFrame {
  fr_Fields : Fields;
  fr_RefID : string;
  fr_ExecutedQueryString : string;   (* [Meta.ExecutedQueryString] *)
  fr_Channel : string                (* [Meta.Channel] *)
}.
Arguments mkFrame {Fields}.
Arguments fr_Fields {Fields}.
Arguments fr_RefID {Fields}.
Arguments fr_ExecutedQueryString {Fields}.
Arguments fr_Channel {Fields}.

(** The batch body sent to the API: index (as text) to sub-request. *)
Definition build_batch (processed : list PiProcessedQuery) : gmap string BatchSubRequest :=
  fold_left (fun m ip => <[fmt_d (Z.of_nat (fst ip)) := BatchRequest (snd ip)]> m)
    (imap pair processed) ∅.

(** [json.Unmarshal(r, &tempresponse)] for [map[int]PIBatchResponse]:
    every value goes through [UnmarshalJSON]; an error it returns ends
    the decode at once, a key that is not an integer is recorded and
    the decode goes on.  [None] is a returned error. *)
Fixpoint decode_entries (fields : list (string * json)) (m : gmap Z PIBatchResponse)
    (failed : bool) : Outcome (option (gmap Z PIBatchResponse)) :=
  match fields with
  | [] => Ok (if failed then None else Some m)
  | (k, v) :: rest =>
      match UnmarshalJSON v with
      | Panic msg => Panic msg
      | Ok (_, Some _) => Ok None
      | Ok (p, None) =>
          match ParseInt k with
          | Some n => decode_entries rest (<[n := p]> m) failed
          | None => decode_entries rest m true
          end
      end
  end.

(** The body is [None] when the bytes are not JSON at all. *)
Definition decode_tempresponse (body : option json)
    : Outcome (option (gmap Z PIBatchResponse)) :=
  match body with
  | Some JNull => Ok (Some ∅)
  | Some (JObj fields) => decode_entries fields ∅ false
  | _ => Ok None
  end.

(** [processedQuery[RefID][i].Response = tempresponse[i].Content] for
    every index; a missing index reads the zero response. *)
Definition set_responses (tempresponse : gmap Z PIBatchResponse)
    (processed : list PiProcessedQuery) : list PiProcessedQuery :=
  imap (fun i p => set_Response p (tempresponse !! Z.of_nat i ≫= Content)) processed.

(** ** The pipeline

    What lives outside the modelled file is a parameter: the remote API
    and the WebID cache behind [getWebID] and [apiBatchRequest], the
    decoding of the host's query, the frame converter and the UUID
    source.  Go ranges over a map in an order the runtime picks anew
    for each loop; [range_order] stands for that choice. *)

Section Pipeline.

Variable World : Type.
Variable DataQuery : Type.
Variable dq_RefID : DataQuery -> string.
(** [json.Marshal(query)] followed by [json.Unmarshal] into [Query]. *)
Variable decodeQuery : DataQuery -> option Query.
(** [d.settings.URL]. *)
Variable settingsURL : string.
(** [d.getWebID(ctx, path, isPiPoint)]: the WebID, or an error. *)
Variable getWebID : string -> bool -> World -> option string * World.
(** [d.apiBatchRequest(ctx, batch)]: the response body, or an error. *)
Variable apiBatchRequest :
  gmap string BatchSubRequest -> World -> option (option json) * World.
Variables SliceType Fields : Type.
(** [d.getTypeForWebID] and [d.getDigitalStateforWebID] look the WebID
    up in the cache. *)
Variable getTypeForWebID : string -> World -> SliceType.
Variable getDigitalStateforWebID : string -> World -> bool.
(** [convertItemsToDataFrame]: the frame and the error; the frame is
    there, with its [Meta], also when an error is returned, as the
    assembler writes to it before looking at the error. *)
Variable convertItemsToDataFrame :
  string -> list PiBatchContentItem -> SliceType -> bool -> bool ->
  Frame Fields * option string.
(** [uuid.New().String()]. *)
Variable uuid_New : World -> string * World.
(** The entries of a map in the order a [range] loop visits them. *)
Variable range_order :
  gmap string (list PiProcessedQuery) -> World ->
  list (string * list PiProcessedQuery) * World.

(** The data source: the outside world and the channel registry. *)
Record Datasource : Type := mkDatasource {
  world : World;
  channelConstruct : gmap string StreamChannelConstruct
}.

(** Computations on the data source that may panic. *)
Definition M (A : Type) : Type := Datasource -> Outcome A * Datasource.

Definition ret {A} (a : A) : M A := fun d => (Ok a, d).

Definition bind {A B} (m : M A) (k : A -> M B) : M B :=
  fun d =>
    match m d with
    | (Ok a, d') => k a d'
    | (Panic msg, d') => (Panic msg, d')
    end.

Definition lift {A} (o : Outcome A) : M A := fun d => (o, d).

(** A call that changes the world. *)
Definition call {A} (f : World -> A * World) : M A :=
  fun d => let '(a, w) := f (world d) in (Ok a, mkDatasource w (channelConstruct d)).

(** A call that only reads it. *)
Definition read {A} (f : World -> A) : M A := fun d => (Ok (f (world d)), d).

Definition register (key : string) (c : StreamChannelConstruct) : M unit :=
  fun d => (Ok tt, mkDatasource (world d) (<[key := c]> (channelConstruct d))).

(** [m] leaves the channel registry as it found it. *)
Definition keeps_registry {A} (m : M A) : Prop :=
  forall d, channelConstruct (snd (m d)) = channelConstruct d.

Notation "x <- m ;; k" := (bind m (fun x => k))
  (at level 100, m at next level, right associativity).

(** *** [processQuery] *)

Definition mkEntry (PiQuery : Query) (datasourceUID target fullTargetPath webid : string)
    : PiProcessedQuery :=
  let batchSubRequest :=
    mkBatchSubRequest "GET"
      (settingsURL +:+ getQueryBaseURL PiQuery +:+ "&webid=" +:+ webid) in
  mkPiProcessedQuery target webid datasourceUID (q_Interval PiQuery)
    (pi_IsPiPoint (q_Pi PiQuery)) (isStreamable PiQuery) fullTargetPath ""
    batchSubRequest None.

Definition path_separator (PiQuery : Query) : string :=
  if pi_IsPiPoint (q_Pi PiQuery) then "\" else "|".

(** The body of the loop over the targets, [response] being the slice
    built so far. *)
Fixpoint processTargets (PiQuery : Query) (datasourceUID : string)
    (targets : list string) (response : list PiProcessedQuery)
    : M (list PiProcessedQuery) :=
  match targets with
  | [] => ret response
  | target :: rest =>
      base <- lift (getBasePath (q_Pi PiQuery)) ;;
      let fullTargetPath := base +:+ path_separator PiQuery +:+ target in
      r <- call (getWebID fullTargetPath (pi_IsPiPoint (q_Pi PiQuery))) ;;
      match r with
      | None => processTargets PiQuery datasourceUID rest response
      | Some webid =>
          processTargets PiQuery datasourceUID rest
            (response ++ [mkEntry PiQuery datasourceUID target fullTargetPath webid])
      end
  end.

Definition processQuery (query : DataQuery) (datasourceUID : string)
    : M (list PiProcessedQuery) :=
  match decodeQuery query with
  | None => ret []
  | Some PiQuery =>
      targets <- lift (getTargets (q_Pi PiQuery)) ;;
      processTargets PiQuery datasourceUID targets []
  end.

(** *** [batchRequest] *)

Fixpoint batchRequest_loop (entries : list (string * list PiProcessedQuery))
    (processedQuery : gmap string (list PiProcessedQuery))
    : M (gmap string (list PiProcessedQuery)) :=
  match entries with
  | [] => ret processedQuery
  | (RefID, processed) :: rest =>
      r <- call (apiBatchRequest (build_batch processed)) ;;
      match r with
      | None => batchRequest_loop rest processedQuery
      | Some body =>
          t <- lift (decode_tempresponse body) ;;
          match t with
          | None => batchRequest_loop rest processedQuery
          | Some tempresponse =>
              batchRequest_loop rest
                (<[RefID := set_responses tempresponse processed]> processedQuery)
          end
      end
  end.

Definition batchRequest (processedQuery : gmap string (list PiProcessedQuery))
    : M (gmap string (list PiProcessedQuery)) :=
  entries <- call (range_order processedQuery) ;;
  batchRequest_loop entries processedQuery.

(** The batch call for [processed] fails in the world [w]: it is not
    sent, or its body does not decode. *)
Definition batch_fails (processed : list PiProcessedQuery) (w : World) : Prop :=
  match fst (apiBatchRequest (build_batch processed) w) with
  | None => True
  | Some body => decode_tempresponse body = Ok None
  end.

(** *** [processBatchtoFrames] *)

(** [*q.Response.getItems()]: a method call on the nil interface is a
    nil dereference. *)
Definition response_items (q : PiProcessedQuery) : Outcome (list PiBatchContentItem) :=
  match Response q with
  | None => Panic "invalid memory address or nil pointer dereference"
  | Some r => getItems r
  end.

Fixpoint frames_loop (RefID : string) (query : list PiProcessedQuery)
    (frames : list (Frame Fields)) : M (list (Frame Fields)) :=
  match query with
  | [] => ret frames
  | q :: rest =>
      Type_ <- read (getTypeForWebID (WebID q)) ;;
      DigitalState <- read (getDigitalStateforWebID (WebID q)) ;;
      items <- lift (response_items q) ;;
      let '(frame, err) :=
        convertItemsToDataFrame (Label q) items Type_ DigitalState false in
      let frame :=
        mkFrame (fr_Fields frame) RefID (Resource (BatchRequest q)) (fr_Channel frame) in
      match err with
      | Some _ => frames_loop RefID rest (frames ++ [frame])
      | None =>
          if Streamable q then
            channeluuid <- call uuid_New ;;
            let channelURI := "ds/" +:+ UID q +:+ "/" +:+ channeluuid in
            _ <- register channeluuid
                   (mkStreamChannelConstruct (WebID q) (IntervalNanoSeconds q)) ;;
            let frame :=
              mkFrame (fr_Fields frame) (fr_RefID frame)
                (fr_ExecutedQueryString frame) channelURI in
            frames_loop RefID rest (frames ++ [frame])
          else frames_loop RefID rest (frames ++ [frame])
      end
  end.

Fixpoint responses_loop (entries : list (string * list PiProcessedQuery))
    (response : gmap string (list (Frame Fields)))
    : M (gmap string (list (Frame Fields))) :=
  match entries with
  | [] => ret response
  | (RefID, query) :: rest =>
      frames <- frames_loop RefID query [] ;;
      responses_loop rest (<[RefID := frames]> response)
  end.

Definition processBatchtoFrames (processedQuery : gmap string (list PiProcessedQuery))
    : M (gmap string (list (Frame Fields))) :=
  entries <- call (range_order processedQuery) ;;
  responses_loop entries ∅.

(** *** [QueryData] *)

Fixpoint processQueries (queries : list DataQuery) (datasourceUID : string)
    (processedQueries : gmap string (list PiProcessedQuery))
    : M (gmap string (list PiProcessedQuery)) :=
  match queries with
  | [] => ret processedQueries
  | q :: rest =>
      r <- processQuery q datasourceUID ;;
      processQueries rest datasourceUID (<[dq_RefID q := r]> processedQueries)
  end.

(** The response and the returned error, which is always [nil]. *)
Definition QueryData (queries : list DataQuery) (datasourceUID : string)
    : M (gmap string (list (Frame Fields)) * option string) :=
  processedQueries <- processQueries queries datasourceUID ∅ ;;
  processedQueries_temp <- batchRequest processedQueries ;;
  response <- processBatchtoFrames processedQueries_temp ;;
  ret (response, None).

End Pipeline.

Arguments Datasource : clear implicits.
Arguments mkDatasource {World}.
Arguments world {World}.
Arguments channelConstruct {World}.

(** ** Reading a built URI *)

(** The path of a URI: what precedes the query string. *)
Definition uri_path (uri : string) : string := Str.before "?" uri.

(** The names of the query-string parameters, in order. *)
Definition uri_param_names (uri : string) : list string :=
  map (Str.before "=") (Str.Split (Str.after "?" uri) "&").

(** A query string written from its parameters: [n1=v1&n2=v2...]. *)
Fixpoint join_params (params : list (string * string)) : string :=
  match params with
  | [] => ""
  | (name, value) :: rest =>
      name +:+ "=" +:+ value
        +:+ match rest with
            | [] => ""
            | _ :: _ => "&" +:+ join_params rest
            end
  end.

(** A parameter whose name and value cannot be mistaken for separators. *)
Definition param_ok (nv : string * string) : Prop :=
  Str.mem "=" (fst nv) = false /\ Str.mem "&" (fst nv) = false
  /\ Str.mem "&" (snd nv) = false.

(** The four stream-set modes and the one the precedence order picks. *)
Definition streamset_modes : list string :=
  ["/summary"; "/interpolated"; "/recorded"; "/plot"].

Definition streamset_mode (q : Query) : string :=
  if isSummary (q_Pi q) then "/summary"
  else if isInterpolated (q_Pi q) then "/interpolated"
  else if isRecordedValues (q_Pi q) then "/recorded"
  else "/plot".

(** Bytes of a rendered integer, and of a rendered time. *)
Definition is_int_byte (c : ascii) : bool := is_digit c || bool_decide (c = "-"%char).

Definition is_time_byte (c : ascii) : bool :=
  is_int_byte c || bool_decide (c = "T"%char) || bool_decide (c = ":"%char)
  || bool_decide (c = "Z"%char).

(** Bytes that may occur in a percent-escaped value. *)
Definition escaped_byte_ok (c : ascii) : bool :=
  negb (shouldEscape c) || bool_decide (c = "+"%char) || bool_decide (c = "%"%char).

(** The classifier yields the variant [v] for the body [data]. *)
Definition classified_as (data : json) (v : PiBatchData) : Prop :=
  exists p, UnmarshalJSON data = Ok (p, None) /\ Content p = Some v.

(** [Content.Items[0]] of a body, when it is there and is an object. *)
Definition raw_first_item (data : json) : option (list (string * json)) :=
  match data with
  | JObj top =>
      match obj_get "Content" top with
      | Some (JObj content) =>
          match obj_get "Items" content with
          | Some (JArr (JObj item :: _)) => Some item
          | _ => None
          end
      | _ => None
      end
  | _ => None
  end.

(** ** A small concrete world

    The paths listed in [bad] do not resolve, every other path resolves
    to a WebID derived from it; the batch endpoint answers every call
    with [dw_batch]; UUIDs are drawn from a counter; maps are ranged
    over in the order of [map_to_list]. *)

Module Demo.

Record World : Type := mkWorld {
  dw_batch : option (option json);
  dw_next_uuid : N
}.

Definition getWebID (bad : list string) (path : string) (isPiPoint : bool) (w : World)
    : option string * World :=
  if bool_decide (path ∈ bad) then (None, w) else (Some ("W:" +:+ path), w).

Definition apiBatchRequest (batch : gmap string BatchSubRequest) (w : World)
    : option (option json) * World :=
  (dw_batch w, w).

Definition uuid_New (w : World) : string * World :=
  (pretty (dw_next_uuid w), mkWorld (dw_batch w) (dw_next_uuid w + 1)).

Definition convertItemsToDataFrame (name : string) (items : list PiBatchContentItem)
    (ty : unit) (digitalState includeMetaData : bool)
    : Frame (list PiBatchContentItem) * option string :=
  (mkFrame items "" "" "", None).

Definition range_order (m : gmap string (list PiProcessedQuery)) (w : World)
    : list (string * list PiProcessedQuery) * World :=
  (map_to_list m, w).

Definition url : string := "https://pi.example/piwebapi".

Definition processQuery (bad : list string) :=
  processQuery World Query Some url (getWebID bad).
Definition QueryData (bad : list string) :=
  QueryData World Query q_RefID Some url (getWebID bad) apiBatchRequest
    unit (list PiBatchContentItem) (fun _ _ => tt) (fun _ _ => false)
    convertItemsToDataFrame uuid_New range_order.

Definition noon : Time := mkTime 2024 1 1 12 0 0.
Definition one_pm : Time := mkTime 2024 1 1 13 0 0.

Definition no_summary : QuerySummary := mkQuerySummary "" "" "" [].
Definition avg_max : QuerySummary :=
  mkQuerySummary "TimeWeighted" "" ""
    [mkSummaryType "Average" false "Average"; mkSummaryType "Maximum" false "Maximum"].

Definition mkPi (expression target : string) (streaming : bool) (summary : QuerySummary)
    : PIWebAPIQuery :=
  mkPIWebAPIQuery false streaming "" expression false false 0 false 0 false 0
    "A" false summary target.

Definition mkQ (refid expression target : string) (streaming : bool)
    (summary : QuerySummary) : Query :=
  mkQuery refid "" 500 1000 noon one_pm (mkPi expression target streaming summary).

(** Attribute query [Base;Seg1;Seg2]. *)
Definition q_attr : Query := mkQ "A" "" "Base;Seg1;Seg2" true no_summary.
(** Calculation query. *)
Definition q_calc : Query := mkQ "A" "'a' + 1" "Base;Seg1" true no_summary.
(** Calculation query with a summary configured. *)
Definition q_calc_sum : Query := mkQ "A" "'a' + 1" "Base;Seg1" true avg_max.
(** Summary query. *)
Definition q_sum : Query := mkQ "A" "" "Base;Seg1" false avg_max.
(** A query whose target has no [;]. *)
Definition q_flat_target : Query := mkQ "A" "" "Base" false no_summary.

(** The batch call is not sent. *)
Definition w_send_error : World := mkWorld None 0.
(** The batch call answers with bytes that are not JSON. *)
Definition w_not_json : World := mkWorld (Some None) 0.

Definition ds (w : World) : Datasource World := mkDatasource w ∅.

(** Sub-response bodies. *)
Definition body_nested : json :=
  JObj [("Status", JNum 200);
        ("Content", JObj [("Items", JArr [JObj [
           ("WebId", JStr "F1Ab");
           ("UnitsAbbreviation", JStr "psi");
           ("Items", JArr [JObj [("Timestamp", JStr "2024-01-01T00:00:00Z");
                                 ("Value", JFrac "12.3");
                                 ("Good", JBool true)]])]])])].

Definition body_flat : json :=
  JObj [("Status", JNum 200);
        ("Content", JObj [("UnitsAbbreviation", JStr "degC");
                          ("Items", JArr [JObj [("Timestamp", JStr "2024-01-01T00:00:00Z");
                                                ("Value", JNum 3);
                                                ("Good", JBool true)]])])].

(** The batch call answers both sub-requests, the second one first. *)
Definition w_answers : World :=
  mkWorld (Some (Some (JObj [("1", body_flat); ("0", body_nested)]))) 7.

Definition body_empty_items : json :=
  JObj [("Status", JNum 200); ("Content", JObj [("Items", JArr [])])].

Definition body_500_text : json :=
  JObj [("Status", JNum 500); ("Content", JStr "Internal Server Error")].

Definition body_numeric_webid : json :=
  JObj [("Status", JNum 200);
        ("Content", JObj [("Items", JArr [JObj [
           ("WebId", JNum 7);
           ("Timestamp", JStr "2024-01-01T00:00:00Z");
           ("Value", JNum 1)]])])].

End Demo.

(** ** More readers of strings and URIs *)

(** Go's [strings.Join]. *)
Fixpoint Join (l : list string) (sep : string) : string :=
  match l with
  | [] => ""
  | [s] => s
  | s :: rest => s +:+ sep +:+ Join rest sep
  end.

(** How often the byte [c] occurs in [s]. *)
Fixpoint count_byte (c : ascii) (s : string) : nat :=
  match s with
  | EmptyString => O
  | String a r => (if decide (a = c) then 1 else 0) + count_byte c r
  end.

(** The query-string parameters of a URI, names with values, in order. *)
Definition uri_params (uri : string) : list (string * string) :=
  map (fun piece => (Str.before "=" piece, Str.after "=" piece))
    (Str.Split (Str.after "?" uri) "&").

(** The six paths [getQueryBaseURL] builds. *)
Definition query_paths : list string :=
  ["/calculation/summary"; "/calculation/intervals"; "/streamsets/summary";
   "/streamsets/interpolated"; "/streamsets/recorded"; "/streamsets/plot"].

(** The parameters of the summary fragment. *)
Definition summary_params (p : PIWebAPIQuery) : list (string * string) :=
  map (fun t => ("summaryType", st_Value t)) (sum_Types (pi_Summary p))
  ++ [("summaryBasis", sum_Basis (pi_Summary p));
      ("summaryDuration", getSummaryDuration p)].

(** ** Readers of batches and entries *)

(** A member of a batch response that [json.Unmarshal] accepts: its key
    is an integer and its value is classified without an error. *)
Definition member_ok (kv : string * json) : Prop :=
  is_Some (ParseInt (fst kv)) /\ exists p, UnmarshalJSON (snd kv) = Ok (p, None).

(** A member of a batch response that answers a sub-request: its key is
    an integer, and its value is classified, without an error, as a
    payload whose items can be read. *)
Definition member_answers (kv : string * json) : Prop :=
  is_Some (ParseInt (fst kv))
  /\ exists p r,
       UnmarshalJSON (snd kv) = Ok (p, None)
       /\ Content p = Some r /\ is_Ok (getItems r) = true.

(** [p'] is [p] with, at most, another response. *)
Definition same_entry (p p' : PiProcessedQuery) : Prop :=
  p' = set_Response p (Response p').

(** The entry has a response whose items can be read. *)
Definition resolved (p : PiProcessedQuery) : Prop :=
  exists r, Response p = Some r /\ is_Ok (getItems r) = true.

(** ** Call traces

    The pipeline run in a world that also records the arguments of the
    calls it makes to one collaborator. *)

Section Traces.

Variable World : Type.

(** [getWebID], recording the paths it is asked for. *)
Definition traced_getWebID
    (getWebID : string -> bool -> World -> option string * World)
    (path : string) (isPiPoint : bool) (wl : World * list string)
    : option string * (World * list string) :=
  let '(r, w') := getWebID path isPiPoint (fst wl) in
  (r, (w', snd wl ++ [path])).

(** [apiBatchRequest], recording the batches it is sent. *)
Definition traced_apiBatchRequest
    (apiBatchRequest :
       gmap string BatchSubRequest -> World -> option (option json) * World)
    (batch : gmap string BatchSubRequest)
    (wl : World * list (gmap string BatchSubRequest))
    : option (option json) * (World * list (gmap string BatchSubRequest)) :=
  let '(r, w') := apiBatchRequest batch (fst wl) in
  (r, (w', snd wl ++ [batch])).

(** A collaborator that records nothing, run in the recording world. *)
Definition untraced {L A B} (f : A -> World -> B * World) (a : A) (wl : World * L)
    : B * (World * L) :=
  let '(b, w') := f a (fst wl) in (b, (w', snd wl)).

(** The data source of the recording world, and the one it stands for. *)
Definition with_trace {L} (d : Datasource World) (log : L) : Datasource (World * L) :=
  mkDatasource (world d, log) (channelConstruct d).

Definition without_trace {L} (d : Datasource (World * L)) : Datasource World :=
  mkDatasource (fst (world d)) (channelConstruct d).

Definition trace_of {L} (d : Datasource (World * L)) : L := snd (world d).

End Traces.

Arguments traced_getWebID {World}.
Arguments traced_apiBatchRequest {World}.
Arguments untraced {World L A B}.
Arguments with_trace {World L}.
Arguments without_trace {World L}.
Arguments trace_of {World L}.

(** ** [CallResource] *)

Record CallResourceRequest : Type := mkCallResourceRequest {
  req_Path : string;
  req_URL : string
}.

Record CallResourceResponse (Body : Type) : Type := mkCallResourceResponse {
  crr_Status : Z;
  crr_Body : option Body          (* [None]: a nil body *)
}.
Arguments mkCallResourceResponse {Body}.
Arguments crr_Status {Body}.
Arguments crr_Body {Body}.

Definition StatusForbidden : Z := 403.

Definition allowedBasePaths : list string :=
  ["/assetdatabases"; "/elements"; "/assetservers"; "/points"; "/attributes";
   "/dataservers"; "/annotations"].

(** The loop over [allowedBasePaths], started with the value [isAllowed]
    has before it: a matching prefix sets it and leaves the loop. *)
Fixpoint allowed_loop (reqPath : string) (paths : list string) (isAllowed : bool) : bool :=
  match paths with
  | [] => isAllowed
  | path :: rest =>
      if Str.has_prefix path reqPath then true
      else allowed_loop reqPath rest isAllowed
  end.

Section Resource.

Variables World Body : Type.
(** [d.apiGet(ctx, url)]: the body, or an error. *)
Variable apiGet : string -> World -> (Body + string) * World.
(** [sender.Send(response)]: the error it returns, if any. *)
Variable Send : CallResourceResponse Body -> World -> option string * World.

(** The error [CallResource] returns, if any. *)
Definition CallResource (req : CallResourceRequest) (w : World) : option string * World :=
  let isAllowed := true in
  let isAllowed := allowed_loop (req_Path req) allowedBasePaths isAllowed in
  if negb isAllowed then
    Send (mkCallResourceResponse StatusForbidden None) w
  else
    match apiGet (req_URL req) w with
    | (inr err, w') => (Some err, w')
    | (inl r, w') => Send (mkCallResourceResponse StatusOK (Some r)) w'
    end.

End Resource.

(** ** Bodies that use the decoder's latitude *)

Module Cases.

(** [Items] a second time, in lower case and empty. *)
Definition body_items_twice : json :=
  JObj [("Status", JNum 200);
        ("Content", JObj [("Items", JArr [JObj [("WebId", JStr "F1Ab")]]);
                          ("items", JArr [])])].

(** The status under a name in lower case. *)
Definition body_lower_status : json :=
  JObj [("status", JNum 200); ("Content", JObj [("Items", JArr [])])].

(** A number beyond the range of [float64]. *)
Definition body_overflow : json :=
  JObj [("Status", JNum 200); ("Content", JObj [("Items", JArr [])]);
        ("Big", JFrac "1e999")].

(** [Errors] in lower case, and a text where a list is expected. *)
Definition body_errors_text : json :=
  JObj [("Status", JNum 500); ("Content", JObj [("errors", JStr "boom")])].

End Cases.

(** The fault of indexing an empty slice at 0. *)
Definition index_fault : string := "index out of range [0] with length 0".

(** ** An API that answers every sub-request *)

Module Echo.

(** Every sub-request of the batch is answered, under its own key,
    with the same nested body. *)
Definition apiBatchRequest (batch : gmap string BatchSubRequest) (w : Demo.World)
    : option (option json) * Demo.World :=
  (Some (Some (JObj (map (fun kv => (fst kv, Demo.body_nested)) (map_to_list batch)))),
   w).

Definition QueryData :=
  QueryData Demo.World Query q_RefID Some Demo.url (Demo.getWebID []) apiBatchRequest
    unit (list PiBatchContentItem) (fun _ _ => tt) (fun _ _ => false)
    Demo.convertItemsToDataFrame Demo.uuid_New Demo.range_order.

End Echo.

(** * The frontend ([datasource.ts])

    The pure parts of the query editor's discovery code.  A property
    that may be [undefined] is an [option]; strings are byte strings,
    which count and split at [\] as the UTF-16 strings of the source
    do. *)

Module Frontend.

#[warnings="-register-all"]
Inductive PiwebapiRsp : Type :=
  mkPiwebapiRsp (Name InstanceType : option string) (Items : option (list PiwebapiRsp))
    (WebId : option string) (HasChildren : option bool) (Path : option string).

Definition rsp_Name (r : PiwebapiRsp) : option string :=
  let 'mkPiwebapiRsp n _ _ _ _ _ := r in n.
Definition rsp_Items (r : PiwebapiRsp) : option (list PiwebapiRsp) :=
  let 'mkPiwebapiRsp _ _ i _ _ _ := r in i.
Definition rsp_WebId (r : PiwebapiRsp) : option string :=
  let 'mkPiwebapiRsp _ _ _ w _ _ := r in w.
Definition rsp_HasChildren (r : PiwebapiRsp) : option bool :=
  let 'mkPiwebapiRsp _ _ _ _ h _ := r in h.
Definition rsp_Path (r : PiwebapiRsp) : option string :=
  let 'mkPiwebapiRsp _ _ _ _ _ p := r in p.

Record MetricFindValue : Type := mkMetricFindValue {
  text : option string;
  expandable : bool;
  mfv_HasChildren : option bool;
  mfv_Items : list PiwebapiRsp;
  mfv_Path : option string;
  mfv_WebId : option string
}.

(** [a ?? b]. *)
Definition nullish {A} (a : option A) (b : A) : A :=
  match a with Some x => x | None => b end.

Definition metricQueryTransform (response : list PiwebapiRsp) : list MetricFindValue :=
  map (fun item =>
         mkMetricFindValue
           (rsp_Name item)
           (bool_decide (rsp_HasChildren item = None)
            || bool_decide (rsp_HasChildren item = Some true)
            || (length (Str.Split (nullish (rsp_Path item) "") "\") <=? 3)%nat)
           (rsp_HasChildren item)
           (nullish (rsp_Items item) [])
           (rsp_Path item)
           (rsp_WebId item))
      response.

Definition querydepth : list string :=
  ["servers"; "databases"; "databaseElements"; "elements"].

(** [query.type] as [metricFindQuery] leaves it before it dispatches on
    it; the type the query came with may be [undefined]. *)
Definition metricFindQuery_type (isPiPoint : bool) (path : string) (type : option string)
    : option string :=
  if isPiPoint then type
  else if decide (path = "") then querydepth !! 0%nat
  else if decide (type <> Some "attributes") then
    querydepth !! Nat.max 0 (Nat.min (length (Str.Split path "\")) (length querydepth - 1))
  else type.

(** The query string [getAttributes], [getDatabaseElements] and
    [getElements] build from their options, given as the keys of the
    object with their values in enumeration order. *)
Definition querystring (options : list (string * string)) : string :=
  let querystring :=
    "?" +:+ Join (map (fun kv => fst kv +:+ "=" +:+ snd kv) options) "&" in
  if decide (querystring = "?") then "" else querystring.

(** The paths the three functions hand to [restGet]. *)
Definition getAttributes_path (elementId : string) (options : list (string * string))
    : string :=
  "/elements/" +:+ elementId +:+ "/attributes" +:+ querystring options.

Definition getDatabaseElements_path (databaseId : string)
    (options : list (string * string)) : string :=
  "/assetdatabases/" +:+ databaseId +:+ "/elements" +:+ querystring options.

Definition getElements_path (elementId : string) (options : list (string * string))
    : string :=
  "/elements/" +:+ elementId +:+ "/elements" +:+ querystring options.

End Frontend.

(** * Properties *)

(** ** The embedding on concrete inputs *)

Example ex_formatRFC3339 :
  formatRFC3339 Demo.noon = "2024-01-01T12:00:00Z"
  /\ formatRFC3339 (mkTime 987 6 5 4 3 2) = "0987-06-05T04:03:02Z".
Proof. split; vm_compute; reflexivity. Qed.

Example ex_QueryEscape :
  QueryEscape "'a'+1 & b/c=d~" = "%27a%27%2B1+%26+b%2Fc%3Dd~".
Proof. vm_compute. reflexivity. Qed.

Example ex_Split :
  Str.Split "Seg1;Seg2" ";" = ["Seg1"; "Seg2"]
  /\ Str.Split "a;;b;" ";" = ["a"; ""; "b"; ""]
  /\ Str.Split "" ";" = [""].
Proof. split_and!; reflexivity. Qed.

Example ex_Index :
  Str.Index "Base;Seg1;Seg2" ";" = 4 /\ Str.Index "Base" ";" = -1.
Proof. split; reflexivity. Qed.

Example ex_fmt_d : fmt_d 500 = "500" /\ fmt_d 0 = "0" /\ fmt_d (-42) = "-42".
Proof. split_and!; vm_compute; reflexivity. Qed.

Example ex_ParseInt :
  ParseInt "12" = Some 12 /\ ParseInt "-5" = Some (-5) /\ ParseInt "+5" = Some 5
  /\ ParseInt "" = None /\ ParseInt "1x" = None
  /\ ParseInt "9223372036854775808" = None.
Proof. split_and!; vm_compute; reflexivity. Qed.

Example ex_uri_plot :
  getQueryBaseURL Demo.q_attr
  = "/streamsets/plot?startTime=2024-01-01T12:00:00Z&endTime=2024-01-01T13:00:00Z&intervals=500".
Proof. vm_compute. reflexivity. Qed.

Example ex_uri_summary :
  getQueryBaseURL Demo.q_sum
  = "/streamsets/summary?startTime=2024-01-01T12:00:00Z&endTime=2024-01-01T13:00:00Z&intervals=500&summaryType=Average&summaryType=Maximum&summaryBasis=TimeWeighted&summaryDuration=30s".
Proof. vm_compute. reflexivity. Qed.

Example ex_uri_calculation_summary :
  getQueryBaseURL Demo.q_calc_sum
  = "/calculation/summary?startTime=2024-01-01T12:00:00Z&endTime=2024-01-01T13:00:00Z&expression=%27a%27+%2B+1".
Proof. vm_compute. reflexivity. Qed.

(** The nested body of the specification's scenario: one value, in psi. *)
Example ex_classify_nested :
  exists p r,
    UnmarshalJSON Demo.body_nested = Ok (p, None)
    /\ Content p = Some r
    /\ getUnits r = Ok "psi"
    /\ getItems r
       = Ok [mkItem "2024-01-01T00:00:00Z"
               (AFloat (mkFloat64 false 3462142213541069 (-48))) "" true false false false].
Proof. eexists _, _. split_and!; vm_compute; reflexivity. Qed.

Example ex_classify_flat :
  exists p r,
    UnmarshalJSON Demo.body_flat = Ok (p, None)
    /\ Content p = Some r
    /\ getUnits r = Ok "degC"
    /\ getItems r
       = Ok [mkItem "2024-01-01T00:00:00Z" (AFloat (mkFloat64 false 3 0)) "" true false
               false false].
Proof. eexists _, _. split_and!; vm_compute; reflexivity. Qed.

Example ex_ParseFloat :
  ParseFloat "12.3" = Some (mkFloat64 false 3462142213541069 (-48))
  /\ ParseFloat "0.1" = Some (mkFloat64 false 3602879701896397 (-55))
  /\ ParseFloat "-0" = Some (mkFloat64 true 0 0)
  /\ ParseFloat "2e3" = Some (mkFloat64 false 125 4)
  /\ float_of_Z 9007199254740993 = Some (mkFloat64 false 1 53)
  /\ ParseFloat "5e-324" = Some (mkFloat64 false 1 (-1074))
  /\ ParseFloat "1e-400" = Some (mkFloat64 false 0 0)
  /\ ParseFloat "1.7976931348623157e308"
     = Some (mkFloat64 false 9007199254740991 971)
  /\ ParseFloat "1.7976931348623159e308" = None
  /\ ParseFloat "1e999" = None.
Proof. split_and!; vm_compute; reflexivity. Qed.

(** Members are matched to fields whatever the case of their letters:
    a status in lower case is the status, and a text under [errors]
    is an ill-typed [Errors]. *)
Example ex_folded_names :
  dec_Status Cases.body_lower_status = 200
  /\ UnmarshalJSON Cases.body_lower_status = Panic "index out of range [0] with length 0"
  /\ UnmarshalJSON Cases.body_errors_text
     = Ok (mkPIBatchResponse 500 None, Some "json: cannot unmarshal error response").
Proof. split_and!; vm_compute; reflexivity. Qed.

(** A number beyond the range of [float64] anywhere in the body is an
    error of the decode into the map, before [Content] is looked at. *)
Example ex_overflow :
  exists e, UnmarshalJSON Cases.body_overflow = Ok (mkPIBatchResponse 200 None, Some e).
Proof. eexists. vm_compute. reflexivity. Qed.

(** [Items] a second time, empty: the nested variant is stored without
    an entry, and reading its items faults. *)
Example ex_items_twice :
  exists p w,
    UnmarshalJSON Cases.body_items_twice = Ok (p, None)
    /\ Content p = Some (DataWithSubItems w)
    /\ live (ws_Items w) = []
    /\ getItems (DataWithSubItems w) = Panic "index out of range [0] with length 0".
Proof. eexists _, _. split_and!; vm_compute; reflexivity. Qed.

(** A request that is answered: the responses are put back by index
    and each streamable entry gets its own channel. *)
Example ex_QueryData_answered :
  exists response d',
    Demo.QueryData [] [Demo.q_attr] "uid" (Demo.ds Demo.w_answers)
    = (Ok (response, None), d')
    /\ (map fr_Fields <$> response !! "A")
       = Some [[mkItem "2024-01-01T00:00:00Z"
                  (AFloat (mkFloat64 false 3462142213541069 (-48))) "" true false false
                  false];
               [mkItem "2024-01-01T00:00:00Z" (AFloat (mkFloat64 false 3 0)) "" true false
                  false false]]
    /\ (map fr_Channel <$> response !! "A") = Some ["ds/uid/7"; "ds/uid/8"]
    /\ (sc_WebID <$> channelConstruct d' !! "7") = Some "W:Base|Seg1".
Proof. eexists _, _. split_and!; vm_compute; reflexivity. Qed.

(** ** Facts about byte strings *)

Module StrFacts.
Import Str.

Lemma app_nil_l (s : string) : "" +:+ s = s.
Proof. reflexivity. Qed.

Lemma app_cons (a : ascii) (s t : string) : String a s +:+ t = String a (s +:+ t).
Proof. reflexivity. Qed.

Lemma app_nil_r (s : string) : s +:+ "" = s.
Proof. induction s as [|a s IH]; [done|]. by rewrite app_cons, IH. Qed.

Lemma app_assoc (s t u : string) : (s +:+ t) +:+ u = s +:+ (t +:+ u).
Proof. induction s as [|a s IH]; [done|]. by rewrite !app_cons, IH. Qed.

Lemma of_to_list (s : string) : of_list (to_list s) = s.
Proof. induction s as [|a s IH]; [done|]. simpl. by rewrite IH. Qed.

Lemma of_list_app (l k : list ascii) : of_list (l ++ k) = of_list l +:+ of_list k.
Proof. induction l as [|a l IH]; [done|]. simpl. by rewrite IH. Qed.

Lemma mem_app (c : ascii) (s t : string) : mem c (s +:+ t) = mem c s || mem c t.
Proof.
  induction s as [|a s IH]; [done|].
  rewrite ?app_cons; simpl. by destruct (decide (a = c)).
Qed.

(** *** Splitting *)

Lemma split_go_no_sep (c : ascii) (s : string) (cur : list ascii) :
  mem c s = false -> split_go c cur s = [of_list (rev cur) +:+ s].
Proof.
  revert cur. induction s as [|a s IH]; intros cur Hs; simpl in *.
  - by rewrite app_nil_r.
  - destruct (decide (a = c)); [done|].
    rewrite IH by done. simpl. rewrite of_list_app. simpl.
    by rewrite app_assoc.
Qed.

Lemma split_go_app_sep (c : ascii) (s t : string) (cur : list ascii) :
  mem c s = false ->
  split_go c cur (s +:+ String c t) = (of_list (rev cur) +:+ s) :: split_go c [] t.
Proof.
  revert cur. induction s as [|a s IH]; intros cur Hs; simpl in *.
  - rewrite ?app_nil_l; simpl.
    destruct (decide (c = c)); [|done]. by rewrite app_nil_r.
  - destruct (decide (a = c)); [done|].
    rewrite ?app_cons; simpl. destruct (decide (a = c)); [done|].
    rewrite IH by done. simpl. rewrite of_list_app. simpl.
    by rewrite app_assoc.
Qed.

Lemma Split_no_sep (c : ascii) (s : string) :
  mem c s = false -> Split s c = [s].
Proof. intros. unfold Split. by rewrite split_go_no_sep. Qed.

Lemma Split_app_sep (c : ascii) (s t : string) :
  mem c s = false -> Split (s +:+ String c t) c = s :: Split t c.
Proof. intros. unfold Split. by rewrite split_go_app_sep. Qed.

Lemma Split_nonempty (c : ascii) (s : string) : Split s c <> [].
Proof.
  unfold Split. generalize (@nil ascii).
  induction s as [|a s IH]; intros cur; simpl; [done|].
  destruct (decide (a = c)); [done|apply IH].
Qed.

(** *** The first occurrence of a byte *)

Lemma before_app_sep (c : ascii) (s t : string) :
  mem c s = false -> before c (s +:+ String c t) = s.
Proof.
  induction s as [|a s IH]; intros Hs; simpl in *.
  - rewrite ?app_nil_l; simpl. by destruct (decide (c = c)).
  - destruct (decide (a = c)); [done|].
    rewrite ?app_cons; simpl. destruct (decide (a = c)); [done|].
    by rewrite IH.
Qed.

Lemma after_app_sep (c : ascii) (s t : string) :
  mem c s = false -> after c (s +:+ String c t) = t.
Proof.
  induction s as [|a s IH]; intros Hs; simpl in *.
  - rewrite ?app_nil_l; simpl. by destruct (decide (c = c)).
  - destruct (decide (a = c)); [done|].
    rewrite ?app_cons; simpl. destruct (decide (a = c)); [done|].
    by rewrite IH.
Qed.

Lemma before_sep_after (c : ascii) (s : string) :
  mem c s = true -> s = before c s +:+ String c (after c s).
Proof.
  induction s as [|a s IH]; intros Hs; simpl in *; [done|].
  destruct (decide (a = c)) as [->|]; [done|].
  rewrite app_cons. by rewrite <- IH.
Qed.

Lemma mem_before (c : ascii) (s : string) : mem c (before c s) = false.
Proof.
  induction s as [|a s IH]; simpl; [done|].
  destruct (decide (a = c)) as [|Hne]; [done|].
  simpl. by destruct (decide (a = c)).
Qed.

Lemma index_from_absent (c : ascii) (s : string) (i : Z) :
  mem c s = false -> index_from c s i = -1.
Proof.
  revert i. induction s as [|a s IH]; intros i Hs; simpl in *; [done|].
  destruct (decide (a = c)); [done|by apply IH].
Qed.

Lemma index_from_present (c : ascii) (s : string) (i : Z) :
  mem c s = true ->
  exists n : nat,
    index_from c s i = i + Z.of_nat n /\ (n < String.length s)%nat /\
    take n s = before c s /\ drop (S n) s = after c s.
Proof.
  revert i. induction s as [|a s IH]; intros i Hs; simpl in *; [done|].
  destruct (decide (a = c)) as [Heq|Hne].
  - exists O. split_and!; [lia|lia|done|by destruct s].
  - destruct (IH (i + 1) Hs) as (n & Hi & Hn & Ht & Hd).
    exists (S n). split_and!; [lia|lia| |done].
    simpl. by rewrite Ht.
Qed.

Lemma Index_absent (c : ascii) (s : string) : mem c s = false -> Index s c = -1.
Proof. apply index_from_absent. Qed.

Lemma Index_present (c : ascii) (s : string) :
  mem c s = true ->
  0 <= Index s c < len s /\
  take (Z.to_nat (Index s c)) s = before c s /\
  drop (Z.to_nat (Index s c + 1)) s = after c s.
Proof.
  intros Hs. destruct (index_from_present c s 0 Hs) as (n & Hi & Hn & Ht & Hd).
  unfold Index, len. rewrite Hi. split_and!; try lia.
  - by replace (Z.to_nat (0 + Z.of_nat n)) with n by lia.
  - by replace (Z.to_nat (0 + Z.of_nat n + 1)) with (S n) by lia.
Qed.

End StrFacts.

(** ** Rendered integers, times and escaped text *)

Module RenderFacts.
Import Str StrFacts.

Lemma all_app (P : ascii -> bool) (s t : string) :
  all P (s +:+ t) = all P s && all P t.
Proof.
  induction s as [|a s IH]; [done|].
  rewrite app_cons. simpl. rewrite IH. by rewrite andb_assoc.
Qed.

Lemma all_weaken (P Q : ascii -> bool) (s : string) :
  (forall c, P c = true -> Q c = true) -> all P s = true -> all Q s = true.
Proof.
  intros HPQ. induction s as [|a s IH]; [done|]. simpl.
  intros [Ha Hs]%andb_true_iff. rewrite (HPQ _ Ha). by apply IH.
Qed.

Lemma all_not_mem (P : ascii -> bool) (c : ascii) (s : string) :
  P c = false -> all P s = true -> mem c s = false.
Proof.
  intros Hc. induction s as [|a s IH]; [done|]. simpl.
  intros [Ha Hs]%andb_true_iff.
  destruct (decide (a = c)) as [->|]; [congruence|by apply IH].
Qed.

Lemma all_of_list_replicate (P : ascii -> bool) (a : ascii) (n : nat) :
  P a = true -> all P (of_list (replicate n a)) = true.
Proof. intros Ha. induction n as [|n IH]; [done|]. simpl. by rewrite Ha, IH. Qed.

Lemma pretty_N_char_digit (x : N) : is_digit (pretty_N_char x) = true.
Proof. unfold pretty_N_char. by repeat case_match. Qed.

Lemma pretty_N_go_digits (x : N) (s : string) :
  all is_digit s = true -> all is_digit (pretty_N_go x s) = true.
Proof.
  revert s. induction (N.lt_wf_0 x) as [x _ IH]; intros s Hs.
  destruct (decide (x = 0)%N) as [->|Hx].
  - by rewrite pretty_N_go_0.
  - rewrite pretty_N_go_step by lia. apply IH.
    + apply N.div_lt; lia.
    + simpl. by rewrite pretty_N_char_digit, Hs.
Qed.

Lemma pretty_N_digits (x : N) : all is_digit (pretty x) = true.
Proof.
  unfold pretty, pretty_N. case_decide; [done|].
  by apply pretty_N_go_digits.
Qed.

Lemma is_digit_int_byte (c : ascii) : is_digit c = true -> is_int_byte c = true.
Proof. unfold is_int_byte. by intros ->. Qed.

Lemma fmt_d_bytes (x : Z) : all is_int_byte (fmt_d x) = true.
Proof.
  unfold fmt_d, pretty, pretty_Z. destruct x as [|p|p]; [done| |].
  - apply (all_weaken is_digit); [apply is_digit_int_byte|].
    apply (pretty_N_digits (N.pos p)).
  - rewrite all_app. apply andb_true_iff. split; [done|].
    apply (all_weaken is_digit); [apply is_digit_int_byte|].
    apply (pretty_N_digits (N.pos p)).
Qed.

Lemma appendInt_bytes (x : Z) (width : nat) : all is_int_byte (appendInt x width) = true.
Proof.
  unfold appendInt, zero_pad. rewrite !all_app.
  apply andb_true_iff; split; [by case_decide|].
  apply andb_true_iff; split.
  - by apply all_of_list_replicate.
  - apply (all_weaken is_digit); [apply is_digit_int_byte|].
    apply pretty_N_digits.
Qed.

Lemma formatRFC3339_bytes (t : Time) : all is_time_byte (formatRFC3339 t) = true.
Proof.
  assert (Hint : forall x w, all is_time_byte (appendInt x w) = true).
  { intros x w. apply (all_weaken is_int_byte); [|apply appendInt_bytes].
    unfold is_time_byte. by intros c ->. }
  unfold formatRFC3339. rewrite !all_app, !Hint. done.
Qed.

Lemma hex_digit_ok (n : N) : escaped_byte_ok (hex_digit n) = true.
Proof. unfold hex_digit. by repeat case_match. Qed.

Lemma escape_byte_ok (c : ascii) : all escaped_byte_ok (escape_byte c) = true.
Proof.
  unfold escape_byte. case_decide; [done|].
  destruct (shouldEscape c) eqn:Hc; simpl.
  - by rewrite !hex_digit_ok.
  - unfold escaped_byte_ok. by rewrite Hc.
Qed.

Lemma QueryEscape_bytes (s : string) : all escaped_byte_ok (QueryEscape s) = true.
Proof.
  induction s as [|a s IH]; [done|]. simpl.
  by rewrite all_app, escape_byte_ok, IH.
Qed.

(** Escaping loses nothing: the server's decoding gives the text back. *)
Lemma unescape_escape_byte (c : ascii) (rest : string) :
  unescape (escape_byte c +:+ rest) = String c (unescape rest).
Proof. by destruct c as [[] [] [] [] [] [] [] []]. Qed.

Lemma unescape_QueryEscape (s : string) : unescape (QueryEscape s) = s.
Proof.
  induction s as [|c s IH]; [done|].
  simpl. by rewrite unescape_escape_byte, IH.
Qed.

(** None of the rendered pieces contains an [&]. *)
Lemma no_amp_fmt_d (x : Z) : mem "&" (fmt_d x) = false.
Proof. by apply (all_not_mem is_int_byte), fmt_d_bytes. Qed.

Lemma no_amp_time (t : Time) : mem "&" (formatRFC3339 t) = false.
Proof. by apply (all_not_mem is_time_byte), formatRFC3339_bytes. Qed.

Lemma no_amp_escaped (s : string) : mem "&" (QueryEscape s) = false.
Proof. by apply (all_not_mem escaped_byte_ok), QueryEscape_bytes. Qed.

End RenderFacts.


(** ** The URI builder *)

Module UriFacts.
Import Str StrFacts RenderFacts.

Lemma isExpression_true (p : PIWebAPIQuery) :
  pi_Expression p <> "" -> isExpression p = true.
Proof. intros H. unfold isExpression. by rewrite bool_decide_eq_false_2. Qed.

Lemma isExpression_false (p : PIWebAPIQuery) :
  pi_Expression p = "" -> isExpression p = false.
Proof. intros H. unfold isExpression. by rewrite bool_decide_eq_true_2. Qed.

Lemma wrap64_id (x : Z) : int64_range x -> wrap64 x = x.
Proof.
  unfold int64_range, wrap64. intros H.
  rewrite Z.mod_small by lia. lia.
Qed.

Lemma Split_join_params (params : list (string * string)) :
  Forall param_ok params -> params <> [] ->
  map (before "=") (Split (join_params params) "&") = map fst params.
Proof.
  induction params as [|[name value] rest IH]; [done|].
  intros Hall _. apply Forall_cons in Hall as [(Hn1 & Hn2 & Hv) Hrest].
  simpl in Hn1, Hn2, Hv. cbn [join_params map fst].
  destruct rest as [|nv rest'].
  - rewrite app_nil_r, Split_no_sep.
    + simpl map. f_equal. apply (before_app_sep "=" name value Hn1).
    + by rewrite !mem_app, Hn2, Hv.
  - replace (name +:+ "=" +:+ value +:+ "&" +:+ join_params (nv :: rest'))
      with ((name +:+ "=" +:+ value) +:+ String "&" (join_params (nv :: rest')))
      by (rewrite !app_assoc; reflexivity).
    rewrite Split_app_sep by (by rewrite !mem_app, Hn2, Hv).
    rewrite map_cons, IH by done. f_equal.
    apply (before_app_sep "=" name value Hn1).
Qed.

Lemma uri_param_names_join (path : string) (params : list (string * string)) :
  mem "?" path = false -> Forall param_ok params -> params <> [] ->
  uri_param_names (path +:+ "?" +:+ join_params params) = map fst params.
Proof.
  intros Hpath Hall Hne. unfold uri_param_names.
  change (path +:+ "?" +:+ join_params params)
    with (path +:+ String "?" (join_params params)).
  rewrite (after_app_sep "?" path (join_params params) Hpath).
  by apply Split_join_params.
Qed.

Lemma uri_path_join (path rest : string) :
  mem "?" path = false -> uri_path (path +:+ "?" +:+ rest) = path.
Proof. intros Hpath. apply (before_app_sep "?" path rest Hpath). Qed.

Lemma param_ok_intro (name value : string) :
  mem "=" name = false -> mem "&" name = false -> mem "&" value = false ->
  param_ok (name, value).
Proof. by intros; repeat split. Qed.

End UriFacts.

Import Str StrFacts RenderFacts UriFacts.

Create HintDb uri.
#[local] Hint Resolve no_amp_fmt_d no_amp_time no_amp_escaped : uri.

(** Equal up to the association of [+:+] and the folding of literals. *)
Ltac app_eq := rewrite ?app_assoc, ?app_nil_r; reflexivity.

(** Membership in a list given by its elements. *)
Ltac solve_elem := repeat first [by constructor 1 | constructor 2].

(** Discharges the side conditions of [uri_param_names_join]. *)
Ltac solve_params :=
  repeat first
    [ apply Forall_nil
    | apply Forall_cons; split
    | apply param_ok_intro
    | rewrite mem_app
    | progress auto with uri
    | apply orb_false_intro
    | reflexivity ].

(** C3. A query with a non-empty expression and no summary is built as
    [/calculation/intervals], the UTC RFC 3339 [startTime]/[endTime]
    pair, [sampleInterval] in milliseconds (the query's own interval
    when non-zero, else the outer polling interval) and [expression]
    carrying the percent-escaped expression text (unreserved bytes,
    [+] and [%XY] only, decoding back to the expression); these four
    are its only parameters. *)
Theorem C3_calculation_intervals_uri (q : Query) :
  pi_Expression (q_Pi q) <> "" ->
  isSummary (q_Pi q) = false ->
  int64_range (q_Interval q) ->
  let interval :=
    if decide (pi_IntervalMs (q_Pi q) = 0) then q_Interval q
    else pi_IntervalMs (q_Pi q) in
  getQueryBaseURL q =
    "/calculation/intervals"
      +:+ "?startTime=" +:+ formatRFC3339 (q_From q)
      +:+ "&endTime=" +:+ formatRFC3339 (q_To q)
      +:+ "&sampleInterval=" +:+ fmt_d interval +:+ "ms"
      +:+ "&expression=" +:+ QueryEscape (pi_Expression (q_Pi q))
  /\ Str.all escaped_byte_ok (QueryEscape (pi_Expression (q_Pi q))) = true
  /\ unescape (QueryEscape (pi_Expression (q_Pi q))) = pi_Expression (q_Pi q)
  /\ uri_param_names (getQueryBaseURL q)
     = ["startTime"; "endTime"; "sampleInterval"; "expression"].
Proof.
  intros Hexpr Hsum Hrange interval.
  assert (Huri : getQueryBaseURL q =
    "/calculation/intervals" +:+ "?" +:+
      join_params [("startTime", formatRFC3339 (q_From q));
                   ("endTime", formatRFC3339 (q_To q));
                   ("sampleInterval", fmt_d interval +:+ "ms");
                   ("expression", QueryEscape (pi_Expression (q_Pi q)))]).
  { unfold getQueryBaseURL, getTimeRangeURIComponent, getIntervalTime.
    rewrite (isExpression_true _ Hexpr), Hsum. cbv zeta.
    rewrite (wrap64_id _ Hrange). fold interval.
    cbn [join_params]. app_eq. }
  split_and!.
  - rewrite Huri. cbn [join_params]. app_eq.
  - apply QueryEscape_bytes.
  - apply unescape_QueryEscape.
  - rewrite Huri. rewrite uri_param_names_join; [done|done| |done].
    solve_params.
Qed.

Lemma C3_calculation_intervals_uri_witness :
  pi_Expression (q_Pi Demo.q_calc) <> "" /\
  isSummary (q_Pi Demo.q_calc) = false /\
  int64_range (q_Interval Demo.q_calc) /\
  getQueryBaseURL Demo.q_calc =
    "/calculation/intervals?startTime=2024-01-01T12:00:00Z&endTime=2024-01-01T13:00:00Z&sampleInterval=1000ms&expression=%27a%27+%2B+1".
Proof.
  assert (H1 : pi_Expression (q_Pi Demo.q_calc) <> "") by discriminate.
  assert (H2 : isSummary (q_Pi Demo.q_calc) = false) by reflexivity.
  assert (H3 : int64_range (q_Interval Demo.q_calc)) by (unfold int64_range; simpl; lia).
  split_and!; [exact H1|exact H2|exact H3|].
  etransitivity; [exact (proj1 (C3_calculation_intervals_uri Demo.q_calc H1 H2 H3))|].
  vm_compute. reflexivity.
Defined.

(** A component that starts with a slash does not occur in a text
    without slashes. *)
Lemma contains_no_slash (m s : string) :
  mem "/" s = false -> contains (String "/" m) s = false.
Proof.
  induction s as [|a s IH]; intros Hs; simpl in *; [done|].
  destruct (decide (a = "/"%char)) as [|Hne]; [done|].
  rewrite decide_False by congruence. by apply IH.
Qed.

Lemma no_slash_fmt_d (x : Z) : mem "/" (fmt_d x) = false.
Proof. by apply (all_not_mem is_int_byte), fmt_d_bytes. Qed.

Lemma no_slash_time (t : Time) : mem "/" (formatRFC3339 t) = false.
Proof. by apply (all_not_mem is_time_byte), formatRFC3339_bytes. Qed.

(** C4. A query without an expression is built under [/streamsets]
    with exactly one of [/summary], [/interpolated], [/recorded],
    [/plot] as its path component, the one the precedence summary,
    interpolated, recorded, plot selects: the path of the URI is
    [/streamsets] followed by that component and contains none of the
    other three, and so does the whole URI as long as the summary
    fragment, the only text of the query string that is not a number or
    a time, brings in no slash. *)
Theorem C4_streamset_mode_precedence (q : Query) :
  pi_Expression (q_Pi q) = "" ->
  (exists rest,
     getQueryBaseURL q =
       "/streamsets" +:+ streamset_mode q +:+ getTimeRangeURIComponent q +:+ rest)
  /\ uri_path (getQueryBaseURL q) = "/streamsets" +:+ streamset_mode q
  /\ (forall m, m ∈ streamset_modes ->
        Str.contains m (uri_path (getQueryBaseURL q))
        = bool_decide (m = streamset_mode q))
  /\ ((isSummary (q_Pi q) = true ->
         Str.mem "/" (getSummaryURIComponent (q_Pi q)) = false) ->
      forall m, m ∈ streamset_modes ->
        Str.contains m (getQueryBaseURL q) = bool_decide (m = streamset_mode q)).
Proof.
  intros Hexpr.
  assert (Hshape : forall mode tail,
            mode ∈ streamset_modes ->
            getQueryBaseURL q
            = "/streamsets" +:+ mode +:+ getTimeRangeURIComponent q +:+ tail ->
            (exists rest,
               getQueryBaseURL q =
                 "/streamsets" +:+ mode +:+ getTimeRangeURIComponent q +:+ rest)
            /\ uri_path (getQueryBaseURL q) = "/streamsets" +:+ mode
            /\ (forall m, m ∈ streamset_modes ->
                  Str.contains m (uri_path (getQueryBaseURL q)) = bool_decide (m = mode))
            /\ (mem "/" tail = false ->
                forall m, m ∈ streamset_modes ->
                  Str.contains m (getQueryBaseURL q) = bool_decide (m = mode))).
  { intros mode tail Hmode Huri.
    assert (Hq : mem "?" ("/streamsets" +:+ mode) = false).
    { set_unfold in Hmode. by destruct Hmode as [->|[->|[->|[->|[]]]]]. }
    pose (rest := "startTime=" +:+ formatRFC3339 (q_From q) +:+ "&endTime="
                    +:+ formatRFC3339 (q_To q) +:+ tail).
    assert (Hsplit : getQueryBaseURL q = ("/streamsets" +:+ mode) +:+ String "?" rest).
    { rewrite Huri. unfold getTimeRangeURIComponent, rest. app_eq. }
    assert (Hpath : uri_path (getQueryBaseURL q) = "/streamsets" +:+ mode).
    { rewrite Hsplit. exact (uri_path_join _ rest Hq). }
    split_and!; [by exists tail|done| |].
    - intros m Hm. rewrite Hpath. set_unfold in Hm. set_unfold in Hmode.
      destruct Hmode as [->|[->|[->|[->|[]]]]];
        destruct Hm as [->|[->|[->|[->|[]]]]]; reflexivity.
    - intros Htail m Hm.
      assert (Hrest : mem "/" rest = false).
      { unfold rest. by rewrite !mem_app, !no_slash_time, Htail. }
      rewrite Hsplit. clearbody rest. set_unfold in Hm. set_unfold in Hmode.
      destruct Hmode as [->|[->|[->|[->|[]]]]];
        destruct Hm as [->|[->|[->|[->|[]]]]];
        rewrite ?app_cons, ?app_nil_l; simpl;
        rewrite ?(contains_no_slash _ _ Hrest); reflexivity. }
  unfold streamset_mode.
  destruct (isSummary (q_Pi q)) eqn:Hsum;
    [|destruct (isInterpolated (q_Pi q)) eqn:Hint;
      [|destruct (isRecordedValues (q_Pi q)) eqn:Hrec]].
  - destruct (Hshape "/summary"
                ("&intervals=" +:+ fmt_d (getMaxDataPoints q)
                   +:+ getSummaryURIComponent (q_Pi q))) as (H1 & H2 & H3 & H4);
      [solve_elem| |].
    { unfold getQueryBaseURL. rewrite (isExpression_false _ Hexpr), Hsum.
      cbv zeta. app_eq. }
    split_and!; [done|done|done|]. intros Hfrag. apply H4.
    by rewrite !mem_app, no_slash_fmt_d, Hfrag.
  - destruct (Hshape "/interpolated" ("&interval=" +:+ fmt_d (getIntervalTime q)))
      as (H1 & H2 & H3 & H4); [solve_elem| |].
    { unfold getQueryBaseURL. rewrite (isExpression_false _ Hexpr), Hsum, Hint.
      cbv zeta. app_eq. }
    split_and!; [done|done|done|]. intros _. apply H4.
    by rewrite !mem_app, no_slash_fmt_d.
  - destruct (Hshape "/recorded" ("&maxCount=" +:+ fmt_d (getMaxDataPoints q)))
      as (H1 & H2 & H3 & H4); [solve_elem| |].
    { unfold getQueryBaseURL. rewrite (isExpression_false _ Hexpr), Hsum, Hint, Hrec.
      cbv zeta. app_eq. }
    split_and!; [done|done|done|]. intros _. apply H4.
    by rewrite !mem_app, no_slash_fmt_d.
  - destruct (Hshape "/plot" ("&intervals=" +:+ fmt_d (getMaxDataPoints q)))
      as (H1 & H2 & H3 & H4); [solve_elem| |].
    { unfold getQueryBaseURL. rewrite (isExpression_false _ Hexpr), Hsum, Hint, Hrec.
      cbv zeta. app_eq. }
    split_and!; [done|done|done|]. intros _. apply H4.
    by rewrite !mem_app, no_slash_fmt_d.
Qed.

Lemma C4_streamset_mode_precedence_witness :
  pi_Expression (q_Pi Demo.q_sum) = "" /\
  uri_path (getQueryBaseURL Demo.q_sum) = "/streamsets/summary".
Proof.
  assert (H1 : pi_Expression (q_Pi Demo.q_sum) = "") by reflexivity.
  split; [exact H1|].
  exact (proj1 (proj2 (C4_streamset_mode_precedence Demo.q_sum H1))).
Defined.

(** The loop of [getSummaryURIComponent] appends one parameter per type. *)
Lemma summary_types_fold (types : list SummaryType) (acc : string) :
  fold_left (fun uri t => uri +:+ "&summaryType=" +:+ st_Value t) types acc
  = acc +:+ Str.concat (map (fun t => "&summaryType=" +:+ st_Value t) types).
Proof.
  revert acc. induction types as [|t types IH]; intros acc; simpl.
  - by rewrite app_nil_r.
  - rewrite IH. app_eq.
Qed.

(** C6. The summary fragment is one [summaryType] per configured type,
    in order, then [summaryBasis], then [summaryDuration] (defaulting
    to [30s]); a summary query without expression ends with it; for a
    query with an expression the fragment is empty and the built URI
    has no parameter besides the time range, the sampling ones and
    [expression]. *)
Theorem C6_summary_fragment (q : Query) :
  (pi_Expression (q_Pi q) = "" ->
     getSummaryURIComponent (q_Pi q)
     = Str.concat (map (fun t => "&summaryType=" +:+ st_Value t)
                     (sum_Types (pi_Summary (q_Pi q))))
         +:+ "&summaryBasis=" +:+ sum_Basis (pi_Summary (q_Pi q))
         +:+ "&summaryDuration="
         +:+ (if decide (sum_Interval (pi_Summary (q_Pi q)) = "") then "30s"
              else sum_Interval (pi_Summary (q_Pi q))))
  /\ (pi_Expression (q_Pi q) = "" -> isSummary (q_Pi q) = true ->
        getQueryBaseURL q
        = "/streamsets/summary" +:+ getTimeRangeURIComponent q
            +:+ "&intervals=" +:+ fmt_d (getMaxDataPoints q)
            +:+ getSummaryURIComponent (q_Pi q))
  /\ (pi_Expression (q_Pi q) <> "" ->
        getSummaryURIComponent (q_Pi q) = ""
        /\ forall name, name ∈ uri_param_names (getQueryBaseURL q) ->
             name ∈ ["startTime"; "endTime"; "sampleType"; "sampleInterval"; "expression"]
             /\ name ∉ ["summaryType"; "summaryBasis"; "summaryDuration"]).
Proof.
  split_and!.
  - intros Hexpr. unfold getSummaryURIComponent, getSummaryDuration.
    rewrite (isExpression_false _ Hexpr). cbv zeta. simpl negb. cbv iota.
    rewrite summary_types_fold. app_eq.
  - intros Hexpr Hsum. unfold getQueryBaseURL.
    rewrite (isExpression_false _ Hexpr), Hsum. cbv zeta. app_eq.
  - intros Hexpr. split.
    { unfold getSummaryURIComponent. by rewrite (isExpression_true _ Hexpr). }
    assert (Hnames : exists params : list (string * string),
              uri_param_names (getQueryBaseURL q) = map fst params /\
              map fst params ⊆ ["startTime"; "endTime"; "sampleType";
                                "sampleInterval"; "expression"]).
    { unfold getQueryBaseURL, getTimeRangeURIComponent.
      rewrite (isExpression_true _ Hexpr).
      destruct (isSummary (q_Pi q)); [destruct (isInterpolated (q_Pi q))|]; cbv zeta.
      - exists [("startTime", formatRFC3339 (q_From q));
                ("endTime", formatRFC3339 (q_To q));
                ("sampleType", "Interval");
                ("sampleInterval", fmt_d (getIntervalTime q) +:+ "ms");
                ("expression", QueryEscape (pi_Expression (q_Pi q)))].
        split.
        + rewrite <- (uri_param_names_join "/calculation/summary");
            [f_equal; cbn [join_params]; app_eq|done|solve_params|done].
        + intros x Hx. exact Hx.
      - exists [("startTime", formatRFC3339 (q_From q));
                ("endTime", formatRFC3339 (q_To q));
                ("expression", QueryEscape (pi_Expression (q_Pi q)))].
        split.
        + rewrite <- (uri_param_names_join "/calculation/summary");
            [f_equal; cbn [join_params]; app_eq|done|solve_params|done].
        + intros x Hx. simpl in Hx. set_unfold. tauto.
      - exists [("startTime", formatRFC3339 (q_From q));
                ("endTime", formatRFC3339 (q_To q));
                ("sampleInterval", fmt_d (getIntervalTime q) +:+ "ms");
                ("expression", QueryEscape (pi_Expression (q_Pi q)))].
        split.
        + rewrite <- (uri_param_names_join "/calculation/intervals");
            [f_equal; cbn [join_params]; app_eq|done|solve_params|done].
        + intros x Hx. simpl in Hx. set_unfold. tauto. }
    destruct Hnames as (params & -> & Hsub).
    intros name Hname. apply Hsub in Hname. split; [done|].
    set_unfold in Hname. set_unfold.
    intros Hbad. destruct Hname as [->|[->|[->|[->|[->|[]]]]]];
      destruct Hbad as [?|[?|[?|[]]]]; discriminate.
Qed.

Lemma C6_summary_fragment_witness :
  getSummaryURIComponent (q_Pi Demo.q_sum)
  = "&summaryType=Average&summaryType=Maximum&summaryBasis=TimeWeighted&summaryDuration=30s"
  /\ getSummaryURIComponent (q_Pi Demo.q_calc_sum) = "".
Proof.
  assert (H1 : pi_Expression (q_Pi Demo.q_sum) = "") by reflexivity.
  assert (H2 : pi_Expression (q_Pi Demo.q_calc_sum) <> "") by discriminate.
  split.
  - etransitivity; [exact (proj1 (C6_summary_fragment Demo.q_sum) H1)|reflexivity].
  - exact (proj1 (proj2 (proj2 (C6_summary_fragment Demo.q_calc_sum)) H2)).
Defined.

(** ** The response classifier *)

Lemma classified_as_intro (data : json) (status : Z) (v : PiBatchData) :
  UnmarshalJSON data = Ok (mkPIBatchResponse status (Some v), None) ->
  classified_as data v.
Proof. intros H. by eexists. Qed.

(** *** The generic decode *)

Lemma map_get_set (k k' : string) (v : any) (m : list (string * any)) :
  map_get k' (map_set k v m) = if decide (k = k') then Some v else map_get k' m.
Proof.
  induction m as [|[k1 v1] m IH]; cbn [map_set map_get]; [done|].
  destruct (decide (k = k1)) as [->|Hk1].
  - cbn [map_get]. by destruct (decide (k1 = k')).
  - destruct (string_ltb k k1); cbn [map_get].
    + done.
    + rewrite IH. destruct (decide (k1 = k')) as [->|]; [|done].
      by rewrite decide_False.
Qed.

Lemma decode_members_cons (dec : json -> option any) (k : string) (v : json)
    (rest : list (string * json)) (m : list (string * any)) :
  decode_members dec ((k, v) :: rest) m
  = match dec v with
    | Some a => decode_members dec rest (map_set k a m)
    | None => None
    end.
Proof. reflexivity. Qed.

Lemma decode_list_cons (dec : json -> option any) (x : json) (rest : list json) :
  decode_list dec (x :: rest)
  = match dec x, decode_list dec rest with
    | Some a, Some r => Some (a :: r)
    | _, _ => None
    end.
Proof. reflexivity. Qed.

Lemma decode_any_JObj (fields : list (string * json)) :
  decode_any (JObj fields) = AMap <$> decode_members decode_any fields [].
Proof. reflexivity. Qed.

Lemma decode_any_JArr (items : list json) :
  decode_any (JArr items) = AArr <$> decode_list decode_any items.
Proof. reflexivity. Qed.

(** What the map built from an object holds under a key is the decoded
    last member of that name. *)
Lemma decode_members_get (fields : list (string * json)) :
  forall acc m,
    decode_members decode_any fields acc = Some m ->
    forall k,
      match obj_get k fields with
      | Some v => exists a, decode_any v = Some a /\ map_get k m = Some a
      | None => map_get k m = map_get k acc
      end.
Proof.
  induction fields as [|[k1 v1] rest IH]; intros acc m Hm k.
  - cbn in Hm. by injection Hm as <-.
  - rewrite decode_members_cons in Hm.
    destruct (decode_any v1) as [a1|] eqn:Hv1; [|done].
    specialize (IH _ _ Hm k). cbn [obj_get].
    destruct (obj_get k rest) as [v|]; [exact IH|].
    rewrite map_get_set in IH.
    destruct (decide (k1 = k)) as [->|Hne]; [|exact IH].
    by exists a1.
Qed.

Lemma decode_any_AMap (v : json) (entries : list (string * any)) :
  decode_any v = Some (AMap entries) ->
  exists fields, v = JObj fields /\ decode_members decode_any fields [] = Some entries.
Proof.
  destruct v as [| | | | | |fields]; cbn [decode_any]; try discriminate.
  - by destruct (float_of_Z z).
  - by destruct (ParseFloat lit).
  - by destruct (decode_list decode_any items).
  - destruct (decode_members decode_any fields []) as [m|] eqn:Hm; [|done].
    cbn. intros [= <-]. by exists fields.
Qed.

Lemma decode_any_AArr (v : json) (items : list any) :
  decode_any v = Some (AArr items) ->
  exists l, v = JArr l /\ decode_list decode_any l = Some items.
Proof.
  destruct v as [| | | | |l|]; cbn [decode_any]; try discriminate.
  - by destruct (float_of_Z z).
  - by destruct (ParseFloat lit).
  - destruct (decode_list decode_any l) as [m|] eqn:Hm; [|done].
    cbn. intros [= <-]. by exists l.
  - by destruct (decode_members decode_any fields []).
Qed.

Lemma decode_list_nil (l : list json) :
  decode_list decode_any l = Some [] -> l = [].
Proof.
  destruct l as [|x rest]; [done|]. rewrite decode_list_cons.
  destruct (decode_any x); [|done]. by destruct (decode_list decode_any rest).
Qed.

Lemma dec_rawData_JObj (top : list (string * json)) (rawData : list (string * any)) :
  dec_rawData (JObj top) = Some rawData <->
  valid (JObj top) = true /\ decode_members decode_any top [] = Some rawData.
Proof.
  unfold dec_rawData, Unmarshal_any. destruct (valid (JObj top)); [|by split; [|intros []]].
  rewrite decode_any_JObj.
  destruct (decode_members decode_any top []) as [m|]; cbn; [|by split; [|intros []]].
  split; [by intros [= <-]|by intros [_ [= <-]]].
Qed.

(** The object [Content] of a body, in the text and in the map. *)
Lemma rawData_Content (top : list (string * json)) (rawData content : list (string * any)) :
  dec_rawData (JObj top) = Some rawData ->
  (map_get "Content" rawData = Some (AMap content)
   <-> exists fields,
         obj_get "Content" top = Some (JObj fields)
         /\ decode_members decode_any fields [] = Some content).
Proof.
  intros [_ Hraw]%dec_rawData_JObj.
  pose proof (decode_members_get top [] rawData Hraw "Content") as Hget.
  destruct (obj_get "Content" top) as [v|].
  - destruct Hget as (a & Ha & Hm). rewrite Hm. split.
    + intros [= ->]. apply decode_any_AMap in Ha as (fields & -> & Hf).
      by exists fields.
    + intros (fields & [= ->] & Hf). rewrite decode_any_JObj, Hf in Ha.
      cbn in Ha. by injection Ha as <-.
  - rewrite Hget. cbn. split; [done|]. by intros (fields & ? & _).
Qed.

(** The array [Items] of [Content] is empty in the map exactly when it
    is in the text. *)
Lemma content_Items_empty (fields : list (string * json))
    (content : list (string * any)) :
  decode_members decode_any fields [] = Some content ->
  (map_get "Items" content = Some (AArr []) <-> obj_get "Items" fields = Some (JArr [])).
Proof.
  intros Hf. pose proof (decode_members_get fields [] content Hf "Items") as Hget.
  destruct (obj_get "Items" fields) as [v|].
  - destruct Hget as (a & Ha & Hm). rewrite Hm. split.
    + intros [= ->]. apply decode_any_AArr in Ha as (l & -> & Hl).
      by rewrite (decode_list_nil l Hl).
    + intros [= ->]. cbn in Ha. by injection Ha as <-.
  - rewrite Hget. cbn. by split.
Qed.

(** *** The classifier on a body with an object-valued [Content] *)

Lemma UnmarshalJSON_content (data : json) (rawData content : list (string * any)) :
  dec_rawData data = Some rawData ->
  map_get "Content" rawData = Some (AMap content) ->
  UnmarshalJSON data
  = let status := dec_Status data in
    let generic := createPiBatchDataError could_not_process in
    if negb (bool_decide (status = StatusOK)) then
      match dec_ErrorResponse content with
      | None => Ok (mkPIBatchResponse status None,
                    Some "json: cannot unmarshal error response")
      | Some temp_error =>
          Ok (mkPIBatchResponse status
                (Some (createPiBatchDataError (Errors temp_error))), None)
      end
    else
      match map_get "Items" content with
      | Some (AArr []) => Panic "index out of range [0] with length 0"
      | Some (AArr (AMap item :: _)) =>
          match map_get "WebId" item with
          | Some (AStr _) =>
              match dec_WithSubItems content with
              | None => Ok (mkPIBatchResponse status (Some generic), None)
              | Some r => Ok (mkPIBatchResponse status (Some (DataWithSubItems r)), None)
              end
          | _ =>
              match dec_WithoutSubItems content with
              | None => Ok (mkPIBatchResponse status (Some generic), None)
              | Some r =>
                  Ok (mkPIBatchResponse status (Some (DataWithoutSubItems r)), None)
              end
          end
      | _ => Ok (mkPIBatchResponse status (Some generic), None)
      end.
Proof.
  intros Hraw Hcontent. unfold UnmarshalJSON. rewrite Hraw, Hcontent. cbv zeta.
  destruct (negb (bool_decide (dec_Status data = StatusOK))); [done|].
  destruct (map_get "Items" content) as [[| | | |[|[]]|]|]; done.
Qed.

(** A status-200 body whose [Content.Items] is an empty array makes the
    classifier index past the end of the array, unless the decode into
    the map turns the body down. *)
Lemma UnmarshalJSON_empty_items (top content : list (string * json)) :
  is_Some (Unmarshal_any (JObj top)) ->
  dec_Status (JObj top) = StatusOK ->
  obj_get "Content" top = Some (JObj content) ->
  obj_get "Items" content = Some (JArr []) ->
  UnmarshalJSON (JObj top) = Panic "index out of range [0] with length 0".
Proof.
  intros [a Ha] Hs Hc Hi.
  assert (Hraw : exists rawData, dec_rawData (JObj top) = Some rawData).
  { unfold Unmarshal_any in Ha. destruct (valid (JObj top)) eqn:Hvalid; [|done].
    rewrite decode_any_JObj in Ha.
    destruct (decode_members decode_any top []) as [m|] eqn:Hm; [|done].
    exists m. by apply dec_rawData_JObj. }
  destruct Hraw as [rawData Hraw].
  pose proof (decode_members_get top [] rawData
                (proj2 (proj1 (dec_rawData_JObj _ _) Hraw)) "Content") as Hget.
  rewrite Hc in Hget. destruct Hget as (c & Hdec & Hget).
  rewrite decode_any_JObj in Hdec.
  destruct (decode_members decode_any content []) as [cm|] eqn:Hcm; [|done].
  cbn in Hdec. injection Hdec as <-.
  rewrite (UnmarshalJSON_content _ rawData cm Hraw Hget). cbv zeta.
  rewrite Hs. rewrite bool_decide_eq_true_2 by done. cbn [negb].
  by rewrite (proj2 (content_Items_empty content cm Hcm) Hi).
Qed.

(** Without an object-valued [Content] the classifier returns an error
    and leaves the payload nil, whatever the status. *)
Lemma UnmarshalJSON_no_content (top : list (string * json)) :
  (forall content, obj_get "Content" top <> Some (JObj content)) ->
  exists e,
    UnmarshalJSON (JObj top) = Ok (mkPIBatchResponse (dec_Status (JObj top)) None, Some e).
Proof.
  intros H. unfold UnmarshalJSON.
  destruct (dec_rawData (JObj top)) as [rawData|] eqn:Hraw; [|by eexists].
  destruct (map_get "Content" rawData) as [[| | | | |content]|] eqn:Hc;
    try (by eexists).
  apply (rawData_Content top rawData content Hraw) in Hc as (fields & Hf & _).
  by destruct (H fields).
Qed.

(** *** What the typed decode leaves in a field *)

(** A field of a struct holds what the members that belong to it leave
    in it, decoded one after the other. *)
Lemma dec_members_field {S T} (member : S -> string -> any -> option S)
    (proj : S -> T) (dec : T -> any -> option T) (field : string) :
  (forall cur k v r,
     member cur k v = Some r ->
     if names_field field k then dec (proj cur) v = Some (proj r)
     else proj r = proj cur) ->
  forall entries cur r,
    dec_members member cur entries = Some r ->
    dec_values dec (proj cur) (field_values field entries) = Some (proj r).
Proof.
  intros Hmember. induction entries as [|[k v] rest IH]; intros cur r Hr.
  - cbn in Hr. by injection Hr as <-.
  - cbn [dec_members] in Hr.
    destruct (member cur k v) as [cur'|] eqn:Hstep; [|done].
    specialize (Hmember _ _ _ _ Hstep). specialize (IH _ _ Hr).
    unfold field_values in *.
    destruct (names_field field k) eqn:Hk.
    + rewrite filter_cons_True by done. cbn [map snd dec_values].
      by rewrite Hmember.
    + rewrite filter_cons_False by (cbn; by rewrite Hk). by rewrite <- Hmember.
Qed.

(** Two fields with different names are different fields. *)
Lemma names_field_other (f g k : string) :
  fold_name f <> fold_name g -> names_field f k = true -> names_field g k = false.
Proof.
  unfold names_field. intros Hfg Hf%bool_decide_eq_true.
  apply bool_decide_eq_false. congruence.
Qed.

Ltac other_field :=
  match goal with
  | H : names_field ?f ?k = true, H' : names_field ?g ?k = true |- _ =>
      rewrite (names_field_other f g k) in H'; [discriminate H'| |exact H];
      vm_compute; discriminate
  end.

(** Decides which field the member [k] of the step [Hstep] belongs to,
    and runs the step. *)
Ltac member_cases k Hstep :=
  revert Hstep;
  repeat match goal with
         | |- context [names_field ?f k] =>
             let H := fresh "Hfield" in destruct (names_field f k) eqn:H
         end;
  intros Hstep;
  repeat match type of Hstep with
         | mbind _ ?x = Some _ =>
             let E := fresh "E" in
             destruct x eqn:E; [cbn [mbind option_bind] in Hstep|discriminate Hstep]
         end;
  injection Hstep as <-;
  first [other_field | assumption | reflexivity].

Lemma WithoutSubItems_Items (content : list (string * any))
    (r : PiBatchDataWithoutSubItems) :
  dec_WithoutSubItems content = Some r ->
  dec_values (dec_slice zero_item dec_item) (mkSlice [] []) (field_values "Items" content)
  = Some (wo_Items r).
Proof.
  apply (dec_members_field dec_WithoutSubItems_member wo_Items).
  intros [l i u] k v r' Hstep. unfold dec_WithoutSubItems_member in Hstep.
  member_cases k Hstep.
Qed.

Lemma WithoutSubItems_Units (content : list (string * any))
    (r : PiBatchDataWithoutSubItems) :
  dec_WithoutSubItems content = Some r ->
  dec_values dec_string "" (field_values "UnitsAbbreviation" content)
  = Some (wo_UnitsAbbreviation r).
Proof.
  apply (dec_members_field dec_WithoutSubItems_member wo_UnitsAbbreviation).
  intros [l i u] k v r' Hstep. unfold dec_WithoutSubItems_member in Hstep.
  member_cases k Hstep.
Qed.

Lemma WithSubItems_Items (content : list (string * any)) (r : PiBatchDataWithSubItems) :
  dec_WithSubItems content = Some r ->
  dec_values (dec_slice zero_subitem dec_subitem) (mkSlice [] [])
    (field_values "Items" content)
  = Some (ws_Items r).
Proof.
  apply (dec_members_field dec_WithSubItems_member ws_Items).
  intros [l i e] k v r' Hstep. unfold dec_WithSubItems_member in Hstep.
  member_cases k Hstep.
Qed.

Lemma subitem_Items (entries : list (string * any)) (cur first : PiBatchSubItem) :
  dec_members dec_subitem_member cur entries = Some first ->
  dec_values (dec_slice zero_item dec_item) (si_Items cur) (field_values "Items" entries)
  = Some (si_Items first).
Proof.
  apply (dec_members_field dec_subitem_member si_Items).
  intros [w n p l i u] k v r' Hstep. unfold dec_subitem_member in Hstep.
  member_cases k Hstep.
Qed.

Lemma subitem_Units (entries : list (string * any)) (cur first : PiBatchSubItem) :
  dec_members dec_subitem_member cur entries = Some first ->
  dec_values dec_string (si_UnitsAbbreviation cur)
    (field_values "UnitsAbbreviation" entries)
  = Some (si_UnitsAbbreviation first).
Proof.
  apply (dec_members_field dec_subitem_member si_UnitsAbbreviation).
  intros [w n p l i u] k v r' Hstep. unfold dec_subitem_member in Hstep.
  member_cases k Hstep.
Qed.

(** A member under the very name of a field belongs to it. *)
Lemma map_get_field_values (field : string) (m : list (string * any)) (v : any) :
  map_get field m = Some v -> v ∈ field_values field m.
Proof.
  unfold field_values. induction m as [|[k v'] m IH]; [done|]. cbn [map_get].
  destruct (decide (k = field)) as [->|Hne].
  - intros [= ->]. rewrite filter_cons_True; [by left|].
    cbn. unfold names_field. by apply bool_decide_eq_true.
  - intros Hv%IH. destruct (names_field field k) eqn:Hk.
    + rewrite filter_cons_True by done. by right.
    + rewrite filter_cons_False; [done|]. cbn. by rewrite Hk.
Qed.

(** A slice that took several values is empty exactly when the last
    of them is [null] or the empty array. *)
Lemma dec_values_slice_empty {A} (zero : A) (dec : A -> any -> option A)
    (vs : list any) :
  forall cur s,
    dec_values (dec_slice zero dec) cur vs = Some s ->
    vs <> [] ->
    (live s = [] <-> last vs = Some ANil \/ last vs = Some (AArr [])).
Proof.
  induction vs as [|v vs IH]; intros cur s Hs Hne; [done|].
  cbn [dec_values] in Hs.
  destruct (dec_slice zero dec cur v) as [cur'|] eqn:Hv; [|done].
  destruct vs as [|v' vs'].
  - cbn in Hs. injection Hs as <-. cbn [last]. unfold dec_slice in Hv.
    destruct v as [| | | |[|x rest]|]; try done.
    + injection Hv as <-. cbn. split; [by left|done].
    + injection Hv as <-. cbn. split; [by right|done].
    + cbn [dec_elems] in Hv.
      destruct (dec (hd zero (live cur ++ stale cur)) x); [|done].
      destruct (dec_elems zero dec (tl (live cur ++ stale cur)) rest); [|done].
      injection Hv as <-. cbn. split; [done|]. by intros [[=]|[=]].
  - change (last (v :: v' :: vs')) with (last (v' :: vs')). by eapply IH.
Qed.

(** An empty slice that takes one array holds the elements of the
    array, each decoded into a zero value. *)
Lemma dec_slice_elems {A} (zero : A) (dec : A -> any -> option A)
    (l : list any) (s : slice A) :
  dec_slice zero dec (mkSlice [] []) (AArr l) = Some s ->
  dec_elems zero dec [] l = Some (live s).
Proof.
  unfold dec_slice. destruct l as [|x rest]; [by intros [= <-]|].
  cbn [live stale app].
  destruct (dec_elems zero dec [] (x :: rest)) as [elems|]; [|done].
  by intros [= <-].
Qed.

(** The first element of a slice that took one array. *)
Lemma dec_slice_first {A} (zero : A) (dec : A -> any -> option A)
    (x : any) (rest : list any) (s : slice A) :
  dec_slice zero dec (mkSlice [] []) (AArr (x :: rest)) = Some s ->
  dec_elems zero dec [] (x :: rest) = Some (live s)
  /\ exists first others, live s = first :: others /\ dec zero x = Some first.
Proof.
  unfold dec_slice. cbn [live stale app dec_elems hd tl].
  destruct (dec zero x) as [first|]; [|done].
  destruct (dec_elems zero dec [] rest) as [others|]; [|done].
  intros [= <-]. cbn. split; [done|]. by exists first, others.
Qed.

(** C2 (amended). For a body that is an object, is decoded into the
    map (no number beyond the range of [float64]), and whose [Content]
    is an object: a status
    other than 200 with a decodable [Errors] list gives the Error
    variant (units empty, no items) whatever [Items] looks like; with
    status 200, [Items] absent, not an array, or with a first element
    that is not an object gives the Error variant with the generic
    message; a first element without a string-valued [WebId] gives
    FlatItems, a first element with one NestedItems, and a failing
    typed decoding of [Content] the Error variant with the generic
    message.  The items and the units of a variant are what the
    members of [Content] that belong to the fields [Items] and
    [UnitsAbbreviation], whatever the case of their letters, leave
    there in the order of their keys; where only one member belongs
    to a field, that is the member's value: FlatItems is over
    [Content.Items] with the units [Content.UnitsAbbreviation], and
    NestedItems over the items and the units of [Content.Items[0]]. *)
Theorem C2_classification (top : list (string * json))
    (rawData content : list (string * any)) :
  dec_rawData (JObj top) = Some rawData ->
  map_get "Content" rawData = Some (AMap content) ->
  let data := JObj top in
  let generic := createPiBatchDataError could_not_process in
  (dec_Status data <> StatusOK ->
     forall e, dec_ErrorResponse content = Some e ->
       classified_as data (PiBatchDataError e)
       /\ getUnits (PiBatchDataError e) = Ok ""
       /\ getItems (PiBatchDataError e) = Ok [])
  /\ (dec_Status data = StatusOK ->
        ((forall items, map_get "Items" content <> Some (AArr items)) ->
           classified_as data generic)
        /\ (forall first rest,
              map_get "Items" content = Some (AArr (first :: rest)) ->
              (forall item, first <> AMap item) ->
              classified_as data generic)
        /\ (forall item rest,
              map_get "Items" content = Some (AArr (AMap item :: rest)) ->
              (forall w, map_get "WebId" item <> Some (AStr w)) ->
              match dec_WithoutSubItems content with
              | Some r =>
                  classified_as data (DataWithoutSubItems r)
                  /\ getItems (DataWithoutSubItems r) = Ok (live (wo_Items r))
                  /\ getUnits (DataWithoutSubItems r) = Ok (wo_UnitsAbbreviation r)
                  /\ dec_values (dec_slice zero_item dec_item) (mkSlice [] [])
                       (field_values "Items" content)
                     = Some (wo_Items r)
                  /\ dec_values dec_string "" (field_values "UnitsAbbreviation" content)
                     = Some (wo_UnitsAbbreviation r)
                  /\ (field_values "Items" content = [AArr (AMap item :: rest)] ->
                      dec_elems zero_item dec_item [] (AMap item :: rest)
                      = Some (live (wo_Items r)))
                  /\ (forall u, field_values "UnitsAbbreviation" content = [AStr u] ->
                        wo_UnitsAbbreviation r = u)
              | None => classified_as data generic
              end)
        /\ (forall item rest w,
              map_get "Items" content = Some (AArr (AMap item :: rest)) ->
              map_get "WebId" item = Some (AStr w) ->
              match dec_WithSubItems content with
              | Some r =>
                  classified_as data (DataWithSubItems r)
                  /\ dec_values (dec_slice zero_subitem dec_subitem) (mkSlice [] [])
                       (field_values "Items" content)
                     = Some (ws_Items r)
                  /\ (field_values "Items" content = [AArr (AMap item :: rest)] ->
                      exists first,
                        dec_subitem zero_subitem (AMap item) = Some first
                        /\ getItems (DataWithSubItems r) = Ok (live (si_Items first))
                        /\ getUnits (DataWithSubItems r)
                           = Ok (si_UnitsAbbreviation first)
                        /\ dec_values (dec_slice zero_item dec_item) (mkSlice [] [])
                             (field_values "Items" item)
                           = Some (si_Items first)
                        /\ dec_values dec_string ""
                             (field_values "UnitsAbbreviation" item)
                           = Some (si_UnitsAbbreviation first)
                        /\ (forall l, field_values "Items" item = [AArr l] ->
                              dec_elems zero_item dec_item [] l
                              = Some (live (si_Items first)))
                        /\ (forall u,
                              field_values "UnitsAbbreviation" item = [AStr u] ->
                              si_UnitsAbbreviation first = u))
              | None => classified_as data generic
              end)).
Proof.
  intros Hraw Hcontent data generic. subst data.
  pose proof (UnmarshalJSON_content _ _ _ Hraw Hcontent) as Hrun. cbv zeta in Hrun.
  set (status := dec_Status (JObj top)) in *. fold generic in Hrun.
  split.
  - intros Hstatus e He. split; [|done].
    apply (classified_as_intro _ status). rewrite Hrun.
    rewrite bool_decide_eq_false_2 by done. cbn [negb].
    rewrite He. by destruct e.
  - intros Hstatus. rewrite bool_decide_eq_true_2 in Hrun by done.
    cbn [negb] in Hrun.
    split_and!.
    + intros Hitems. apply (classified_as_intro _ status). rewrite Hrun.
      destruct (map_get "Items" content) as [[| | | |items|]|]; try done.
      by destruct (Hitems items).
    + intros first rest Hitems Hfirst.
      apply (classified_as_intro _ status). rewrite Hrun, Hitems.
      destruct first as [| | | | |item]; try done. by destruct (Hfirst item).
    + intros item rest Hitems Hweb. rewrite Hitems in Hrun.
      assert (Hflat : UnmarshalJSON (JObj top) =
                match dec_WithoutSubItems content with
                | None => Ok (mkPIBatchResponse status (Some generic), None)
                | Some r =>
                    Ok (mkPIBatchResponse status (Some (DataWithoutSubItems r)), None)
                end).
      { rewrite Hrun. destruct (map_get "WebId" item) as [[| | |w| |]|]; try done.
        by destruct (Hweb w). }
      destruct (dec_WithoutSubItems content) as [r|] eqn:Hdec;
        [|by apply (classified_as_intro _ status)].
      pose proof (WithoutSubItems_Items _ _ Hdec) as Hi.
      pose proof (WithoutSubItems_Units _ _ Hdec) as Hu.
      split_and!; [by apply (classified_as_intro _ status)|done|done|exact Hi
                  |exact Hu| |].
      * intros Hsole. rewrite Hsole in Hi. cbn [dec_values] in Hi.
        destruct (dec_slice zero_item dec_item (mkSlice [] [])
                    (AArr (AMap item :: rest))) as [s|] eqn:Hs; [|done].
        injection Hi as <-. by apply dec_slice_elems.
      * intros u Hsole. rewrite Hsole in Hu. cbn in Hu. by injection Hu.
    + intros item rest w Hitems Hweb. rewrite Hitems, Hweb in Hrun.
      destruct (dec_WithSubItems content) as [r|] eqn:Hdec;
        [|by apply (classified_as_intro _ status)].
      pose proof (WithSubItems_Items _ _ Hdec) as Hi.
      split_and!; [by apply (classified_as_intro _ status)|exact Hi|].
      intros Hsole. rewrite Hsole in Hi. cbn [dec_values] in Hi.
      destruct (dec_slice zero_subitem dec_subitem (mkSlice [] [])
                  (AArr (AMap item :: rest))) as [s|] eqn:Hs; [|done].
      injection Hi as Hi. subst s.
      apply dec_slice_first in Hs as (_ & first & others & Hlive & Hfirst).
      exists first. unfold getItems, getUnits. rewrite Hlive.
      pose proof (subitem_Items item zero_subitem first Hfirst) as Hsi.
      pose proof (subitem_Units item zero_subitem first Hfirst) as Hsu.
      split_and!; [exact Hfirst|done|done|exact Hsi|exact Hsu| |].
      * intros l Hone. rewrite Hone in Hsi. cbn [dec_values] in Hsi.
        destruct (dec_slice zero_item dec_item (si_Items zero_subitem) (AArr l))
          as [s|] eqn:Hl; [|done].
        injection Hsi as <-. by apply dec_slice_elems.
      * intros u Hone. rewrite Hone in Hsu. cbn in Hsu. by injection Hsu.
Qed.

Lemma C2_classification_witness :
  classified_as Demo.body_nested
    (DataWithSubItems
       (mkWithSub []
          (mkSlice
             [mkSubItem "F1Ab" "" "" (mkLinks "")
                (mkSlice
                   [mkItem "2024-01-01T00:00:00Z"
                      (AFloat (mkFloat64 false 3462142213541069 (-48))) "" true false false
                      false] [])
                "psi"] [])
          None)).
Proof.
  eassert (Hraw : dec_rawData Demo.body_nested = Some _) by (vm_compute; reflexivity).
  match type of Hraw with
  | _ = Some ?rawData =>
      eassert (Hcontent : map_get "Content" rawData = Some (AMap _))
        by (vm_compute; reflexivity)
  end.
  pose proof (C2_classification _ _ _ Hraw Hcontent) as [_ H].
  destruct (H eq_refl) as (_ & _ & _ & Hnested).
  specialize (Hnested _ _ "F1Ab" eq_refl eq_refl).
  match type of Hnested with
  | match ?d with _ => _ end =>
      let r := eval vm_compute in d in
      change d with r in Hnested
  end.
  exact (proj1 Hnested).
Defined.

(** C2 (as stated) fails: a non-200 body whose [Content] is not an
    object is answered with an error and gets no variant at all, and a
    first item whose [WebId] member is not a string is classified flat,
    not nested. *)
Lemma C2_counterexample :
  ~ (forall data, dec_Status data <> StatusOK ->
       exists e, classified_as data (PiBatchDataError e))
  /\ ~ (forall data item, dec_Status data = StatusOK ->
          raw_first_item data = Some item -> is_Some (obj_get "WebId" item) ->
          exists r, classified_as data (DataWithSubItems r)).
Proof.
  split.
  - intros H. destruct (H Demo.body_500_text) as (e & p & Hrun & Hp); [done|].
    vm_compute in Hrun. injection Hrun as <-. discriminate.
  - intros H.
    destruct (H Demo.body_numeric_webid _ eq_refl eq_refl) as (r & p & Hrun & Hp).
    { by eexists. }
    vm_compute in Hrun. injection Hrun as <-. discriminate.
Qed.

(** C8 (fails on the code). A status-200 body whose [Content.Items] is
    the empty array, such as [{"Status":200,"Content":{"Items":[]}}],
    never gets the Error variant: reading the first element of the
    empty array panics.  The one exception is a body that the decode
    into the map turns down, as for a number beyond the range of
    [float64]: that one is answered with an error and no variant at
    all. *)
Theorem C8_empty_items_panics :
  (forall top content,
     dec_Status (JObj top) = StatusOK ->
     obj_get "Content" top = Some (JObj content) ->
     obj_get "Items" content = Some (JArr []) ->
     (is_Some (Unmarshal_any (JObj top)) ->
      UnmarshalJSON (JObj top) = Panic "index out of range [0] with length 0")
     /\ (Unmarshal_any (JObj top) = None ->
         exists e,
           UnmarshalJSON (JObj top) = Ok (mkPIBatchResponse StatusOK None, Some e)))
  /\ UnmarshalJSON Demo.body_empty_items = Panic "index out of range [0] with length 0".
Proof.
  split.
  - intros top content Hstatus Hcontent Hitems. split.
    + intros Hfits. by apply (UnmarshalJSON_empty_items top content).
    + intros Hbig. unfold UnmarshalJSON, dec_rawData. rewrite Hbig, Hstatus.
      by eexists.
  - reflexivity.
Qed.

(** ** Target expansion *)

Lemma getBasePath_ok (p : PIWebAPIQuery) :
  Str.mem ";" (pi_Target p) = true ->
  getBasePath p = Ok (Str.before ";" (pi_Target p)).
Proof.
  intros H. destruct (Index_present ";" _ H) as (Hi & Ht & _).
  unfold getBasePath, slice_to. rewrite decide_True by lia. by rewrite Ht.
Qed.

Lemma getBasePath_panic (p : PIWebAPIQuery) :
  Str.mem ";" (pi_Target p) = false ->
  getBasePath p = Panic "slice bounds out of range".
Proof.
  intros H. unfold getBasePath, slice_to.
  rewrite (Index_absent ";" _ H). by rewrite decide_False by lia.
Qed.

Lemma getTargets_ok (p : PIWebAPIQuery) :
  Str.mem ";" (pi_Target p) = true ->
  getTargets p = Ok (Str.Split (Str.after ";" (pi_Target p)) ";").
Proof.
  intros H. destruct (Index_present ";" _ H) as (Hi & _ & Hd).
  unfold getTargets, slice_from. rewrite decide_True by lia. by rewrite Hd.
Qed.

Lemma getTargets_no_separator (p : PIWebAPIQuery) :
  Str.mem ";" (pi_Target p) = false ->
  getTargets p = Ok [pi_Target p].
Proof.
  intros H. unfold getTargets, slice_from.
  rewrite (Index_absent ";" _ H). rewrite decide_True by (unfold Str.len; lia).
  simpl. by rewrite Split_no_sep.
Qed.

(** ** The pipeline *)

(** One turn of a loop of the pipeline. *)
Ltac loop_step :=
  cbn [processTargets batchRequest_loop frames_loop responses_loop processQueries].
Ltac loop_step_in H :=
  cbn [processTargets batchRequest_loop frames_loop responses_loop processQueries] in H.

Ltac unfold_processQuery := unfold processQuery.
Ltac unfold_QueryData := unfold QueryData.
Ltac unfold_processBatchtoFrames := unfold processBatchtoFrames.
Ltac unfold_batchRequest := unfold batchRequest.
Ltac unfold_batch_fails_in H := unfold batch_fails in H.

Section PipelineFacts.

Context {World DataQuery : Type}.
Context (dq_RefID : DataQuery -> string).
Context (decodeQuery : DataQuery -> option Query).
Context (settingsURL : string).
Context (getWebID : string -> bool -> World -> option string * World).
Context (apiBatchRequest :
           gmap string BatchSubRequest -> World -> option (option json) * World).
Context {SliceType Fields : Type}.
Context (getTypeForWebID : string -> World -> SliceType).
Context (getDigitalStateforWebID : string -> World -> bool).
Context (convertItemsToDataFrame :
           string -> list PiBatchContentItem -> SliceType -> bool -> bool ->
           Frame Fields * option string).
Context (uuid_New : World -> string * World).
Context (range_order :
           gmap string (list PiProcessedQuery) -> World ->
           list (string * list PiProcessedQuery) * World).

(** A [range] loop visits every entry of the map once. *)
Hypothesis range_order_perm :
  forall m w, fst (range_order m w) ≡ₚ map_to_list m.

Local Abbreviation processTargets := (processTargets World settingsURL getWebID).
Local Abbreviation processQuery :=
  (processQuery World DataQuery decodeQuery settingsURL getWebID).
Local Abbreviation batchRequest_loop := (batchRequest_loop World apiBatchRequest).
Local Abbreviation batchRequest := (batchRequest World apiBatchRequest range_order).
Local Abbreviation frames_loop :=
  (frames_loop World SliceType Fields getTypeForWebID getDigitalStateforWebID
     convertItemsToDataFrame uuid_New).
Local Abbreviation responses_loop :=
  (responses_loop World SliceType Fields getTypeForWebID getDigitalStateforWebID
     convertItemsToDataFrame uuid_New).
Local Abbreviation processBatchtoFrames :=
  (processBatchtoFrames World SliceType Fields getTypeForWebID
     getDigitalStateforWebID convertItemsToDataFrame uuid_New range_order).
Local Abbreviation processQueries :=
  (processQueries World DataQuery dq_RefID decodeQuery settingsURL getWebID).
Local Abbreviation QueryData :=
  (QueryData World DataQuery dq_RefID decodeQuery settingsURL getWebID
     apiBatchRequest SliceType Fields getTypeForWebID getDigitalStateforWebID
     convertItemsToDataFrame uuid_New range_order).
Local Abbreviation mkEntry := (mkEntry settingsURL).

(** The full path [processQuery] builds for a target. *)
Local Abbreviation full_path q base target :=
  (base +:+ path_separator q +:+ target).

(** *** [processQuery] *)

Lemma processTargets_step (q : Query) (uid target : string) (rest : list string)
    (resp : list PiProcessedQuery) (d : Datasource World) (base : string) :
  getBasePath (q_Pi q) = Ok base ->
  processTargets q uid (target :: rest) resp d =
    processTargets q uid rest
      (match fst (getWebID (full_path q base target) (pi_IsPiPoint (q_Pi q)) (world d)) with
       | None => resp
       | Some webid => resp ++ [mkEntry q uid target (full_path q base target) webid]
       end)
      (mkDatasource
         (snd (getWebID (full_path q base target) (pi_IsPiPoint (q_Pi q)) (world d)))
         (channelConstruct d)).
Proof.
  intros Hbase. loop_step. unfold bind, lift, call.
  rewrite Hbase.
  by destruct (getWebID _ _ (world d)) as [[webid|] w].
Qed.

Lemma processTargets_panic (q : Query) (uid target : string) (rest : list string)
    (resp : list PiProcessedQuery) (d : Datasource World) (msg : string) :
  getBasePath (q_Pi q) = Panic msg ->
  processTargets q uid (target :: rest) resp d = (Panic msg, d).
Proof.
  intros Hbase. loop_step. unfold bind, lift.
  by rewrite Hbase.
Qed.

(** With a base path, the loop returns normally; what it adds to the
    slice are entries built by [mkEntry], and the registry is left
    alone. *)
Lemma processTargets_invariant (P : PiProcessedQuery -> Prop) (q : Query)
    (uid base : string) (targets : list string) :
  getBasePath (q_Pi q) = Ok base ->
  (forall s webid, P (mkEntry q uid s (full_path q base s) webid)) ->
  forall resp d, Forall P resp ->
    exists out d',
      processTargets q uid targets resp d = (Ok out, d')
      /\ Forall P out /\ channelConstruct d' = channelConstruct d.
Proof.
  intros Hbase Hentry. induction targets as [|t targets IH]; intros resp d Hresp.
  - by exists resp, d.
  - rewrite (processTargets_step _ _ _ _ _ _ _ Hbase).
    edestruct IH as (out & d' & Hrun & Hout & Hreg); last first.
    { exists out, d'. split_and!; [exact Hrun|exact Hout|by rewrite Hreg]. }
    destruct (fst (getWebID _ _ _)); [|done].
    apply Forall_app; split; [done|]. by apply Forall_singleton.
Qed.

(** When the outcome of resolving a path does not depend on the state
    of the world, the loop yields exactly the entries of the targets
    that resolve, in order. *)
Lemma processTargets_resolved (res : string -> option string) (q : Query)
    (uid base : string) (targets : list string) :
  getBasePath (q_Pi q) = Ok base ->
  (forall s w, s ∈ targets ->
     fst (getWebID (full_path q base s) (pi_IsPiPoint (q_Pi q)) w) = res s) ->
  forall resp d,
    exists d',
      processTargets q uid targets resp d
      = (Ok (resp ++ omap (fun s => mkEntry q uid s (full_path q base s) <$> res s)
                      targets), d').
Proof.
  intros Hbase. induction targets as [|t targets IH]; intros Hres resp d.
  - exists d. simpl. by rewrite List.app_nil_r.
  - rewrite (processTargets_step _ _ _ _ _ _ _ Hbase).
    rewrite Hres by solve_elem.
    edestruct IH as (d' & Hrun).
    { intros s w Hs. apply Hres. by constructor 2. }
    exists d'. rewrite Hrun. f_equal. f_equal. simpl.
    destruct (res t); simpl; [|done]. by rewrite <- List.app_assoc.
Qed.

Lemma processQuery_undecodable (dq : DataQuery) (uid : string) (d : Datasource World) :
  decodeQuery dq = None -> processQuery dq uid d = (Ok [], d).
Proof. intros H. unfold_processQuery. by rewrite H. Qed.

Lemma processQuery_with_separator (dq : DataQuery) (q : Query) (uid : string)
    (d : Datasource World) :
  decodeQuery dq = Some q ->
  Str.mem ";" (pi_Target (q_Pi q)) = true ->
  processQuery dq uid d
  = processTargets q uid (Str.Split (Str.after ";" (pi_Target (q_Pi q))) ";") [] d.
Proof.
  intros Hdec Hsep. unfold_processQuery. rewrite Hdec.
  unfold bind, lift. by rewrite (getTargets_ok _ Hsep).
Qed.

Lemma processQuery_without_separator (dq : DataQuery) (q : Query) (uid : string)
    (d : Datasource World) :
  decodeQuery dq = Some q ->
  Str.mem ";" (pi_Target (q_Pi q)) = false ->
  processQuery dq uid d = (Panic "slice bounds out of range", d).
Proof.
  intros Hdec Hsep. unfold_processQuery. rewrite Hdec.
  unfold bind, lift. rewrite (getTargets_no_separator _ Hsep).
  by apply processTargets_panic, getBasePath_panic.
Qed.

Lemma processQuery_keeps_registry (dq : DataQuery) (uid : string) :
  keeps_registry World (processQuery dq uid).
Proof.
  intros d. destruct (decodeQuery dq) as [q|] eqn:Hdec;
    [|by rewrite processQuery_undecodable].
  destruct (Str.mem ";" (pi_Target (q_Pi q))) eqn:Hsep;
    [|by rewrite (processQuery_without_separator _ q)].
  rewrite (processQuery_with_separator _ q) by done.
  edestruct (processTargets_invariant (fun _ => True) q uid) as (out & d' & -> & _ & Hreg);
    [by apply getBasePath_ok|done|done|done].
Qed.

(** Every entry [processQuery] returns carries the query's streamable
    flag and has no response yet. *)
Lemma processQuery_entries (dq : DataQuery) (q : Query) (uid : string)
    (d d' : Datasource World) (out : list PiProcessedQuery) :
  decodeQuery dq = Some q ->
  processQuery dq uid d = (Ok out, d') ->
  Forall (fun p => Streamable p = isStreamable q /\ Response p = None) out.
Proof.
  intros Hdec Hrun.
  destruct (Str.mem ";" (pi_Target (q_Pi q))) eqn:Hsep;
    [|by rewrite (processQuery_without_separator _ q) in Hrun].
  rewrite (processQuery_with_separator _ q) in Hrun by done.
  edestruct (processTargets_invariant
               (fun p => Streamable p = isStreamable q /\ Response p = None) q uid)
    as (out' & d'' & Hrun' & Hout & _);
    [by apply getBasePath_ok|done|apply Forall_nil_2|].
  rewrite Hrun in Hrun'. by injection Hrun' as -> _.
Qed.

(** When every target resolves, the loop adds one entry per target. *)
Lemma processTargets_all_resolve (q : Query) (uid base : string)
    (targets : list string) :
  getBasePath (q_Pi q) = Ok base ->
  (forall s w, s ∈ targets ->
     is_Some (fst (getWebID (full_path q base s) (pi_IsPiPoint (q_Pi q)) w))) ->
  forall resp d,
    exists added d',
      processTargets q uid targets resp d = (Ok (resp ++ added), d')
      /\ map Label added = targets
      /\ map FullTargetPath added = map (fun s => full_path q base s) targets.
Proof.
  intros Hbase. induction targets as [|t targets IH]; intros Hres resp d.
  - exists [], d. by rewrite List.app_nil_r.
  - rewrite (processTargets_step _ _ _ _ _ _ _ Hbase).
    destruct (Hres t (world d)) as [webid Hweb]; [solve_elem|]. rewrite Hweb.
    edestruct IH as (added & d' & Hrun & Hlabel & Hpath).
    { intros s w Hs. apply Hres. by constructor 2. }
    exists (mkEntry q uid t (full_path q base t) webid :: added), d'.
    rewrite Hrun, <- List.app_assoc. simpl. by rewrite Hlabel, Hpath.
Qed.

(** C5. For a query whose target has a [;] and whose segments all
    resolve, [processQuery] returns one entry per segment after the
    first [;], in order, each with the base path (the text before the
    first [;]) joined to the segment by a backslash for PI points and
    by [|] otherwise. *)
Theorem C5_target_expansion (dq : DataQuery) (q : Query) (uid : string) :
  decodeQuery dq = Some q ->
  Str.mem ";" (pi_Target (q_Pi q)) = true ->
  let base := Str.before ";" (pi_Target (q_Pi q)) in
  let segments := Str.Split (Str.after ";" (pi_Target (q_Pi q))) ";" in
  let sep := if pi_IsPiPoint (q_Pi q) then "\" else "|" in
  (forall s w, s ∈ segments ->
     is_Some (fst (getWebID (base +:+ sep +:+ s) (pi_IsPiPoint (q_Pi q)) w))) ->
  forall d,
    exists out d',
      processQuery dq uid d = (Ok out, d')
      /\ length out = length segments
      /\ map Label out = segments
      /\ map FullTargetPath out = map (fun s => base +:+ sep +:+ s) segments.
Proof.
  intros Hdec Hsep base segments sep Hres d.
  rewrite (processQuery_with_separator _ q) by done.
  destruct (processTargets_all_resolve q uid base segments
              (getBasePath_ok _ Hsep) Hres [] d)
    as (added & d' & Hrun & Hlabel & Hpath).
  exists added, d'. split_and!; [exact Hrun| |exact Hlabel|exact Hpath].
  by rewrite <- Hlabel, length_map.
Qed.

Lemma omap_skip {A B} (f : A -> option B) (pre post : list A) (x : A) :
  f x = None -> omap f (pre ++ x :: post) = omap f (pre ++ post).
Proof.
  intros Hx. rewrite !omap_app. simpl. by rewrite Hx.
Qed.

(** C7. When the lookup of one segment fails, [processQuery] still
    returns normally; the failed segment alone is missing from the
    entries, and every sibling that resolves has its entry with its
    batch sub-request. *)
Theorem C7_failed_segment_dropped (res : string -> option string)
    (dq : DataQuery) (q : Query) (uid : string) (pre post : list string)
    (seg : string) :
  decodeQuery dq = Some q ->
  Str.mem ";" (pi_Target (q_Pi q)) = true ->
  let base := Str.before ";" (pi_Target (q_Pi q)) in
  let sep := if pi_IsPiPoint (q_Pi q) then "\" else "|" in
  Str.Split (Str.after ";" (pi_Target (q_Pi q))) ";" = pre ++ seg :: post ->
  (forall s w, s ∈ pre ++ seg :: post ->
     fst (getWebID (base +:+ sep +:+ s) (pi_IsPiPoint (q_Pi q)) w) = res s) ->
  res seg = None ->
  forall d,
    exists out d',
      processQuery dq uid d = (Ok out, d')
      /\ map Label out = filter (fun s => is_Some (res s)) (pre ++ post)
      /\ forall s, s ∈ pre ++ post -> is_Some (res s) ->
           exists p, p ∈ out /\ Label p = s
             /\ FullTargetPath p = base +:+ sep +:+ s
             /\ res s = Some (WebID p)
             /\ Method (BatchRequest p) = "GET"
             /\ Resource (BatchRequest p)
                = settingsURL +:+ getQueryBaseURL q +:+ "&webid=" +:+ WebID p.
Proof.
  intros Hdec Hsep base sep Hsplit Hres Hseg d.
  rewrite (processQuery_with_separator _ q), Hsplit by done.
  destruct (processTargets_resolved res q uid base (pre ++ seg :: post)
              (getBasePath_ok _ Hsep) Hres [] d) as (d' & Hrun).
  rewrite omap_skip in Hrun by (by rewrite Hseg).
  eexists _, d'. split_and!; [exact Hrun| |].
  - simpl. generalize (pre ++ post). intros l.
    induction l as [|s l IH]; [done|].
    rewrite filter_cons. cbn [omap list_omap].
    case_decide as Hs.
    + destruct Hs as [webid ->]. simpl. by rewrite IH.
    + destruct (res s) as [webid|]; [by destruct Hs|]. exact IH.
  - intros s Hs [webid Hweb]. 
    exists (mkEntry q uid s (base +:+ sep +:+ s) webid).
    split_and!; try done.
    simpl. apply list_elem_of_omap. exists s. by rewrite Hweb.
Qed.

(** C9. Target expansion is total exactly on targets with a [;]: there
    the index of the first [;] is within the string, [getBasePath] and
    [getTargets] slice within bounds and [processQuery] returns; on a
    target without [;] the slice in [getBasePath] is out of range and
    [processQuery] panics. *)
Theorem C9_target_expansion_domain (dq : DataQuery) (q : Query) (uid : string) :
  decodeQuery dq = Some q ->
  (Str.mem ";" (pi_Target (q_Pi q)) = true ->
     0 <= Str.Index (pi_Target (q_Pi q)) ";" < Str.len (pi_Target (q_Pi q))
     /\ is_Ok (getBasePath (q_Pi q)) = true
     /\ is_Ok (getTargets (q_Pi q)) = true
     /\ forall d, is_Ok (fst (processQuery dq uid d)) = true)
  /\ (Str.mem ";" (pi_Target (q_Pi q)) = false ->
        Str.Index (pi_Target (q_Pi q)) ";" = -1
        /\ getBasePath (q_Pi q) = Panic "slice bounds out of range"
        /\ forall d, fst (processQuery dq uid d) = Panic "slice bounds out of range").
Proof.
  intros Hdec. split; intros Hsep.
  - split; [exact (proj1 (Index_present ";" _ Hsep))|]. split_and!.
    + by rewrite getBasePath_ok.
    + by rewrite getTargets_ok.
    + intros d. rewrite (processQuery_with_separator _ q) by done.
      edestruct (processTargets_invariant (fun _ => True) q uid)
        as (out & d' & -> & _); [by apply getBasePath_ok|done|done|done].
  - split_and!.
    + by apply Index_absent.
    + by apply getBasePath_panic.
    + intros d. by rewrite (processQuery_without_separator _ q).
Qed.

(** *** Streamable entries and the channel registry *)

Lemma isStreamable_expression (q : Query) :
  pi_Expression (q_Pi q) <> "" -> isStreamable q = false.
Proof.
  intros H. unfold isStreamable. by rewrite (isExpression_true _ H).
Qed.

Lemma set_responses_streamable (tempresponse : gmap Z PIBatchResponse)
    (processed : list PiProcessedQuery) :
  Forall (fun p => Streamable p = false) processed ->
  Forall (fun p => Streamable p = false) (set_responses tempresponse processed).
Proof.
  intros H. apply Forall_forall. intros p Hp.
  apply elem_of_lookup_imap_1 in Hp as (i & p' & -> & Hi).
  simpl. rewrite Forall_forall in H. apply H.
  by eapply list_elem_of_lookup_2.
Qed.

(** What holds of every list in a map holds of the entries a loop
    visits, and every entry of the map is visited. *)
Lemma range_order_entries (P : PiProcessedQuery -> Prop)
    (m : gmap string (list PiProcessedQuery)) (w : World) :
  map_Forall (fun _ l => Forall P l) m ->
  Forall (fun e => Forall P (snd e)) (fst (range_order m w)).
Proof.
  intros Hm. rewrite range_order_perm.
  apply map_Forall_to_list in Hm.
  eapply Forall_impl; [exact Hm|]. by intros [k l].
Qed.

Lemma range_order_elem (m : gmap string (list PiProcessedQuery)) (w : World)
    (k : string) (l : list PiProcessedQuery) :
  (k, l) ∈ fst (range_order m w) <-> m !! k = Some l.
Proof. rewrite range_order_perm. apply elem_of_map_to_list. Qed.

(** [batchRequest] never touches the registry nor the streamable flags. *)
Lemma batchRequest_loop_streamable (entries : list (string * list PiProcessedQuery)) :
  Forall (fun e => Forall (fun p => Streamable p = false) (snd e)) entries ->
  forall m d,
    map_Forall (fun _ l => Forall (fun p => Streamable p = false) l) m ->
    channelConstruct (snd (batchRequest_loop entries m d)) = channelConstruct d
    /\ forall m', fst (batchRequest_loop entries m d) = Ok m' ->
         map_Forall (fun _ l => Forall (fun p => Streamable p = false) l) m'.
Proof.
  induction entries as [|[RefID processed] entries IH]; intros Hall m d Hm.
  - split; [done|]. simpl. by intros m' [= <-].
  - apply Forall_cons in Hall as [Hhead Hall]. simpl in Hhead.
    loop_step. unfold bind, call, lift.
    destruct (apiBatchRequest (build_batch processed) (world d)) as [[body|] w].
    + destruct (decode_tempresponse body) as [[tempresponse|]|msg].
      * edestruct (IH Hall) as [Hreg Hok]; [|split; [by rewrite Hreg|exact Hok]].
        apply map_Forall_insert_2; [|done].
        by apply set_responses_streamable.
      * destruct (IH Hall m (mkDatasource w (channelConstruct d)) Hm) as [Hreg Hok].
        split; [by rewrite Hreg|exact Hok].
      * split; [done|]. by intros m'.
    + destruct (IH Hall m (mkDatasource w (channelConstruct d)) Hm) as [Hreg Hok].
      split; [by rewrite Hreg|exact Hok].
Qed.

Lemma batchRequest_streamable (m : gmap string (list PiProcessedQuery))
    (d : Datasource World) :
  map_Forall (fun _ l => Forall (fun p => Streamable p = false) l) m ->
  channelConstruct (snd (batchRequest m d)) = channelConstruct d
  /\ forall m', fst (batchRequest m d) = Ok m' ->
       map_Forall (fun _ l => Forall (fun p => Streamable p = false) l) m'.
Proof.
  intros Hm. unfold_batchRequest. unfold bind, call.
  pose proof (range_order_entries _ m (world d) Hm) as Hentries.
  destruct (range_order m (world d)) as [entries w]. simpl in Hentries.
  exact (batchRequest_loop_streamable entries Hentries m
           (mkDatasource w (channelConstruct d)) Hm).
Qed.

(** Frames of entries that are not streamable are assembled without
    writing the registry. *)
Lemma frames_loop_not_streamable (RefID : string) (query : list PiProcessedQuery) :
  Forall (fun p => Streamable p = false) query ->
  forall frames d,
    channelConstruct (snd (frames_loop RefID query frames d)) = channelConstruct d.
Proof.
  induction query as [|q query IH]; intros Hall frames d; [done|].
  apply Forall_cons in Hall as [Hq Hall].
  loop_step. unfold bind, read, lift.
  destruct (response_items q) as [items|msg]; [|done].
  destruct (convertItemsToDataFrame _ _ _ _ _) as [frame [err|]].
  - by apply IH.
  - rewrite Hq. by apply IH.
Qed.

Lemma responses_loop_not_streamable (entries : list (string * list PiProcessedQuery)) :
  Forall (fun e => Forall (fun p => Streamable p = false) (snd e)) entries ->
  forall response d,
    channelConstruct (snd (responses_loop entries response d)) = channelConstruct d.
Proof.
  induction entries as [|[RefID query] entries IH]; intros Hall response d; [done|].
  apply Forall_cons in Hall as [Hhead Hall]. simpl in Hhead.
  loop_step. unfold bind.
  pose proof (frames_loop_not_streamable RefID query Hhead [] d) as Hreg.
  destruct (frames_loop RefID query [] d) as [[frames|msg] d1]; simpl in Hreg; [|done].
  by rewrite IH.
Qed.

Lemma processQueries_expressions (queries : list DataQuery) (uid : string) :
  Forall (fun dq => forall q, decodeQuery dq = Some q -> pi_Expression (q_Pi q) <> "")
    queries ->
  forall m d,
    map_Forall (fun _ l => Forall (fun p => Streamable p = false) l) m ->
    channelConstruct (snd (processQueries queries uid m d)) = channelConstruct d
    /\ forall m', fst (processQueries queries uid m d) = Ok m' ->
         map_Forall (fun _ l => Forall (fun p => Streamable p = false) l) m'.
Proof.
  induction queries as [|dq queries IH]; intros Hall m d Hm.
  - split; [done|]. simpl. by intros m' [= <-].
  - apply Forall_cons in Hall as [Hdq Hall].
    loop_step. unfold bind.
    pose proof (processQuery_keeps_registry dq uid d) as Hreg.
    destruct (processQuery dq uid d) as [[r|msg] d1] eqn:Hrun; simpl in Hreg.
    + edestruct (IH Hall) as [Hreg' Hok]; [|split; [by rewrite Hreg', Hreg|exact Hok]].
      apply map_Forall_insert_2; [|done].
      destruct (decodeQuery dq) as [q|] eqn:Hdec.
      * eapply Forall_impl; [exact (processQuery_entries _ _ _ _ _ _ Hdec Hrun)|].
        intros p [-> _]. by apply isStreamable_expression, Hdq.
      * rewrite processQuery_undecodable in Hrun by done. by injection Hrun as <- _.
    + split; [done|]. by intros m'.
Qed.

Local Abbreviation batch_fails := (batch_fails World apiBatchRequest).

(** C10. A query with a non-empty expression is never streamable,
    whatever its streaming flag; every entry [processQuery] derives
    from it has [Streamable = false]; assembling the frames of these
    entries, before or after the batch responses are attached, leaves
    the channel registry untouched; and a request made of expression
    queries only goes through [QueryData] without a channel being
    registered. *)
Theorem C10_expression_never_streams :
  (forall q, pi_Expression (q_Pi q) <> "" -> isStreamable q = false)
  /\ (forall dq q uid d out d',
        decodeQuery dq = Some q -> pi_Expression (q_Pi q) <> "" ->
        processQuery dq uid d = (Ok out, d') ->
        Forall (fun p => Streamable p = false) out
        /\ forall tempresponse RefID frames d2,
             channelConstruct (snd (frames_loop RefID out frames d2))
             = channelConstruct d2
             /\ channelConstruct
                  (snd (frames_loop RefID (set_responses tempresponse out) frames d2))
                = channelConstruct d2)
  /\ (forall queries uid d,
        Forall (fun dq => forall q, decodeQuery dq = Some q ->
                            pi_Expression (q_Pi q) <> "") queries ->
        channelConstruct (snd (QueryData queries uid d)) = channelConstruct d).
Proof.
  split_and!.
  - apply isStreamable_expression.
  - intros dq q uid d out d' Hdec Hexpr Hrun.
    assert (Hout : Forall (fun p => Streamable p = false) out).
    { eapply Forall_impl; [exact (processQuery_entries _ _ _ _ _ _ Hdec Hrun)|].
      intros p [-> _]. by apply isStreamable_expression. }
    split; [exact Hout|]. intros tempresponse RefID frames d2. split.
    + by apply frames_loop_not_streamable.
    + by apply frames_loop_not_streamable, set_responses_streamable.
  - intros queries uid d Hall. unfold_QueryData. unfold bind.
    destruct (processQueries_expressions queries uid Hall ∅ d) as [Hreg1 Hok1];
      [apply map_Forall_empty|].
    destruct (processQueries queries uid ∅ d) as [[m|msg] d1]; simpl in *; [|done].
    destruct (batchRequest_streamable m d1 (Hok1 m eq_refl)) as [Hreg2 Hok2].
    destruct (batchRequest m d1) as [[m'|msg] d2]; simpl in *; [|congruence].
    unfold_processBatchtoFrames. unfold bind, call.
    pose proof (range_order_entries _ m' (world d2) (Hok2 m' eq_refl)) as Hentries.
    destruct (range_order m' (world d2)) as [entries w]. simpl in Hentries.
    pose proof (responses_loop_not_streamable entries Hentries ∅
                  (mkDatasource w (channelConstruct d2))) as Hreg3.
    destruct (responses_loop entries ∅ _) as [[response|msg] d3];
      simpl in *; congruence.
Qed.

(** *** Entries without a response *)

(** Assembling the frame of an entry whose response is the nil
    interface panics. *)
Lemma frames_loop_nil_response (RefID : string) (query : list PiProcessedQuery) :
  (exists p, p ∈ query /\ Response p = None) ->
  forall frames d, exists msg d', frames_loop RefID query frames d = (Panic msg, d').
Proof.
  induction query as [|q query IH]; intros (p & Hp & Hnil) frames d.
  - by apply elem_of_nil in Hp.
  - loop_step. unfold bind, read, lift, call, register.
    destruct (response_items q) as [items|msg] eqn:Hitems; [|by eexists _, _].
    assert (Hrest : exists p, p ∈ query /\ Response p = None).
    { apply elem_of_cons in Hp as [->|Hp]; [|by exists p].
      unfold response_items in Hitems. by rewrite Hnil in Hitems. }
    destruct (convertItemsToDataFrame _ _ _ _ _) as [frame [err|]].
    + by apply IH.
    + destruct (Streamable q); [|by apply IH].
      destruct (uuid_New (world d)) as [channeluuid w]. by apply IH.
Qed.

Lemma responses_loop_nil_response (entries : list (string * list PiProcessedQuery)) :
  (exists RefID query p, (RefID, query) ∈ entries /\ p ∈ query /\ Response p = None) ->
  forall response d, exists msg d', responses_loop entries response d = (Panic msg, d').
Proof.
  induction entries as [|[RefID query] entries IH];
    intros (RefID' & query' & p & He & Hp & Hnil) response d.
  - by apply elem_of_nil in He.
  - loop_step. unfold bind.
    destruct (frames_loop RefID query [] d) as [[frames|msg] d1] eqn:Hframes;
      [|by eexists _, _].
    apply IH. apply elem_of_cons in He as [[= -> ->]|He]; [|by exists RefID', query', p].
    destruct (frames_loop_nil_response RefID query (ex_intro _ p (conj Hp Hnil)) [] d)
      as (msg & d' & Hpanic).
    by rewrite Hpanic in Hframes.
Qed.

Lemma processBatchtoFrames_nil_response (m : gmap string (list PiProcessedQuery))
    (RefID : string) (query : list PiProcessedQuery) (p : PiProcessedQuery) :
  m !! RefID = Some query -> p ∈ query -> Response p = None ->
  forall d, exists msg d', processBatchtoFrames m d = (Panic msg, d').
Proof.
  intros Hm Hp Hnil d. unfold_processBatchtoFrames. unfold bind, call.
  pose proof (proj2 (range_order_elem m (world d) RefID query) Hm) as He.
  destruct (range_order m (world d)) as [entries w]. simpl in He.
  apply responses_loop_nil_response. by exists RefID, query, p.
Qed.

(** A RefID whose batch call fails keeps its entries as they were. *)
Lemma batchRequest_loop_failed (RefID : string)
    (entries : list (string * list PiProcessedQuery)) :
  (forall processed w, (RefID, processed) ∈ entries -> batch_fails processed w) ->
  forall m d m' d',
    batchRequest_loop entries m d = (Ok m', d') -> m' !! RefID = m !! RefID.
Proof.
  induction entries as [|[k processed] entries IH]; intros Hfail m d m' d' Hrun.
  - by injection Hrun as <- _.
  - assert (Htail : forall processed w,
              (RefID, processed) ∈ entries -> batch_fails processed w).
    { intros processed' w He. apply Hfail. by constructor 2. }
    loop_step_in Hrun. unfold bind, call, lift in Hrun.
    destruct (apiBatchRequest (build_batch processed) (world d)) as [[body|] w] eqn:Hcall;
      [|by apply (IH Htail) in Hrun].
    destruct (decode_tempresponse body) as [[tempresponse|]|msg] eqn:Hdecode;
      [|by apply (IH Htail) in Hrun|done].
    apply (IH Htail) in Hrun. rewrite Hrun.
    destruct (decide (k = RefID)) as [->|Hne]; [|by rewrite lookup_insert_ne].
    specialize (Hfail processed (world d) ltac:(by constructor 1)).
    unfold_batch_fails_in Hfail. rewrite Hcall in Hfail. simpl in Hfail.
    congruence.
Qed.

Lemma processQueries_no_response (queries : list DataQuery) (uid : string) :
  forall m d m' d',
    map_Forall (fun _ l => Forall (fun p => Response p = None) l) m ->
    processQueries queries uid m d = (Ok m', d') ->
    map_Forall (fun _ l => Forall (fun p => Response p = None) l) m'.
Proof.
  induction queries as [|dq queries IH]; intros m d m' d' Hm Hrun.
  - by injection Hrun as <- _.
  - loop_step_in Hrun. unfold bind in Hrun.
    destruct (processQuery dq uid d) as [[r|msg] d1] eqn:Hq; [|done].
    eapply IH; [|exact Hrun]. apply map_Forall_insert_2; [|done].
    destruct (decodeQuery dq) as [q|] eqn:Hdec.
    + eapply Forall_impl; [exact (processQuery_entries _ _ _ _ _ _ Hdec Hq)|].
      by intros p [_ ->].
    + rewrite processQuery_undecodable in Hq by done. by injection Hq as <- _.
Qed.

(** Whenever the batch call of a RefID that has at least one processed
    query fails, [QueryData] panics instead of returning frames. *)
Lemma QueryData_faults_on_failed_batch (queries : list DataQuery) (uid RefID : string)
    (d d1 : Datasource World) (m : gmap string (list PiProcessedQuery))
    (p : PiProcessedQuery) (l : list PiProcessedQuery) :
  processQueries queries uid ∅ d = (Ok m, d1) ->
  m !! RefID = Some (p :: l) ->
  (forall w, batch_fails (p :: l) w) ->
  exists msg d', QueryData queries uid d = (Panic msg, d').
Proof.
  intros Hrun Hm Hfail. unfold_QueryData. unfold bind. rewrite Hrun.
  destruct (batchRequest m d1) as [[m'|msg] d2] eqn:Hbatch; [|by eexists _, _].
  assert (Hnil : Response p = None).
  { pose proof (processQueries_no_response queries uid ∅ d m d1
                  (map_Forall_empty _) Hrun) as Hall.
    apply (map_Forall_lookup_1 _ _ _ _ Hall) in Hm as Hl.
    by apply Forall_cons in Hl as [Hp _]. }
  assert (Hkeep : m' !! RefID = Some (p :: l)).
  { rewrite <- Hm. revert Hbatch. unfold_batchRequest. unfold bind, call.
    pose proof (range_order_elem m (world d1) RefID) as He.
    destruct (range_order m (world d1)) as [entries w]. simpl in He.
    apply (batchRequest_loop_failed RefID).
    intros processed w' Hin. apply He in Hin.
    rewrite Hm in Hin. injection Hin as <-. apply Hfail. }
  destruct (processBatchtoFrames_nil_response m' RefID (p :: l) p Hkeep
              ltac:(by constructor 1) Hnil d2) as (msg & d' & Hpanic).
  rewrite Hpanic. by eexists _, _.
Qed.

(** *** The loop over the targets, piece by piece *)

Lemma processTargets_app (q : Query) (uid : string) (pre post : list string) :
  forall resp d,
    processTargets q uid (pre ++ post) resp d
    = match processTargets q uid pre resp d with
      | (Ok r, d') => processTargets q uid post r d'
      | (Panic msg, d') => (Panic msg, d')
      end.
Proof.
  induction pre as [|t pre IH]; intros resp d; [done|].
  rewrite <- app_comm_cons. loop_step. unfold bind, lift, call.
  destruct (getBasePath (q_Pi q)) as [base|msg]; [|done].
  destruct (getWebID _ _ (world d)) as [[webid|] w]; apply IH.
Qed.

(** A failed lookup in the middle of the loop adds nothing, and the
    loop goes on with the targets after it, from the world the failed
    lookup left. *)
Lemma processTargets_skip_failed (q : Query) (uid base seg : string)
    (pre post : list string) (resp r : list PiProcessedQuery)
    (d d1 : Datasource World) :
  getBasePath (q_Pi q) = Ok base ->
  processTargets q uid pre resp d = (Ok r, d1) ->
  fst (getWebID (full_path q base seg) (pi_IsPiPoint (q_Pi q)) (world d1)) = None ->
  processTargets q uid (pre ++ seg :: post) resp d
  = processTargets q uid post r
      (mkDatasource
         (snd (getWebID (full_path q base seg) (pi_IsPiPoint (q_Pi q)) (world d1)))
         (channelConstruct d1)).
Proof.
  intros Hbase Hpre Hfail.
  rewrite processTargets_app, Hpre.
  by rewrite (processTargets_step _ _ _ _ _ _ _ Hbase), Hfail.
Qed.
End PipelineFacts.

(** ** The properties on the concrete world *)

Lemma C5_target_expansion_witness :
  exists out d',
    Demo.processQuery [] Demo.q_attr "uid" (Demo.ds Demo.w_send_error) = (Ok out, d')
    /\ map FullTargetPath out = ["Base|Seg1"; "Base|Seg2"].
Proof.
  assert (H1 : Some Demo.q_attr = Some Demo.q_attr) by reflexivity.
  assert (H2 : Str.mem ";" (pi_Target (q_Pi Demo.q_attr)) = true) by reflexivity.
  assert (H3 : forall (s : string) (w : Demo.World),
            s ∈ Str.Split (Str.after ";" (pi_Target (q_Pi Demo.q_attr))) ";" ->
            is_Some (fst (Demo.getWebID []
                            (Str.before ";" (pi_Target (q_Pi Demo.q_attr))
                               +:+ "|" +:+ s) false w))).
  { intros s w _. by eexists. }
  destruct (C5_target_expansion Some Demo.url (Demo.getWebID []) Demo.q_attr
              Demo.q_attr "uid" H1 H2 H3 (Demo.ds Demo.w_send_error))
    as (out & d' & Hrun & _ & _ & Hpath).
  exists out, d'. split; [exact Hrun|exact Hpath].
Defined.

Lemma C7_failed_segment_dropped_witness :
  exists out d',
    Demo.processQuery ["Base|Seg1"] Demo.q_attr "uid" (Demo.ds Demo.w_send_error)
    = (Ok out, d')
    /\ map Label out = ["Seg2"].
Proof.
  pose (res := fun s : string =>
                 if bool_decide (("Base|" +:+ s) ∈ ["Base|Seg1"]) then None
                 else Some ("W:Base|" +:+ s)).
  assert (H1 : Some Demo.q_attr = Some Demo.q_attr) by reflexivity.
  assert (H2 : Str.mem ";" (pi_Target (q_Pi Demo.q_attr)) = true) by reflexivity.
  assert (H3 : Str.Split (Str.after ";" (pi_Target (q_Pi Demo.q_attr))) ";"
               = [] ++ "Seg1" :: ["Seg2"]) by reflexivity.
  assert (H4 : forall (s : string) (w : Demo.World),
            s ∈ [] ++ "Seg1" :: ["Seg2"] ->
            fst (Demo.getWebID ["Base|Seg1"]
                   (Str.before ";" (pi_Target (q_Pi Demo.q_attr)) +:+ "|" +:+ s)
                   false w) = res s).
  { intros s w _. unfold Demo.getWebID, res.
    change (Str.before ";" (pi_Target (q_Pi Demo.q_attr))) with "Base".
    change ("Base" +:+ "|" +:+ s) with ("Base|" +:+ s).
    by case_bool_decide. }
  assert (H5 : res "Seg1" = None) by reflexivity.
  destruct (C7_failed_segment_dropped Some Demo.url (Demo.getWebID ["Base|Seg1"]) res
              Demo.q_attr Demo.q_attr "uid" [] ["Seg2"] "Seg1" H1 H2 H3 H4 H5
              (Demo.ds Demo.w_send_error))
    as (out & d' & Hrun & Hlabel & _).
  exists out, d'. split; [exact Hrun|exact Hlabel].
Defined.

Lemma C9_target_expansion_domain_witness :
  (forall d, is_Ok (fst (Demo.processQuery [] Demo.q_attr "uid" d)) = true)
  /\ (forall d, fst (Demo.processQuery [] Demo.q_flat_target "uid" d)
                = Panic "slice bounds out of range").
Proof.
  split.
  - assert (H1 : Some Demo.q_attr = Some Demo.q_attr) by reflexivity.
    assert (H2 : Str.mem ";" (pi_Target (q_Pi Demo.q_attr)) = true) by reflexivity.
    exact (proj2 (proj2 (proj2
             (proj1 (C9_target_expansion_domain Some Demo.url (Demo.getWebID [])
                       Demo.q_attr Demo.q_attr "uid" H1) H2)))).
  - assert (H1 : Some Demo.q_flat_target = Some Demo.q_flat_target) by reflexivity.
    assert (H2 : Str.mem ";" (pi_Target (q_Pi Demo.q_flat_target)) = false)
      by reflexivity.
    exact (proj2 (proj2
             (proj2 (C9_target_expansion_domain Some Demo.url (Demo.getWebID [])
                       Demo.q_flat_target Demo.q_flat_target "uid" H1) H2))).
Defined.

Lemma C10_expression_never_streams_witness :
  pi_EnableStreaming (q_Pi Demo.q_calc) = true
  /\ isStreamable Demo.q_calc = false
  /\ forall d,
       channelConstruct (snd (Demo.QueryData [] [Demo.q_calc] "uid" d))
       = channelConstruct d.
Proof.
  assert (H1 : pi_Expression (q_Pi Demo.q_calc) <> "") by discriminate.
  destruct (C10_expression_never_streams (DataQuery := Query) q_RefID Some Demo.url
              (Demo.getWebID []) Demo.apiBatchRequest (fun _ _ => tt)
              (fun _ _ => false) Demo.convertItemsToDataFrame Demo.uuid_New
              Demo.range_order (fun m w => reflexivity _))
    as (Hq & _ & Hall).
  split_and!; [reflexivity|exact (Hq Demo.q_calc H1)|].
  intros d. apply Hall. apply Forall_cons. split; [|apply Forall_nil_2].
  intros q [= <-]. exact H1.
Defined.

(** C1 (fails on the code). A request with the one query
    [Base;Seg1;Seg2] whose batch call is not sent, or is answered with
    bytes that do not decode, leaves the entries without response
    content, and [QueryData] then panics on the nil response instead of
    returning frames for them. *)
Theorem C1_failed_batch_panics :
  Demo.QueryData [] [Demo.q_attr] "uid" (Demo.ds Demo.w_send_error)
  = (Panic "invalid memory address or nil pointer dereference",
     Demo.ds Demo.w_send_error)
  /\ Demo.QueryData [] [Demo.q_attr] "uid" (Demo.ds Demo.w_not_json)
     = (Panic "invalid memory address or nil pointer dereference",
        Demo.ds Demo.w_not_json).
Proof. split; vm_compute; reflexivity. Qed.

(** * Further properties of the code *)

(** ** Target expansion: splitting and joining *)

Module SplitFacts.
Import Str StrFacts.

Lemma count_byte_app (c : ascii) (s t : string) :
  count_byte c (s +:+ t) = (count_byte c s + count_byte c t)%nat.
Proof.
  induction s as [|a s IH]; [done|].
  rewrite app_cons. simpl. rewrite IH. lia.
Qed.

Lemma count_byte_absent (c : ascii) (s : string) :
  mem c s = false <-> count_byte c s = O.
Proof.
  induction s as [|a s IH]; [done|]. simpl.
  destruct (decide (a = c)); [split; [done|lia]|]. by rewrite IH.
Qed.

Lemma split_go_length (c : ascii) (s : string) (cur : list ascii) :
  length (split_go c cur s) = S (count_byte c s).
Proof.
  revert cur. induction s as [|a s IH]; intros cur; [done|]. simpl.
  destruct (decide (a = c)); simpl; by rewrite IH.
Qed.

(** [strings.Split] yields one piece more than there are separators. *)
Lemma Split_length (c : ascii) (s : string) :
  length (Split s c) = S (count_byte c s).
Proof. apply split_go_length. Qed.

Lemma split_go_pieces (c : ascii) (s : string) (cur : list ascii) :
  Forall (fun piece => mem c piece = false) (tail (split_go c cur s))
  /\ (mem c (of_list (rev cur)) = false ->
      Forall (fun piece => mem c piece = false) (split_go c cur s)).
Proof.
  revert cur. induction s as [|a s IH]; intros cur; simpl.
  - split; [done|]. intros H. by apply Forall_singleton.
  - destruct (decide (a = c)) as [->|Hne]; simpl.
    + destruct (IH []) as [_ Hall]. specialize (Hall eq_refl).
      split; [done|]. intros H. by apply Forall_cons.
    + destruct (IH (a :: cur)) as [Htail Hall]. split; [done|].
      intros H. apply Hall. simpl. rewrite of_list_app, mem_app, H. simpl.
      by rewrite decide_False.
Qed.

(** No piece of a split contains the separator. *)
Lemma Split_pieces (c : ascii) (s : string) :
  Forall (fun piece => mem c piece = false) (Split s c).
Proof. by apply split_go_pieces. Qed.

Lemma Join_cons (s : string) (l : list string) (sep : string) :
  l <> [] -> Join (s :: l) sep = s +:+ sep +:+ Join l sep.
Proof. by destruct l. Qed.

Lemma split_go_join (c : ascii) (s : string) (cur : list ascii) :
  Join (split_go c cur s) (String c "") = of_list (rev cur) +:+ s.
Proof.
  revert cur. induction s as [|a s IH]; intros cur; simpl.
  - by rewrite app_nil_r.
  - destruct (decide (a = c)) as [->|Hne].
    + rewrite Join_cons by apply (Split_nonempty c s).
      by rewrite IH.
    + rewrite IH. simpl. rewrite of_list_app. simpl. by rewrite app_assoc.
Qed.

(** Joining the pieces of a split gives the text back. *)
Lemma Join_Split (c : ascii) (s : string) : Join (Split s c) (String c "") = s.
Proof. unfold Split. by rewrite split_go_join. Qed.

End SplitFacts.

Import SplitFacts.

(** X1. For a target with a [;], the base path and the targets put the
    target back together: base, [;], and the targets joined by [;] are
    the target; neither the base nor a target holds a [;], and there
    are as many targets as the target has [;]. *)
Theorem target_round_trip (p : PIWebAPIQuery) :
  Str.mem ";" (pi_Target p) = true ->
  exists base targets,
    getBasePath p = Ok base /\ getTargets p = Ok targets
    /\ base +:+ ";" +:+ Join targets ";" = pi_Target p
    /\ Str.mem ";" base = false
    /\ Forall (fun t => Str.mem ";" t = false) targets
    /\ length targets = count_byte ";" (pi_Target p).
Proof.
  intros Hsep.
  exists (before ";" (pi_Target p)), (Split (after ";" (pi_Target p)) ";").
  split_and!.
  - by apply getBasePath_ok.
  - by apply getTargets_ok.
  - rewrite (Join_Split ";"). symmetry. by apply (before_sep_after ";").
  - apply mem_before.
  - apply Split_pieces.
  - rewrite Split_length.
    rewrite (before_sep_after ";" (pi_Target p) Hsep) at 2.
    rewrite count_byte_app. simpl.
    pose proof (proj1 (count_byte_absent ";" _) (mem_before ";" (pi_Target p))) as ->.
    done.
Qed.

Lemma target_round_trip_witness :
  exists base targets,
    getBasePath (q_Pi Demo.q_attr) = Ok base
    /\ getTargets (q_Pi Demo.q_attr) = Ok targets
    /\ base +:+ ";" +:+ Join targets ";" = "Base;Seg1;Seg2"
    /\ length targets = 2%nat.
Proof.
  assert (H : Str.mem ";" (pi_Target (q_Pi Demo.q_attr)) = true) by reflexivity.
  destruct (target_round_trip (q_Pi Demo.q_attr) H)
    as (base & targets & H1 & H2 & H3 & _ & _ & H4).
  exists base, targets. split_and!; [exact H1|exact H2|exact H3|exact H4].
Defined.

(** ** The URI builder: every shape, and reading the parameters back *)

Lemma Split_join_pieces (params : list (string * string)) :
  Forall param_ok params -> params <> [] ->
  Split (join_params params) "&"
  = map (fun nv => fst nv +:+ "=" +:+ snd nv) params.
Proof.
  induction params as [|[name value] rest IH]; [done|].
  intros Hall _. apply Forall_cons in Hall as [(Hn1 & Hn2 & Hv) Hrest].
  simpl in Hn1, Hn2, Hv. cbn [join_params map fst snd].
  destruct rest as [|nv rest'].
  - rewrite app_nil_r, Split_no_sep; [done|].
    by rewrite !mem_app, Hn2, Hv.
  - replace (name +:+ "=" +:+ value +:+ "&" +:+ join_params (nv :: rest'))
      with ((name +:+ "=" +:+ value) +:+ String "&" (join_params (nv :: rest')))
      by (rewrite !app_assoc; reflexivity).
    rewrite Split_app_sep by (by rewrite !mem_app, Hn2, Hv).
    by rewrite IH.
Qed.

(** Writing parameters into a query string and reading them back. *)
Lemma uri_params_join (path : string) (params : list (string * string)) :
  mem "?" path = false -> Forall param_ok params -> params <> [] ->
  uri_params (path +:+ "?" +:+ join_params params) = params.
Proof.
  intros Hpath Hall Hne. unfold uri_params.
  change (path +:+ "?" +:+ join_params params)
    with (path +:+ String "?" (join_params params)).
  rewrite (after_app_sep "?" path (join_params params) Hpath).
  rewrite Split_join_pieces by done. rewrite map_map.
  clear Hne. induction Hall as [|[name value] rest (Hn & _ & _) _ IH]; [done|].
  simpl in *. rewrite IH. f_equal. f_equal.
  - apply (before_app_sep "=" name value Hn).
  - apply (after_app_sep "=" name value Hn).
Qed.

Lemma uri_time_range_first (path t1 t2 rest : string) :
  mem "?" path = false -> mem "&" t1 = false -> mem "&" t2 = false ->
  let uri := path +:+ "?startTime=" +:+ t1 +:+ "&endTime=" +:+ t2 +:+ "&" +:+ rest in
  uri_path uri = path
  /\ uri_param_names uri
     = "startTime" :: "endTime" :: map (before "=") (Split rest "&").
Proof.
  intros Hpath H1 H2 uri.
  assert (Huri : uri = path +:+ String "?"
            (("startTime=" +:+ t1) +:+ String "&"
               (("endTime=" +:+ t2) +:+ String "&" rest))).
  { unfold uri. app_eq. }
  split.
  - rewrite Huri. apply (before_app_sep "?" path _ Hpath).
  - unfold uri_param_names. rewrite Huri.
    rewrite (after_app_sep "?" path _ Hpath).
    rewrite !Split_app_sep by (by rewrite mem_app, ?H1, ?H2).
    simpl. done.
Qed.

(** One shape of the URI: the path and what follows the time range. *)
Ltac shape_case Hshape path rest :=
  let H1 := fresh in
  let H2 := fresh in
  let H3 := fresh in
  exists path, rest;
  destruct (Hshape path rest) as (H1 & H2 & H3);
  [ reflexivity
  | unfold getQueryBaseURL;
    repeat match goal with
           | H : ?b = _ |- context [if ?b then _ else _] => rewrite H
           end;
    cbv zeta iota; app_eq
  | split_and!; [solve_elem | exact H1 | exact H2 | reflexivity | exact H3] ].

(** X2. Whatever the query, the built URI has one of six paths, under
    [/calculation] exactly when the query has an expression, and its
    query string starts with the time range: [startTime], then
    [endTime], then at least one more parameter. *)
Theorem uri_shape (q : Query) :
  exists path rest,
    path ∈ query_paths
    /\ getQueryBaseURL q = path +:+ getTimeRangeURIComponent q +:+ "&" +:+ rest
    /\ uri_path (getQueryBaseURL q) = path
    /\ Str.has_prefix "/calculation" path = isExpression (q_Pi q)
    /\ uri_param_names (getQueryBaseURL q)
       = "startTime" :: "endTime" :: map (Str.before "=") (Str.Split rest "&").
Proof.
  assert (Hshape : forall path rest,
            mem "?" path = false ->
            getQueryBaseURL q = path +:+ getTimeRangeURIComponent q +:+ "&" +:+ rest ->
            getQueryBaseURL q = path +:+ getTimeRangeURIComponent q +:+ "&" +:+ rest
            /\ uri_path (getQueryBaseURL q) = path
            /\ uri_param_names (getQueryBaseURL q)
               = "startTime" :: "endTime" :: map (before "=") (Split rest "&")).
  { intros path rest Hpath Huri. split; [done|].
    destruct (uri_time_range_first path (formatRFC3339 (q_From q))
                (formatRFC3339 (q_To q)) rest Hpath (no_amp_time _) (no_amp_time _))
      as [H1 H2].
    assert (Heq : getQueryBaseURL q
                  = path +:+ "?startTime=" +:+ formatRFC3339 (q_From q) +:+ "&endTime="
                      +:+ formatRFC3339 (q_To q) +:+ "&" +:+ rest).
    { rewrite Huri. unfold getTimeRangeURIComponent. app_eq. }
    by rewrite Heq. }
  destruct (isExpression (q_Pi q)) eqn:Hexpr;
    destruct (isSummary (q_Pi q)) eqn:Hsum;
    [destruct (isInterpolated (q_Pi q)) eqn:Hint| |
    |destruct (isInterpolated (q_Pi q)) eqn:Hint;
      [|destruct (isRecordedValues (q_Pi q)) eqn:Hrec]].
  - shape_case Hshape "/calculation/summary"
      ("sampleType=Interval&sampleInterval=" +:+ fmt_d (getIntervalTime q) +:+ "ms"
         +:+ "&expression=" +:+ QueryEscape (pi_Expression (q_Pi q))).
  - shape_case Hshape "/calculation/summary"
      ("expression=" +:+ QueryEscape (pi_Expression (q_Pi q))).
  - shape_case Hshape "/calculation/intervals"
      ("sampleInterval=" +:+ fmt_d (getIntervalTime q) +:+ "ms"
         +:+ "&expression=" +:+ QueryEscape (pi_Expression (q_Pi q))).
  - shape_case Hshape "/streamsets/summary"
      ("intervals=" +:+ fmt_d (getMaxDataPoints q)
         +:+ getSummaryURIComponent (q_Pi q)).
  - shape_case Hshape "/streamsets/interpolated"
      ("interval=" +:+ fmt_d (getIntervalTime q)).
  - shape_case Hshape "/streamsets/recorded"
      ("maxCount=" +:+ fmt_d (getMaxDataPoints q)).
  - shape_case Hshape "/streamsets/plot"
      ("intervals=" +:+ fmt_d (getMaxDataPoints q)).
Qed.

Lemma join_params_app (ps1 ps2 : list (string * string)) :
  ps1 <> [] -> ps2 <> [] ->
  join_params (ps1 ++ ps2) = join_params ps1 +:+ "&" +:+ join_params ps2.
Proof.
  intros H1 H2. induction ps1 as [|[n v] ps1 IH]; [done|].
  destruct ps1 as [|nv ps1].
  - destruct ps2 as [|nv2 ps2]; [done|]. cbn [app join_params]. app_eq.
  - change (((n, v) :: nv :: ps1) ++ ps2) with ((n, v) :: ((nv :: ps1) ++ ps2)).
    cbn [join_params]. change ((nv :: ps1) ++ ps2) with (nv :: (ps1 ++ ps2)).
    cbn iota. change (nv :: (ps1 ++ ps2)) with ((nv :: ps1) ++ ps2).
    rewrite IH by done. app_eq.
Qed.

(** The summary fragment is its parameters, each led by an [&]. *)
Lemma summary_fragment_join (p : PIWebAPIQuery) :
  isExpression p = false ->
  getSummaryURIComponent p = "&" +:+ join_params (summary_params p).
Proof.
  intros Hexpr. unfold getSummaryURIComponent, summary_params.
  rewrite Hexpr. cbv zeta. simpl negb. cbv iota.
  rewrite summary_types_fold. rewrite app_nil_l.
  generalize (sum_Basis (pi_Summary p)) (getSummaryDuration p).
  intros basis duration.
  induction (sum_Types (pi_Summary p)) as [|t types IH].
  - simpl. app_eq.
  - cbn [map Str.concat app].
    set (tail := map (fun t0 => ("summaryType", st_Value t0)) types
                   ++ [("summaryBasis", basis); ("summaryDuration", duration)]) in *.
    assert (Htail : tail <> []) by (unfold tail; by destruct types).
    destruct tail as [|nv tail']; [done|].
    cbn [join_params]. cbn [join_params] in IH.
    rewrite !app_assoc. rewrite !app_assoc in IH. rewrite IH. app_eq.
Qed.

(** X3. For a query with an expression, reading the query string of the
    built URI back gives the time range, the sampling parameters of its
    mode and [expression], with the values the query has; the value of
    [expression] decodes to the expression. *)
Theorem calculation_uri_params (q : Query) :
  pi_Expression (q_Pi q) <> "" ->
  let sampleInterval := ("sampleInterval", fmt_d (getIntervalTime q) +:+ "ms") in
  let sampling :=
    if isSummary (q_Pi q) then
      if isInterpolated (q_Pi q) then [("sampleType", "Interval"); sampleInterval]
      else []
    else [sampleInterval] in
  uri_path (getQueryBaseURL q)
  = "/calculation" +:+ (if isSummary (q_Pi q) then "/summary" else "/intervals")
  /\ uri_params (getQueryBaseURL q)
     = [("startTime", formatRFC3339 (q_From q)); ("endTime", formatRFC3339 (q_To q))]
       ++ sampling ++ [("expression", QueryEscape (pi_Expression (q_Pi q)))]
  /\ forall value, ("expression", value) ∈ uri_params (getQueryBaseURL q) ->
       unescape value = pi_Expression (q_Pi q).
Proof.
  intros Hexpr sampleInterval sampling.
  set (params := [("startTime", formatRFC3339 (q_From q));
                  ("endTime", formatRFC3339 (q_To q))]
                 ++ sampling ++ [("expression", QueryEscape (pi_Expression (q_Pi q)))]).
  set (path := "/calculation"
                 +:+ (if isSummary (q_Pi q) then "/summary" else "/intervals")).
  assert (Huri : getQueryBaseURL q = path +:+ "?" +:+ join_params params).
  { unfold getQueryBaseURL, getTimeRangeURIComponent, path, params, sampling,
      sampleInterval.
    rewrite (isExpression_true _ Hexpr).
    destruct (isSummary (q_Pi q)); [destruct (isInterpolated (q_Pi q))|];
      cbv zeta; cbn [app join_params]; app_eq. }
  assert (Hpath : mem "?" path = false).
  { unfold path. by destruct (isSummary (q_Pi q)). }
  assert (Hok : Forall param_ok params).
  { unfold params, sampling, sampleInterval.
    destruct (isSummary (q_Pi q)); [destruct (isInterpolated (q_Pi q))|];
      cbn [app]; solve_params. }
  assert (Hparams : uri_params (getQueryBaseURL q) = params).
  { rewrite Huri. by apply uri_params_join. }
  split_and!.
  - rewrite Huri. by apply uri_path_join.
  - exact Hparams.
  - intros value. rewrite Hparams. unfold params, sampling, sampleInterval.
    intros Hin.
    assert (Hv : value = QueryEscape (pi_Expression (q_Pi q))).
    { destruct (isSummary (q_Pi q)); [destruct (isInterpolated (q_Pi q))|];
        cbn [app] in Hin; set_unfold in Hin;
        repeat (destruct Hin as [Hin|Hin]; [by injection Hin|]); done. }
    rewrite Hv. apply unescape_QueryEscape.
Qed.

Lemma calculation_uri_params_witness :
  uri_params (getQueryBaseURL Demo.q_calc_sum)
  = [("startTime", "2024-01-01T12:00:00Z"); ("endTime", "2024-01-01T13:00:00Z");
     ("expression", "%27a%27+%2B+1")].
Proof.
  assert (H : pi_Expression (q_Pi Demo.q_calc_sum) <> "") by discriminate.
  etransitivity;
    [exact (proj1 (proj2 (calculation_uri_params Demo.q_calc_sum H)))|].
  vm_compute. reflexivity.
Defined.

(** X4. For a query without an expression, reading the query string of
    the built URI back gives the time range and the one parameter of the
    mode, [intervals] or [maxCount] with the point count, [interval]
    with the interval; for a summary, as long as the summary's type
    values, basis and duration hold no [&], the parameters of the
    summary follow in the order types, basis, duration. *)
Theorem streamsets_uri_params (q : Query) :
  pi_Expression (q_Pi q) = "" ->
  (isSummary (q_Pi q) = true -> Forall param_ok (summary_params (q_Pi q))) ->
  let mode_param :=
    if isSummary (q_Pi q) then ("intervals", fmt_d (getMaxDataPoints q))
    else if isInterpolated (q_Pi q) then ("interval", fmt_d (getIntervalTime q))
    else if isRecordedValues (q_Pi q) then ("maxCount", fmt_d (getMaxDataPoints q))
    else ("intervals", fmt_d (getMaxDataPoints q)) in
  uri_params (getQueryBaseURL q)
  = [("startTime", formatRFC3339 (q_From q)); ("endTime", formatRFC3339 (q_To q));
     mode_param]
    ++ (if isSummary (q_Pi q) then summary_params (q_Pi q) else []).
Proof.
  intros Hexpr Hclean mode_param.
  set (time := [("startTime", formatRFC3339 (q_From q));
                ("endTime", formatRFC3339 (q_To q)); mode_param]).
  assert (Htime : Forall param_ok time).
  { unfold time, mode_param.
    destruct (isSummary (q_Pi q)); [|destruct (isInterpolated (q_Pi q));
      [|destruct (isRecordedValues (q_Pi q))]]; solve_params. }
  pose proof (isExpression_false _ Hexpr) as Hnot.
  destruct (isSummary (q_Pi q)) eqn:Hsum.
  - assert (Huri : getQueryBaseURL q
                   = "/streamsets/summary" +:+ "?"
                       +:+ join_params (time ++ summary_params (q_Pi q))).
    { unfold getQueryBaseURL, getTimeRangeURIComponent.
      rewrite Hnot, Hsum. cbv zeta. rewrite (summary_fragment_join _ Hnot).
      rewrite join_params_app; [|done|unfold summary_params; by destruct (map _ _)].
      unfold time, mode_param. cbn [join_params]. app_eq. }
    rewrite Huri. apply uri_params_join; [done| |done].
    apply Forall_app. split; [done|by apply Hclean].
  - assert (Huri : getQueryBaseURL q
                   = "/streamsets" +:+ streamset_mode q +:+ "?" +:+ join_params time).
    { unfold getQueryBaseURL, getTimeRangeURIComponent, streamset_mode, time,
        mode_param.
      rewrite Hnot, Hsum.
      destruct (isInterpolated (q_Pi q)); [|destruct (isRecordedValues (q_Pi q))];
        cbv zeta; cbn [join_params]; app_eq. }
    rewrite List.app_nil_r.
    replace ("/streamsets" +:+ streamset_mode q +:+ "?" +:+ join_params time)
      with (("/streamsets" +:+ streamset_mode q) +:+ "?" +:+ join_params time)
      in Huri by app_eq.
    rewrite Huri. apply uri_params_join; [|done|done].
    unfold streamset_mode. rewrite Hsum.
    by destruct (isInterpolated (q_Pi q)); [|destruct (isRecordedValues (q_Pi q))].
Qed.

Lemma streamsets_uri_params_witness :
  uri_params (getQueryBaseURL Demo.q_sum)
  = [("startTime", "2024-01-01T12:00:00Z"); ("endTime", "2024-01-01T13:00:00Z");
     ("intervals", "500"); ("summaryType", "Average"); ("summaryType", "Maximum");
     ("summaryBasis", "TimeWeighted"); ("summaryDuration", "30s")].
Proof.
  assert (H1 : pi_Expression (q_Pi Demo.q_sum) = "") by reflexivity.
  assert (H2 : isSummary (q_Pi Demo.q_sum) = true ->
               Forall param_ok (summary_params (q_Pi Demo.q_sum))).
  { intros _. repeat (apply Forall_cons; split; [by repeat split|]).
    apply Forall_nil_2. }
  etransitivity; [exact (streamsets_uri_params Demo.q_sum H1 H2)|].
  vm_compute. reflexivity.
Defined.

(** ** The classifier's result *)

(** What a run of the classifier that returns has returned. *)
Lemma UnmarshalJSON_inv (data : json) (p : PIBatchResponse) (err : option string) :
  UnmarshalJSON data = Ok (p, err) ->
  Status p = dec_Status data
  /\ ((Content p = None /\ is_Some err)
      \/ (err = None /\ exists e, Content p = Some (PiBatchDataError e))
      \/ (err = None /\ dec_Status data = StatusOK
          /\ exists rawData content item rest,
               dec_rawData data = Some rawData
               /\ map_get "Content" rawData = Some (AMap content)
               /\ map_get "Items" content = Some (AArr (AMap item :: rest))
               /\ ((exists r, dec_WithoutSubItems content = Some r
                              /\ Content p = Some (DataWithoutSubItems r))
                   \/ (exists r, dec_WithSubItems content = Some r
                                 /\ Content p = Some (DataWithSubItems r))))).
Proof.
  intros Hrun.
  assert (Hraw : exists o, dec_rawData data = o) by by eexists.
  destruct Hraw as [[rawData|] Hraw].
  2: { unfold UnmarshalJSON in Hrun. rewrite Hraw in Hrun. cbv zeta in Hrun.
       injection Hrun as <- <-. split; [done|]. left. by split; [|eexists]. }
  destruct (map_get "Content" rawData) as [c|] eqn:Hc.
  2: { unfold UnmarshalJSON in Hrun. rewrite Hraw, Hc in Hrun. cbv zeta in Hrun.
       injection Hrun as <- <-. split; [done|]. left. by split; [|eexists]. }
  assert (Hno : (forall content, c <> AMap content) ->
                Status p = dec_Status data /\ Content p = None /\ is_Some err).
  { intros Hno. unfold UnmarshalJSON in Hrun. rewrite Hraw, Hc in Hrun.
    cbv zeta in Hrun.
    destruct c as [| | | | |content]; try (by destruct (Hno content));
      injection Hrun as <- <-; by split_and!; [| |eexists]. }
  destruct c as [| | | | |content];
    try (destruct Hno as (? & ? & ?); [done|]; split; [done|]; by left).
  clear Hno.
  rewrite (UnmarshalJSON_content data rawData content Hraw Hc) in Hrun.
  cbv zeta in Hrun. revert Hrun.
  destruct (bool_decide (dec_Status data = StatusOK)) eqn:Hstatus; cbn [negb].
  - apply bool_decide_eq_true in Hstatus.
    assert (Hgeneric :
              Ok (mkPIBatchResponse (dec_Status data)
                    (Some (createPiBatchDataError could_not_process)), None)
              = Ok (p, err) ->
              Status p = dec_Status data
              /\ ((Content p = None /\ is_Some err)
                  \/ (err = None /\ exists e, Content p = Some (PiBatchDataError e))
                  \/ (err = None /\ dec_Status data = StatusOK
                      /\ exists rawData content item rest,
                           dec_rawData data = Some rawData
                           /\ map_get "Content" rawData = Some (AMap content)
                           /\ map_get "Items" content = Some (AArr (AMap item :: rest))
                           /\ ((exists r, dec_WithoutSubItems content = Some r
                                          /\ Content p = Some (DataWithoutSubItems r))
                               \/ (exists r, dec_WithSubItems content = Some r
                                             /\ Content p = Some (DataWithSubItems r)))))).
    { intros [= <- <-]. split; [done|]. right. left. split; [done|]. by eexists. }
    destruct (map_get "Items" content) as [[| | | |[|[| | | | |item] rest]|]|] eqn:Hitems;
      try (by apply Hgeneric); [done|].
    assert (Hflat :
              match dec_WithoutSubItems content with
              | None =>
                  Ok (mkPIBatchResponse (dec_Status data)
                        (Some (createPiBatchDataError could_not_process)), None)
              | Some r =>
                  Ok (mkPIBatchResponse (dec_Status data) (Some (DataWithoutSubItems r)),
                      None)
              end = Ok (p, err) ->
              Status p = dec_Status data
              /\ ((Content p = None /\ is_Some err)
                  \/ (err = None /\ exists e, Content p = Some (PiBatchDataError e))
                  \/ (err = None /\ dec_Status data = StatusOK
                      /\ exists rawData content item rest,
                           dec_rawData data = Some rawData
                           /\ map_get "Content" rawData = Some (AMap content)
                           /\ map_get "Items" content = Some (AArr (AMap item :: rest))
                           /\ ((exists r, dec_WithoutSubItems content = Some r
                                          /\ Content p = Some (DataWithoutSubItems r))
                               \/ (exists r, dec_WithSubItems content = Some r
                                             /\ Content p = Some (DataWithSubItems r)))))).
    { destruct (dec_WithoutSubItems content) as [r|] eqn:Hr; [|exact Hgeneric].
      intros [= <- <-]. split; [done|]. right. right. split_and!; [done|done|].
      exists rawData, content, item, rest. split_and!; [done|done|done|].
      left. by exists r. }
    destruct (map_get "WebId" item) as [[| | |w| |]|]; try (by apply Hflat).
    destruct (dec_WithSubItems content) as [r|] eqn:Hr; [|by apply Hgeneric].
    intros [= <- <-]. split; [done|]. right. right. split_and!; [done|done|].
    exists rawData, content, item, rest. split_and!; [done|done|done|].
    right. by exists r.
  - destruct (dec_ErrorResponse content) as [e|]; intros [= <- <-].
    + split; [done|]. right. left. split; [done|]. by eexists.
    + split; [done|]. left. by split; [|eexists].
Qed.

(** X5. Whenever the classifier returns, the receiver's status is the
    decoded one; it returns an error exactly when it leaves the content
    nil; under any status but 200 the content is the error variant.
    The error variant and the flat variant answer [getItems] and
    [getUnits] without a run-time fault.  The nested variant answers
    them exactly when it holds an entry, and it is stored without one
    exactly when the last of the members of [Content] that belong to
    the field [Items], in the order of their keys and whatever the case
    of their letters, is [null] or the empty array, as in
    [{"Items":[{"WebId":"x"}],"items":[]}]; it holds an entry when
    only one member belongs to the field. *)
Theorem classifier_content_safe (data : json) (p : PIBatchResponse)
    (err : option string) :
  UnmarshalJSON data = Ok (p, err) ->
  Status p = dec_Status data
  /\ (err = None <-> is_Some (Content p))
  /\ (Status p <> StatusOK ->
      forall r, Content p = Some r -> exists e, r = PiBatchDataError e)
  /\ (forall r, Content p = Some r ->
        match r with
        | DataWithSubItems w =>
            (is_Ok (getItems r) = true <-> live (ws_Items w) <> [])
            /\ (is_Ok (getUnits r) = true <-> live (ws_Items w) <> [])
            /\ exists rawData content,
                 dec_rawData data = Some rawData
                 /\ map_get "Content" rawData = Some (AMap content)
                 /\ (live (ws_Items w) = []
                     <-> last (field_values "Items" content) = Some ANil
                         \/ last (field_values "Items" content) = Some (AArr []))
                 /\ (forall v, field_values "Items" content = [v] ->
                       live (ws_Items w) <> [])
        | _ => is_Ok (getItems r) = true /\ is_Ok (getUnits r) = true
        end).
Proof.
  intros Hrun.
  destruct (UnmarshalJSON_inv data p err Hrun) as [Hstatus Hcases].
  split; [exact Hstatus|].
  destruct Hcases as [[Hc [e ->]]|[[-> [e Hc]]|(-> & Hok & Hc)]].
  - rewrite Hc. split_and!; [|done|done]. split; [done|]. by intros [? ?].
  - rewrite Hc. split_and!.
    + split; [by eexists|done].
    + intros _ r [= <-]. by exists e.
    + by intros r [= <-].
  - destruct Hc as (rawData & content & item & rest & Hraw & Hcontent & Hitems & Hc).
    split_and!.
    + split; [|done]. intros _. by destruct Hc as [(r & _ & ->)|(r & _ & ->)].
    + intros Hne. by rewrite Hstatus in Hne.
    + intros r Hr. destruct Hc as [(r' & Hdec & Hc)|(w & Hdec & Hc)];
        rewrite Hc in Hr; injection Hr as <-; [done|].
      split_and!.
      * unfold getItems. destruct (live (ws_Items w)); by split.
      * unfold getUnits. destruct (live (ws_Items w)); by split.
      * exists rawData, content. split_and!; [done|done| |].
        -- apply (dec_values_slice_empty zero_subitem dec_subitem _ (mkSlice [] []));
             [by apply WithSubItems_Items|].
           apply map_get_field_values in Hitems. intros Hnil.
           rewrite Hnil in Hitems. by apply elem_of_nil in Hitems.
        -- intros v Hsole.
           pose proof (map_get_field_values _ _ _ Hitems) as Hin.
           rewrite Hsole in Hin. apply list_elem_of_singleton in Hin. subst v.
           pose proof (WithSubItems_Items _ _ Hdec) as Hi.
           rewrite Hsole in Hi. cbn [dec_values] in Hi.
           destruct (dec_slice zero_subitem dec_subitem (mkSlice [] [])
                       (AArr (AMap item :: rest))) as [s|] eqn:Hs; [|done].
           injection Hi as Hi. subst s.
           apply dec_slice_first in Hs as (_ & first & others & Hlive & _).
           by rewrite Hlive.
Qed.

Lemma classifier_content_safe_witness :
  exists p w,
    UnmarshalJSON Cases.body_items_twice = Ok (p, None)
    /\ Status p = 200
    /\ Content p = Some (DataWithSubItems w)
    /\ live (ws_Items w) = []
    /\ is_Ok (getItems (DataWithSubItems w)) = false.
Proof.
  eassert (H : UnmarshalJSON Cases.body_items_twice = Ok (_, None))
    by (vm_compute; reflexivity).
  destruct (classifier_content_safe _ _ _ H) as (Hstatus & _ & _ & Hsafe).
  eexists _, _. split_and!; [exact H|by rewrite Hstatus|reflexivity|reflexivity|].
  destruct (Hsafe _ eq_refl) as (Hitems & _).
  destruct (is_Ok (getItems _)) eqn:Hok; [|done].
  by destruct (proj1 Hitems eq_refl).
Defined.

(** ** [CallResource] *)

Lemma allowed_loop_true (reqPath : string) (paths : list string) :
  allowed_loop reqPath paths true = true.
Proof. induction paths as [|path rest IH]; simpl; [done|]. by case_match. Qed.

(** X6. [CallResource] filters nothing: [isAllowed] starts out true
    and the loop over the allowed base paths can only set it, so the
    403 response is never sent; whatever the request path, the URL is
    fetched, a fetch error is returned as it is, and a fetched body is
    sent on under status 200. *)
Theorem CallResource_forwards_every_path {World Body : Type}
    (apiGet : string -> World -> (Body + string) * World)
    (Send : CallResourceResponse Body -> World -> option string * World)
    (req : CallResourceRequest) (w : World) :
  CallResource World Body apiGet Send req w
  = match apiGet (req_URL req) w with
    | (inr err, w') => (Some err, w')
    | (inl r, w') => Send (mkCallResourceResponse StatusOK (Some r)) w'
    end
  /\ forall path,
       CallResource World Body apiGet Send (mkCallResourceRequest path (req_URL req)) w
       = CallResource World Body apiGet Send req w.
Proof.
  unfold CallResource. cbv zeta. split; [|intros path]; by rewrite !allowed_loop_true.
Qed.

(** ** The keys of a batch *)

Lemma pretty_N_char_val (d : N) :
  (d < 10)%N -> digit_val (pretty_N_char d) = Some (Z.of_N d).
Proof.
  intros Hd.
  assert (d = 0 \/ d = 1 \/ d = 2 \/ d = 3 \/ d = 4 \/ d = 5 \/ d = 6 \/ d = 7
          \/ d = 8 \/ d = 9)%N as Hcases by lia.
  by repeat (destruct Hcases as [->|Hcases]; [done|]); subst d.
Qed.

Lemma parse_digits_pretty_N_go (x : N) (s : string) :
  parse_digits (pretty_N_go x s) 0 = parse_digits s (Z.of_N x).
Proof.
  revert s. induction (N.lt_wf_0 x) as [x _ IH]; intros s.
  destruct (decide (x = 0)%N) as [->|Hx]; [by rewrite pretty_N_go_0|].
  rewrite pretty_N_go_step by lia.
  rewrite IH by (apply N.div_lt; lia).
  cbn [parse_digits]. rewrite pretty_N_char_val by (apply N.mod_lt; lia).
  cbn [mbind option_bind]. f_equal.
  rewrite (N.div_mod x 10) at 3 by lia. lia.
Qed.

Lemma digit_first_byte (c : ascii) (r : string) :
  is_digit c = true ->
  match String c r with
  | String "-" r' => (true, r')
  | String "+" r' => (false, r')
  | _ => (false, String c r)
  end = (false, String c r).
Proof.
  destruct c as [[] [] [] [] [] [] [] []]; first [discriminate | reflexivity].
Qed.

Lemma ParseInt_digits (s : string) (n : Z) :
  all is_digit s = true -> parse_digits s 0 = Some n -> n <> 0 ->
  ParseInt s = (if decide (- 2 ^ 63 <= n < 2 ^ 63) then Some n else None)
  /\ ParseInt ("-" +:+ s) = (if decide (- 2 ^ 63 <= - n < 2 ^ 63) then Some (- n) else None).
Proof.
  intros Hall Hparse Hn.
  destruct s as [|c r]; [cbn in Hparse; congruence|].
  cbn [all] in Hall. apply andb_true_iff in Hall as [Hc _].
  split.
  - unfold ParseInt. rewrite (digit_first_byte c r Hc).
    rewrite decide_False by done. by rewrite Hparse.
  - unfold ParseInt. rewrite app_cons, app_nil_l.
    rewrite decide_False by done. by rewrite Hparse.
Qed.

(** Reading back an index written with [fmt.Sprint]. *)
Lemma ParseInt_fmt_d (z : Z) : int64_range z -> ParseInt (fmt_d z) = Some z.
Proof.
  intros Hrange. unfold int64_range in Hrange. unfold fmt_d, pretty, pretty_Z.
  destruct z as [|p|p]; [done| |].
  - destruct (ParseInt_digits (pretty (N.pos p)) (Z.pos p)) as [H _];
      [apply pretty_N_digits| |done|].
    + unfold pretty, pretty_N. rewrite decide_False by done.
      apply (parse_digits_pretty_N_go (N.pos p) "").
    + change (pretty p) with (pretty (N.pos p)). rewrite H.
      by rewrite decide_True.
  - destruct (ParseInt_digits (pretty (N.pos p)) (Z.pos p)) as [_ H];
      [apply pretty_N_digits| |done|].
    + unfold pretty, pretty_N. rewrite decide_False by done.
      apply (parse_digits_pretty_N_go (N.pos p) "").
    + change (pretty p) with (pretty (N.pos p)). rewrite H.
      by rewrite decide_True.
Qed.

Lemma fmt_d_inj (x y : Z) : fmt_d x = fmt_d y -> x = y.
Proof. apply pretty_Z_inj. Qed.

Lemma build_batch_snoc (processed : list PiProcessedQuery) (p : PiProcessedQuery) :
  build_batch (processed ++ [p])
  = <[fmt_d (Z.of_nat (length processed)) := BatchRequest p]> (build_batch processed).
Proof.
  unfold build_batch. rewrite imap_app, fold_left_app. cbn.
  by rewrite Nat.add_0_r.
Qed.

Lemma build_batch_lookup (processed : list PiProcessedQuery) (i : nat) :
  build_batch processed !! fmt_d (Z.of_nat i) = BatchRequest <$> processed !! i.
Proof.
  induction processed as [|p processed IH] using rev_ind; [done|].
  rewrite build_batch_snoc.
  destruct (decide (i = length processed)) as [->|Hne].
  - rewrite lookup_insert_eq. by rewrite list_lookup_middle.
  - rewrite lookup_insert_ne by (intros H%fmt_d_inj; lia).
    rewrite IH. destruct (decide (i < length processed)%nat) as [Hlt|Hge].
    + by rewrite lookup_app_l.
    + rewrite !lookup_ge_None_2; [done|rewrite ?length_app; simpl; lia..].
Qed.

Lemma build_batch_key (processed : list PiProcessedQuery) (k : string)
    (r : BatchSubRequest) :
  build_batch processed !! k = Some r ->
  exists i p, k = fmt_d (Z.of_nat i) /\ processed !! i = Some p /\ r = BatchRequest p.
Proof.
  induction processed as [|p processed IH] using rev_ind; [done|].
  rewrite build_batch_snoc.
  destruct (decide (k = fmt_d (Z.of_nat (length processed)))) as [->|Hne].
  - rewrite lookup_insert_eq. intros [= <-].
    exists (length processed), p. by rewrite list_lookup_middle.
  - rewrite lookup_insert_ne by done. intros (i & q & -> & Hi & ->)%IH.
    exists i, q. split_and!; [done| |done]. by apply lookup_app_l_Some.
Qed.

(** X7. The batch sent for a list of entries holds, under the decimal
    text of each index, the sub-request of the entry at that index and
    nothing else, so as many members as entries; and that text, decoded
    as the response's [int] key, is the index again. *)
Theorem batch_keys_are_indices (processed : list PiProcessedQuery) :
  Z.of_nat (length processed) <= 2 ^ 63 ->
  (forall i p, processed !! i = Some p ->
     build_batch processed !! fmt_d (Z.of_nat i) = Some (BatchRequest p)
     /\ ParseInt (fmt_d (Z.of_nat i)) = Some (Z.of_nat i))
  /\ (forall k r, build_batch processed !! k = Some r ->
        exists i p, k = fmt_d (Z.of_nat i) /\ processed !! i = Some p
                    /\ r = BatchRequest p)
  /\ size (build_batch processed) = length processed.
Proof.
  intros Hlen. split_and!.
  - intros i p Hi. split; [by rewrite build_batch_lookup, Hi|].
    apply ParseInt_fmt_d. apply lookup_lt_Some in Hi. unfold int64_range. lia.
  - apply build_batch_key.
  - clear Hlen. induction processed as [|p processed IH] using rev_ind; [done|].
    rewrite build_batch_snoc, length_app. cbn [length].
    rewrite map_size_insert_None; [lia|].
    destruct (build_batch processed !! fmt_d (Z.of_nat (length processed)))
      as [r|] eqn:Hr; [|done].
    apply build_batch_key in Hr as (i & q & Hk%fmt_d_inj & Hi%lookup_lt_Some & _).
    lia.
Qed.

Lemma batch_keys_are_indices_witness :
  let processed :=
    [mkEntry "u" Demo.q_attr "uid" "Seg1" "Base|Seg1" "W1";
     mkEntry "u" Demo.q_attr "uid" "Seg2" "Base|Seg2" "W2"] in
  Z.of_nat (length processed) <= 2 ^ 63
  /\ Resource <$> build_batch processed !! "1"
     = Some ("u/streamsets/plot?startTime=2024-01-01T12:00:00Z"
               +:+ "&endTime=2024-01-01T13:00:00Z&intervals=500&webid=W2")
  /\ ParseInt "1" = Some 1
  /\ size (build_batch processed) = 2%nat.
Proof.
  intros processed.
  assert (H : Z.of_nat (length processed) <= 2 ^ 63) by (simpl; lia).
  destruct (batch_keys_are_indices processed H) as (H1 & _ & H3).
  destruct (H1 1%nat _ eq_refl) as [H1a H1b].
  split_and!; [exact H| |exact H1b|exact H3].
  change "1" with (fmt_d (Z.of_nat 1)). rewrite H1a. vm_compute. reflexivity.
Defined.

(** ** Decoding the batch response *)

Lemma decode_entries_members (fields : list (string * json)) :
  Forall member_ok fields ->
  NoDup (omap (fun kv => ParseInt (fst kv)) fields) ->
  forall m : gmap Z PIBatchResponse,
    (forall n, n ∈ omap (fun kv => ParseInt (fst kv)) fields -> m !! n = None) ->
    exists m',
      decode_entries fields m false = Ok (Some m')
      /\ forall n p,
           m' !! n = Some p
           <-> (m !! n = Some p
                \/ exists k v, (k, v) ∈ fields /\ ParseInt k = Some n
                               /\ UnmarshalJSON v = Ok (p, None)).
Proof.
  induction fields as [|[k v] rest IH]; intros Hok Hnodup m Hfresh.
  - exists m. split; [done|]. intros n p. split; [by left|].
    intros [H|(k & v & Hin & _)]; [done|]. by apply elem_of_nil in Hin.
  - apply Forall_cons in Hok as [[[n0 Hk] [p0 Hv]] Hrest]. cbn [fst snd] in Hk, Hv.
    assert (Hkeys : omap (fun kv => ParseInt (fst kv)) ((k, v) :: rest)
                    = n0 :: omap (fun kv => ParseInt (fst kv)) rest)
      by (cbn -[ParseInt]; by rewrite Hk).
    rewrite Hkeys in Hnodup, Hfresh. apply NoDup_cons in Hnodup as [Hn0 Hnodup].
    destruct (IH Hrest Hnodup (<[n0 := p0]> m)) as (m' & Hrun & Hm').
    { intros n Hn. rewrite lookup_insert_ne by (by intros ->).
      apply Hfresh. by right. }
    exists m'. split; [cbn [decode_entries]; by rewrite Hv, Hk|].
    intros n p. rewrite Hm'. split.
    + intros [Hins|(k' & v' & Hin & Hk' & Hv')].
      * destruct (decide (n = n0)) as [->|Hne].
        -- rewrite lookup_insert_eq in Hins. injection Hins as <-.
           right. exists k, v. split_and!; [by left|done|done].
        -- rewrite lookup_insert_ne in Hins by done. by left.
      * right. exists k', v'. split_and!; [by right|done|done].
    + intros [Hm|(k' & v' & Hin & Hk' & Hv')].
      * left. rewrite lookup_insert_ne; [done|]. intros <-.
        rewrite Hfresh in Hm; [done|by left].
      * apply elem_of_cons in Hin as [[= -> ->]|Hin].
        -- left. rewrite Hk in Hk'. injection Hk' as <-.
           rewrite Hv in Hv'. injection Hv' as <-. by rewrite lookup_insert_eq.
        -- right. by exists k', v'.
Qed.

Lemma set_responses_lookup (tempresponse : gmap Z PIBatchResponse)
    (processed : list PiProcessedQuery) (i : nat) :
  set_responses tempresponse processed !! i
  = (fun p => set_Response p (tempresponse !! Z.of_nat i ≫= Content))
      <$> processed !! i.
Proof. unfold set_responses. by rewrite list_lookup_imap. Qed.



Lemma decode_entries_failed (fields : list (string * json))
    (m : gmap Z PIBatchResponse) :
  Forall (fun kv => is_Ok (UnmarshalJSON (snd kv)) = true) fields ->
  decode_entries fields m true = Ok None.
Proof.
  intros Hok. revert m. induction Hok as [|[k v] rest Hv _ IH]; intros m; [done|].
  cbn [decode_entries]. cbn [snd] in Hv.
  destruct (UnmarshalJSON v) as [[p [e|]]|msg]; [done| |done].
  destruct (ParseInt k); apply IH.
Qed.

Lemma decode_entries_error (pre post : list (string * json)) (k : string) (v : json)
    (p : PIBatchResponse) (e : string) :
  Forall (fun kv => is_Ok (UnmarshalJSON (snd kv)) = true) pre ->
  UnmarshalJSON v = Ok (p, Some e) ->
  forall m failed, decode_entries (pre ++ (k, v) :: post) m failed = Ok None.
Proof.
  intros Hok Hv. induction Hok as [|[k' v'] rest Hv' _ IH]; intros m failed.
  - cbn [app decode_entries]. by rewrite Hv.
  - cbn [app decode_entries]. cbn [snd] in Hv'.
    destruct (UnmarshalJSON v') as [[p' [e'|]]|msg]; [done| |done].
    destruct (ParseInt k'); apply IH.
Qed.

Lemma decode_entries_bad_key (pre post : list (string * json)) (k : string) (v : json) :
  Forall (fun kv => is_Ok (UnmarshalJSON (snd kv)) = true) (pre ++ (k, v) :: post) ->
  ParseInt k = None ->
  forall m failed, decode_entries (pre ++ (k, v) :: post) m failed = Ok None.
Proof.
  intros Hok Hk. apply Forall_app in Hok as [Hpre Hpost].
  induction Hpre as [|[k' v'] rest Hv' _ IH]; intros m failed.
  - cbn [app decode_entries]. apply Forall_cons in Hpost as [Hv Hpost].
    cbn [snd] in Hv. destruct (UnmarshalJSON v) as [[p [e|]]|msg]; [done| |done].
    rewrite Hk. by apply decode_entries_failed.
  - cbn [app decode_entries]. cbn [snd] in Hv'.
    destruct (UnmarshalJSON v') as [[p' [e'|]]|msg]; [done| |done].
    destruct (ParseInt k'); apply IH.
Qed.

(** X9. One member spoils the batch.  When no member of the body makes
    the classifier fault, a member whose [Content] is missing or is not
    an object (the classifier returns an error for it), or a member
    whose key is not an integer, makes the decode of the whole body
    fail, whatever the other members hold; [batchRequest] then leaves
    every entry of that query without a response. *)
Theorem one_member_voids_batch {World : Type}
    (apiBatchRequest :
       gmap string BatchSubRequest -> World -> option (option json) * World)
    (pre post : list (string * json)) (k : string) (v : json) :
  Forall (fun kv => is_Ok (UnmarshalJSON (snd kv)) = true) (pre ++ (k, v) :: post) ->
  (exists top, v = JObj top /\ forall content, obj_get "Content" top <> Some (JObj content))
  \/ ParseInt k = None ->
  decode_tempresponse (Some (JObj (pre ++ (k, v) :: post))) = Ok None
  /\ forall RefID processed rest m d,
       fst (apiBatchRequest (build_batch processed) (world d))
       = Some (Some (JObj (pre ++ (k, v) :: post))) ->
       batchRequest_loop World apiBatchRequest ((RefID, processed) :: rest) m d
       = batchRequest_loop World apiBatchRequest rest m
           (mkDatasource (snd (apiBatchRequest (build_batch processed) (world d)))
              (channelConstruct d)).
Proof.
  intros Hok Hbad.
  assert (Hdec : decode_tempresponse (Some (JObj (pre ++ (k, v) :: post))) = Ok None).
  { cbn [decode_tempresponse]. destruct Hbad as [(top & -> & Htop)|Hk].
    - apply Forall_app in Hok as [Hpre _].
      destruct (UnmarshalJSON_no_content top Htop) as [e He].
      by eapply decode_entries_error.
    - by apply decode_entries_bad_key. }
  split; [exact Hdec|].
  intros RefID processed rest m d Hcall. cbn [batchRequest_loop].
  unfold bind at 1, call at 1.
  destruct (apiBatchRequest (build_batch processed) (world d)) as [r w'] eqn:Hr.
  cbn [fst snd] in *. subst r.
  unfold bind at 1, lift at 1. by rewrite Hdec.
Qed.

Lemma one_member_voids_batch_witness :
  decode_tempresponse
    (Some (JObj [("0", Demo.body_nested); ("1", Demo.body_500_text)])) = Ok None.
Proof.
  assert (H1 : Forall (fun kv => is_Ok (UnmarshalJSON (snd kv)) = true)
                 ([("0", Demo.body_nested)] ++ ("1", Demo.body_500_text) :: [])).
  { repeat (apply Forall_cons; split; [reflexivity|]). apply Forall_nil_2. }
  assert (H2 : (exists top, Demo.body_500_text = JObj top
                  /\ forall content, obj_get "Content" top <> Some (JObj content))
               \/ ParseInt "1" = None).
  { left. eexists. split; [reflexivity|]. intros content. vm_compute. discriminate. }
  exact (proj1 (one_member_voids_batch Demo.apiBatchRequest
                  [("0", Demo.body_nested)] [] "1" Demo.body_500_text H1 H2)).
Defined.

(** ** More on the pipeline *)

Section PipelineMore.

Context {World DataQuery : Type}.
Context (dq_RefID : DataQuery -> string).
Context (decodeQuery : DataQuery -> option Query).
Context (settingsURL : string).
Context (getWebID : string -> bool -> World -> option string * World).
Context (apiBatchRequest :
           gmap string BatchSubRequest -> World -> option (option json) * World).
Context {SliceType Fields : Type}.
Context (getTypeForWebID : string -> World -> SliceType).
Context (getDigitalStateforWebID : string -> World -> bool).
Context (convertItemsToDataFrame :
           string -> list PiBatchContentItem -> SliceType -> bool -> bool ->
           Frame Fields * option string).
Context (uuid_New : World -> string * World).
Context (range_order :
           gmap string (list PiProcessedQuery) -> World ->
           list (string * list PiProcessedQuery) * World).

Hypothesis range_order_perm :
  forall m w, fst (range_order m w) ≡ₚ map_to_list m.

Local Abbreviation processTargets := (processTargets World settingsURL getWebID).
Local Abbreviation processQuery :=
  (processQuery World DataQuery decodeQuery settingsURL getWebID).
Local Abbreviation batchRequest_loop := (batchRequest_loop World apiBatchRequest).
Local Abbreviation batchRequest := (batchRequest World apiBatchRequest range_order).
Local Abbreviation frames_loop :=
  (frames_loop World SliceType Fields getTypeForWebID getDigitalStateforWebID
     convertItemsToDataFrame uuid_New).
Local Abbreviation responses_loop :=
  (responses_loop World SliceType Fields getTypeForWebID getDigitalStateforWebID
     convertItemsToDataFrame uuid_New).
Local Abbreviation processBatchtoFrames :=
  (processBatchtoFrames World SliceType Fields getTypeForWebID
     getDigitalStateforWebID convertItemsToDataFrame uuid_New range_order).
Local Abbreviation processQueries :=
  (processQueries World DataQuery dq_RefID decodeQuery settingsURL getWebID).
Local Abbreviation QueryData :=
  (QueryData World DataQuery dq_RefID decodeQuery settingsURL getWebID
     apiBatchRequest SliceType Fields getTypeForWebID getDigitalStateforWebID
     convertItemsToDataFrame uuid_New range_order).
Local Abbreviation mkEntry := (mkEntry settingsURL).
Local Abbreviation full_path q base target :=
  (base +:+ path_separator q +:+ target).

(** *** The entries of a query, whatever the lookups answer *)

Lemma processTargets_entries (q : Query) (uid base : string) (targets : list string) :
  getBasePath (q_Pi q) = Ok base ->
  forall resp d,
    exists added d',
      processTargets q uid targets resp d = (Ok (resp ++ added), d')
      /\ sublist (map Label added) targets
      /\ Forall (fun p => p = mkEntry q uid (Label p) (full_path q base (Label p))
                               (WebID p)) added
      /\ channelConstruct d' = channelConstruct d.
Proof.
  intros Hbase. induction targets as [|target rest IH]; intros resp d.
  - exists [], d. rewrite List.app_nil_r. by split_and!.
  - rewrite (processTargets_step settingsURL getWebID q uid target rest resp d base Hbase).
    destruct (fst (getWebID (full_path q base target) (pi_IsPiPoint (q_Pi q)) (world d)))
      as [webid|].
    + edestruct IH as (added & d' & Hrun & Hsub & Hall & Hreg).
      rewrite Hrun. eexists (_ :: added), d'. split_and!.
      * by rewrite <- List.app_assoc.
      * cbn [map]. by apply sublist_skip.
      * by apply Forall_cons.
      * exact Hreg.
    + edestruct IH as (added & d' & Hrun & Hsub & Hall & Hreg).
      rewrite Hrun. exists added, d'. split_and!; [done| |done|exact Hreg].
      by apply sublist_cons.
Qed.

(** X10. For a decodable query whose target has a [;], whatever the
    lookups answer and however they change the cache, [processQuery]
    returns; the labels of its entries are segments of the target, in
    the target's order, at most one entry per segment; every entry is
    the one built from its label and its WebID (full path from base,
    separator and label, the query's interval, point flag and
    streamability, a [GET] of the query's URI with that WebID, no
    response yet); and the channel registry is untouched. *)
Theorem processQuery_entries_from_segments (dq : DataQuery) (q : Query) (uid : string)
    (d : Datasource World) :
  decodeQuery dq = Some q ->
  Str.mem ";" (pi_Target (q_Pi q)) = true ->
  let base := Str.before ";" (pi_Target (q_Pi q)) in
  let segments := Str.Split (Str.after ";" (pi_Target (q_Pi q))) ";" in
  let sep := if pi_IsPiPoint (q_Pi q) then "\" else "|" in
  exists out d',
    processQuery dq uid d = (Ok out, d')
    /\ sublist (map Label out) segments
    /\ (length out <= length segments)%nat
    /\ Forall (fun p =>
         FullTargetPath p = base +:+ sep +:+ Label p
         /\ UID p = uid
         /\ IntervalNanoSeconds p = q_Interval q
         /\ IsPIPoint p = pi_IsPiPoint (q_Pi q)
         /\ Streamable p = isStreamable q
         /\ ResponseUnits p = ""
         /\ BatchRequest p
            = mkBatchSubRequest "GET"
                (settingsURL +:+ getQueryBaseURL q +:+ "&webid=" +:+ WebID p)
         /\ Response p = None) out
    /\ channelConstruct d' = channelConstruct d.
Proof.
  intros Hdec Hsep base segments sep.
  rewrite (processQuery_with_separator decodeQuery settingsURL getWebID dq q uid d
             Hdec Hsep).
  destruct (processTargets_entries q uid base segments (getBasePath_ok _ Hsep) [] d)
    as (added & d' & Hrun & Hsub & Hall & Hreg).
  exists added, d'. split_and!; [exact Hrun|exact Hsub| | |exact Hreg].
  - apply sublist_length in Hsub. by rewrite length_map in Hsub.
  - eapply Forall_impl; [exact Hall|]. intros p Hp. by rewrite Hp.
Qed.

End PipelineMore.

Lemma processQuery_entries_from_segments_witness :
  exists out d',
    Demo.processQuery ["Base|Seg1"] Demo.q_attr "uid" (Demo.ds Demo.w_answers)
    = (Ok out, d')
    /\ sublist (map Label out) ["Seg1"; "Seg2"]
    /\ channelConstruct d' = ∅.
Proof.
  destruct (processQuery_entries_from_segments Some Demo.url
              (Demo.getWebID ["Base|Seg1"]) Demo.q_attr Demo.q_attr "uid"
              (Demo.ds Demo.w_answers) eq_refl eq_refl)
    as (out & d' & H1 & H2 & _ & _ & H5).
  exists out, d'. split_and!; [exact H1|exact H2|exact H5].
Defined.

(** ** The lookups a query makes *)

Section LookupTrace.

Context {World DataQuery : Type}.
Context (decodeQuery : DataQuery -> option Query).
Context (settingsURL : string).
Context (getWebID : string -> bool -> World -> option string * World).

Lemma processTargets_trace (q : Query) (uid base : string) (targets : list string) :
  getBasePath (q_Pi q) = Ok base ->
  forall resp (d : Datasource (World * list string)),
    let traced :=
      processTargets (World * list string) settingsURL (traced_getWebID getWebID)
        q uid targets resp d in
    let plain :=
      processTargets World settingsURL getWebID q uid targets resp (without_trace d) in
    fst traced = fst plain
    /\ without_trace (snd traced) = snd plain
    /\ trace_of (snd traced)
       = trace_of d ++ map (fun s => base +:+ path_separator q +:+ s) targets.
Proof.
  intros Hbase. induction targets as [|target rest IH]; intros resp d; cbv zeta.
  - cbn. by rewrite List.app_nil_r.
  - rewrite (processTargets_step settingsURL (traced_getWebID getWebID)
               q uid target rest resp d base Hbase).
    rewrite (processTargets_step settingsURL getWebID
               q uid target rest resp (without_trace d) base Hbase).
    unfold traced_getWebID. cbn [without_trace world channelConstruct].
    destruct (getWebID (base +:+ path_separator q +:+ target)
                (pi_IsPiPoint (q_Pi q)) (fst (world d))) as [r w'].
    cbn [fst snd].
    match goal with
    | |- context [processTargets _ _ _ q uid rest ?resp' ?d'] =>
        destruct (IH resp' d') as (H1 & H2 & H3)
    end.
    cbn [without_trace world channelConstruct fst snd] in H2.
    split_and!; [exact H1|exact H2|].
    etransitivity; [exact H3|]. unfold trace_of. cbn [world snd map].
    by rewrite <- List.app_assoc.
Qed.

(** X11. The lookups of a query.  Run with [getWebID] recording the
    paths it is asked for, [processQuery] behaves as it does without
    the recording and makes exactly these calls: none for a query that
    does not decode or whose target has no [;] (it faults before the
    first lookup), otherwise one per segment of the target, in the
    target's order, for base, separator and segment, also after a
    lookup has failed. *)
Theorem lookups_one_per_segment (dq : DataQuery) (uid : string)
    (d : Datasource (World * list string)) :
  let traced :=
    processQuery (World * list string) DataQuery decodeQuery settingsURL
      (traced_getWebID getWebID) dq uid d in
  let plain :=
    processQuery World DataQuery decodeQuery settingsURL getWebID dq uid
      (without_trace d) in
  fst traced = fst plain
  /\ without_trace (snd traced) = snd plain
  /\ trace_of (snd traced)
     = trace_of d
       ++ match decodeQuery dq with
          | None => []
          | Some q =>
              if Str.mem ";" (pi_Target (q_Pi q)) then
                map (fun s => Str.before ";" (pi_Target (q_Pi q))
                                +:+ (if pi_IsPiPoint (q_Pi q) then "\" else "|") +:+ s)
                  (Str.Split (Str.after ";" (pi_Target (q_Pi q))) ";")
              else []
          end.
Proof.
  cbv zeta. destruct (decodeQuery dq) as [q|] eqn:Hdec.
  - destruct (Str.mem ";" (pi_Target (q_Pi q))) eqn:Hsep.
    + rewrite !(processQuery_with_separator decodeQuery settingsURL _ dq q uid _
                  Hdec Hsep).
      apply (processTargets_trace q uid _ _ (getBasePath_ok _ Hsep)).
    + rewrite !(processQuery_without_separator decodeQuery settingsURL _ dq q uid _
                  Hdec Hsep).
      cbn. by rewrite List.app_nil_r.
  - rewrite !(processQuery_undecodable decodeQuery settingsURL _ dq uid _ Hdec).
    cbn. by rewrite List.app_nil_r.
Qed.

End LookupTrace.

(** ** What [batchRequest] changes *)

Lemma UnmarshalJSON_fault (data : json) (msg : string) :
  UnmarshalJSON data = Panic msg -> msg = index_fault.
Proof.
  unfold UnmarshalJSON. cbv zeta.
  destruct (dec_rawData data) as [rawData|]; [|discriminate].
  destruct (map_get "Content" rawData) as [[| | | | |content]|]; try discriminate.
  destruct (negb _); [by destruct (dec_ErrorResponse content)|].
  destruct (map_get "Items" content) as [[| | | |items|]|]; try discriminate.
  destruct items as [|[| | | | |item] rest]; try discriminate; [by intros [= <-]|].
  destruct (map_get "WebId" item) as [[| | |s| |]|];
    first [by destruct (dec_WithSubItems content)
          |by destruct (dec_WithoutSubItems content)].
Qed.

Lemma decode_entries_fault (fields : list (string * json)) (msg : string) :
  forall m failed, decode_entries fields m failed = Panic msg -> msg = index_fault.
Proof.
  induction fields as [|[k v] rest IH]; intros m failed; [by destruct failed|].
  cbn [decode_entries].
  destruct (UnmarshalJSON v) as [[p [e|]]|msg'] eqn:Hv; [done| |].
  - destruct (ParseInt k); apply IH.
  - intros [= <-]. by apply (UnmarshalJSON_fault v).
Qed.

Lemma decode_tempresponse_fault (body : option json) (msg : string) :
  decode_tempresponse body = Panic msg -> msg = index_fault.
Proof.
  destruct body as [[| | | | | |fields]|]; try discriminate.
  apply decode_entries_fault.
Qed.

Lemma set_responses_same_entry (tempresponse : gmap Z PIBatchResponse)
    (processed : list PiProcessedQuery) :
  Forall2 same_entry processed (set_responses tempresponse processed).
Proof.
  apply Forall2_same_length_lookup. split.
  - unfold set_responses. by rewrite length_imap.
  - intros i p p' Hp. rewrite set_responses_lookup, Hp. by intros [= <-].
Qed.

Lemma same_entry_refl (p : PiProcessedQuery) : same_entry p p.
Proof. by destruct p. Qed.

Section BatchMore.

Context {World : Type}.
Context (apiBatchRequest :
           gmap string BatchSubRequest -> World -> option (option json) * World).
Context (range_order :
           gmap string (list PiProcessedQuery) -> World ->
           list (string * list PiProcessedQuery) * World).

Hypothesis range_order_perm :
  forall m w, fst (range_order m w) ≡ₚ map_to_list m.

Local Abbreviation batchRequest_loop := (batchRequest_loop World apiBatchRequest).
Local Abbreviation batchRequest := (batchRequest World apiBatchRequest range_order).

(** [m] holds the entries of [m0], responses apart. *)
Local Abbreviation entries_kept m0 m :=
  (dom m = dom m0
   /\ forall k l, m0 !! k = Some l ->
        exists l', m !! k = Some l' /\ Forall2 same_entry l l').

Lemma batchRequest_loop_keeps (m0 : gmap string (list PiProcessedQuery))
    (entries : list (string * list PiProcessedQuery)) :
  (forall k l, (k, l) ∈ entries -> m0 !! k = Some l) ->
  forall m d,
    entries_kept m0 m ->
    channelConstruct (snd (batchRequest_loop entries m d)) = channelConstruct d
    /\ (forall msg, fst (batchRequest_loop entries m d) = Panic msg -> msg = index_fault)
    /\ (forall m', fst (batchRequest_loop entries m d) = Ok m' -> entries_kept m0 m').
Proof.
  induction entries as [|[RefID processed] entries IH]; intros Hin m d Hm.
  - split_and!; [done|done|]. simpl. by intros m' [= <-].
  - assert (Hrest : forall k l, (k, l) ∈ entries -> m0 !! k = Some l)
      by (intros k l H; apply Hin; by right).
    assert (Hhead : m0 !! RefID = Some processed) by (apply Hin; by left).
    loop_step. unfold bind, call, lift.
    destruct (apiBatchRequest (build_batch processed) (world d)) as [[body|] w].
    + destruct (decode_tempresponse body) as [[tempresponse|]|msg] eqn:Hbody.
      * edestruct (IH Hrest) as (Hreg & Hfault & Hok);
          [|split_and!; [by rewrite Hreg|exact Hfault|exact Hok]].
        destruct Hm as [Hdom Hm]. split.
        -- rewrite dom_insert_L, Hdom. apply subseteq_union_1_L.
           apply singleton_subseteq_l. by apply elem_of_dom_2 in Hhead.
        -- intros k l Hk. destruct (decide (k = RefID)) as [->|Hne].
           ++ rewrite lookup_insert_eq. eexists. split; [done|].
              rewrite Hhead in Hk. injection Hk as <-.
              apply set_responses_same_entry.
           ++ rewrite lookup_insert_ne by done. by apply Hm.
      * destruct (IH Hrest m (mkDatasource w (channelConstruct d)) Hm)
          as (Hreg & Hfault & Hok).
        split_and!; [by rewrite Hreg|exact Hfault|exact Hok].
      * split_and!; [done| |done]. intros msg' [= <-].
        by apply (decode_tempresponse_fault body).
    + destruct (IH Hrest m (mkDatasource w (channelConstruct d)) Hm)
        as (Hreg & Hfault & Hok).
      split_and!; [by rewrite Hreg|exact Hfault|exact Hok].
Qed.

Lemma batchRequest_kept (m : gmap string (list PiProcessedQuery))
    (d : Datasource World) :
  channelConstruct (snd (batchRequest m d)) = channelConstruct d
  /\ (forall msg, fst (batchRequest m d) = Panic msg -> msg = index_fault)
  /\ (forall m', fst (batchRequest m d) = Ok m' -> entries_kept m m').
Proof.
  unfold_batchRequest. unfold bind, call.
  assert (Hin : forall k l, (k, l) ∈ fst (range_order m (world d)) -> m !! k = Some l).
  { intros k l. rewrite range_order_perm. apply elem_of_map_to_list. }
  destruct (range_order m (world d)) as [entries w]. cbn [fst] in Hin.
  apply (batchRequest_loop_keeps m entries Hin m (mkDatasource w (channelConstruct d))).
  split; [done|]. intros k l Hk. exists l. split; [done|].
  apply Forall2_same_length_lookup. split; [done|].
  intros i p p' Hp. rewrite Hp. intros [= <-]. apply same_entry_refl.
Qed.

(** X12. [batchRequest] only fills in responses: it never writes the
    channel registry; the one fault it can raise is the classifier's
    index fault; and when it returns, the map has the RefIDs it had,
    each with as many entries as before, every one the entry it was
    but for its response. *)
Theorem batchRequest_keeps_entries (m : gmap string (list PiProcessedQuery))
    (d : Datasource World) :
  channelConstruct (snd (batchRequest m d)) = channelConstruct d
  /\ (forall msg, fst (batchRequest m d) = Panic msg ->
        msg = "index out of range [0] with length 0")
  /\ (forall m', fst (batchRequest m d) = Ok m' ->
        dom m' = dom m
        /\ forall k l, m !! k = Some l ->
             exists l', m' !! k = Some l' /\ length l' = length l
               /\ forall i p p', l !! i = Some p -> l' !! i = Some p' ->
                    p' = set_Response p (Response p')).
Proof.
  destruct (batchRequest_kept m d) as (Hreg & Hfault & Hok).
  split_and!; [exact Hreg|exact Hfault|].
  intros m' Hm'. destruct (Hok m' Hm') as [Hdom Hkept]. split; [exact Hdom|].
  intros k l Hl. destruct (Hkept k l Hl) as (l' & Hl' & Hall).
  exists l'. split_and!; [exact Hl'|by rewrite (Forall2_length _ _ _ Hall)|].
  intros i p p' Hp Hp'. by apply (Forall2_lookup_lr _ _ _ _ _ _ Hall Hp Hp').
Qed.

End BatchMore.

Lemma batchRequest_keeps_entries_witness :
  let m : gmap string (list PiProcessedQuery) :=
    {[ "A" := [mkEntry Demo.url Demo.q_attr "uid" "Seg1" "Base|Seg1" "W:Base|Seg1"] ]} in
  (forall m w, fst (Demo.range_order m w) ≡ₚ map_to_list m)
  /\ forall m',
       fst (batchRequest Demo.World Demo.apiBatchRequest Demo.range_order m
              (Demo.ds Demo.w_answers)) = Ok m' ->
       dom m' = dom m.
Proof.
  intros m.
  assert (H : forall m w, fst (Demo.range_order m w) ≡ₚ map_to_list m) by done.
  split; [exact H|]. intros m' Hm'.
  exact (proj1 (proj2 (proj2 (batchRequest_keeps_entries Demo.apiBatchRequest
                                Demo.range_order H m (Demo.ds Demo.w_answers)))
                  m' Hm')).
Defined.

(** ** The batch calls of a request *)

Section BatchTrace.

Context {World : Type}.
Context (apiBatchRequest :
           gmap string BatchSubRequest -> World -> option (option json) * World).
Context (range_order :
           gmap string (list PiProcessedQuery) -> World ->
           list (string * list PiProcessedQuery) * World).

Hypothesis range_order_perm :
  forall m w, fst (range_order m w) ≡ₚ map_to_list m.

Local Abbreviation Batch := (gmap string BatchSubRequest).

Lemma batchRequest_loop_trace (entries : list (string * list PiProcessedQuery)) :
  forall m (d : Datasource (World * list Batch)),
    let traced :=
      batchRequest_loop (World * list Batch) (traced_apiBatchRequest apiBatchRequest)
        entries m d in
    let plain := batchRequest_loop World apiBatchRequest entries m (without_trace d) in
    fst traced = fst plain
    /\ without_trace (snd traced) = snd plain
    /\ exists visited,
         visited `prefix_of` entries
         /\ trace_of (snd traced)
            = trace_of d ++ map (fun e => build_batch (snd e)) visited
         /\ (is_Ok (fst traced) = true -> visited = entries).
Proof.
  induction entries as [|[RefID processed] entries IH]; intros m d; cbv zeta.
  - split_and!; [done|done|]. exists []. cbn. by rewrite List.app_nil_r.
  - loop_step. unfold bind, call, lift, traced_apiBatchRequest.
    cbn [without_trace world channelConstruct].
    destruct (apiBatchRequest (build_batch processed) (fst (world d))) as [r w'].
    assert (Hnext : forall m',
              let d' := mkDatasource (w', snd (world d) ++ [build_batch processed])
                          (channelConstruct d) in
              let traced :=
                batchRequest_loop (World * list Batch)
                  (traced_apiBatchRequest apiBatchRequest) entries m' d' in
              let plain :=
                batchRequest_loop World apiBatchRequest entries m'
                  (mkDatasource w' (channelConstruct d)) in
              fst traced = fst plain
              /\ without_trace (snd traced) = snd plain
              /\ exists visited,
                   visited `prefix_of` (RefID, processed) :: entries
                   /\ trace_of (snd traced)
                      = trace_of d ++ map (fun e => build_batch (snd e)) visited
                   /\ (is_Ok (fst traced) = true
                       -> visited = (RefID, processed) :: entries)).
    { intros m'. cbv zeta.
      destruct (IH m' (mkDatasource (w', snd (world d) ++ [build_batch processed])
                         (channelConstruct d)))
        as (H1 & H2 & visited & Hpre & Htrace & Hall).
      split_and!; [exact H1|exact H2|].
      exists ((RefID, processed) :: visited). split_and!.
      - by apply prefix_cons.
      - rewrite Htrace. unfold trace_of. cbn [world snd map].
        by rewrite <- List.app_assoc.
      - intros Hok. by rewrite (Hall Hok). }
    destruct r as [body|]; [|apply Hnext].
    destruct (decode_tempresponse body) as [[tempresponse|]|msg]; [apply Hnext..|].
    split_and!; [done|done|].
    exists [(RefID, processed)]. split_and!; [|done|done].
    apply prefix_cons, prefix_nil.
Qed.

(** X13. The batch calls of a request.  Run with [apiBatchRequest]
    recording what it is sent, [batchRequest] behaves as it does
    without the recording; the calls it makes are the batches of the
    map's entries in the order the loop visits them, one call per
    RefID when it returns (also for a RefID without entries, whose
    batch is empty), and none after a fault. *)
Theorem batch_calls_one_per_RefID (m : gmap string (list PiProcessedQuery))
    (d : Datasource (World * list (gmap string BatchSubRequest))) :
  let traced :=
    batchRequest (World * list Batch) (traced_apiBatchRequest apiBatchRequest)
      (untraced range_order) m d in
  let plain := batchRequest World apiBatchRequest range_order m (without_trace d) in
  fst traced = fst plain
  /\ without_trace (snd traced) = snd plain
  /\ exists order visited,
       order ≡ₚ map_to_list m
       /\ visited `prefix_of` order
       /\ trace_of (snd traced)
          = trace_of d ++ map (fun e => build_batch (snd e)) visited
       /\ (is_Ok (fst traced) = true -> visited = order).
Proof.
  cbv zeta. unfold_batchRequest. unfold bind, call, untraced.
  cbn [without_trace world channelConstruct].
  pose proof (range_order_perm m (fst (world d))) as Hperm.
  destruct (range_order m (fst (world d))) as [entries w]. cbn [fst] in Hperm.
  destruct (batchRequest_loop_trace entries m
              (mkDatasource (w, snd (world d)) (channelConstruct d)))
    as (H1 & H2 & visited & Hpre & Htrace & Hall).
  split_and!; [exact H1|exact H2|].
  exists entries, visited. by split_and!.
Qed.

End BatchTrace.

Lemma batch_calls_one_per_RefID_witness :
  let m : gmap string (list PiProcessedQuery) := {[ "A" := [] ]} in
  let traced :=
    batchRequest (Demo.World * list (gmap string BatchSubRequest))
      (traced_apiBatchRequest Demo.apiBatchRequest) (untraced Demo.range_order) m
      (with_trace (Demo.ds Demo.w_answers) []) in
  (forall m w, fst (Demo.range_order m w) ≡ₚ map_to_list m)
  /\ exists order visited,
       order ≡ₚ map_to_list m
       /\ visited `prefix_of` order
       /\ trace_of (snd traced) = map (fun e => build_batch (snd e)) visited
       /\ (is_Ok (fst traced) = true -> visited = order).
Proof.
  intros m traced.
  assert (H : forall m w, fst (Demo.range_order m w) ≡ₚ map_to_list m) by done.
  split; [exact H|].
  destruct (batch_calls_one_per_RefID Demo.apiBatchRequest Demo.range_order H m
              (with_trace (Demo.ds Demo.w_answers) []))
    as (_ & _ & order & visited & H1 & H2 & H3 & H4).
  exists order, visited. split_and!; [exact H1|exact H2|exact H3|exact H4].
Defined.

(** ** The frames of a request *)

Section FramesMore.

Context {World : Type}.
Context {SliceType Fields : Type}.
Context (getTypeForWebID : string -> World -> SliceType).
Context (getDigitalStateforWebID : string -> World -> bool).
Context (convertItemsToDataFrame :
           string -> list PiBatchContentItem -> SliceType -> bool -> bool ->
           Frame Fields * option string).
Context (uuid_New : World -> string * World).
Context (range_order :
           gmap string (list PiProcessedQuery) -> World ->
           list (string * list PiProcessedQuery) * World).

Hypothesis range_order_perm :
  forall m w, fst (range_order m w) ≡ₚ map_to_list m.

Local Abbreviation frames_loop :=
  (frames_loop World SliceType Fields getTypeForWebID getDigitalStateforWebID
     convertItemsToDataFrame uuid_New).
Local Abbreviation responses_loop :=
  (responses_loop World SliceType Fields getTypeForWebID getDigitalStateforWebID
     convertItemsToDataFrame uuid_New).
Local Abbreviation processBatchtoFrames :=
  (processBatchtoFrames World SliceType Fields getTypeForWebID
     getDigitalStateforWebID convertItemsToDataFrame uuid_New range_order).

(** The frame [f] was assembled for the entry [p] of [RefID]. *)
Local Abbreviation frame_of RefID :=
  (fun (p : PiProcessedQuery) (f : Frame Fields) =>
     fr_RefID f = RefID /\ fr_ExecutedQueryString f = Resource (BatchRequest p)).

(** The channel [c] is the one registered for a streamable entry of [query]. *)
Local Abbreviation channel_of query c :=
  (exists p : PiProcessedQuery,
     p ∈ query /\ Streamable p = true
     /\ c = mkStreamChannelConstruct (WebID p) (IntervalNanoSeconds p)).

Lemma frames_loop_resolved (RefID : string) (query : list PiProcessedQuery) :
  Forall resolved query ->
  forall frames d,
    exists added d',
      frames_loop RefID query frames d = (Ok (frames ++ added), d')
      /\ Forall2 (frame_of RefID) query added.
Proof.
  induction query as [|q query IH]; intros Hall frames d.
  - exists [], d. rewrite List.app_nil_r. by split.
  - apply Forall_cons in Hall as [(r & Hr & Hitems) Hall].
    assert (Hnext : forall f d1,
              fr_RefID f = RefID ->
              fr_ExecutedQueryString f = Resource (BatchRequest q) ->
              exists added d',
                frames_loop RefID query (frames ++ [f]) d1 = (Ok (frames ++ added), d')
                /\ Forall2 (frame_of RefID) (q :: query) added).
    { intros f d1 Hf1 Hf2.
      destruct (IH Hall (frames ++ [f]) d1) as (added & d' & Hrun & Hframes).
      exists (f :: added), d'. split; [by rewrite Hrun, <- List.app_assoc|].
      by apply Forall2_cons. }
    loop_step. unfold bind, read, lift, response_items. rewrite Hr.
    destruct (getItems r) as [items|msg]; [|done].
    destruct (convertItemsToDataFrame _ _ _ _ _) as [frame [err|]].
    + by apply Hnext.
    + destruct (Streamable q); [|by apply Hnext].
      unfold call, register. destruct (uuid_New (world d)) as [u w].
      by apply Hnext.
Qed.

Lemma frames_loop_registry (RefID : string) (query : list PiProcessedQuery) :
  forall frames d,
    let d' := snd (frames_loop RefID query frames d) in
    dom (channelConstruct d) ⊆ dom (channelConstruct d')
    /\ forall key c,
         channelConstruct d' !! key = Some c ->
         channelConstruct d !! key = Some c \/ channel_of query c.
Proof.
  induction query as [|q query IH]; intros frames d; cbv zeta.
  - split; [done|]. intros key c H. by left.
  - assert (Hnext : forall fs w,
              let d' := snd (frames_loop RefID query fs
                               (mkDatasource w (channelConstruct d))) in
              dom (channelConstruct d) ⊆ dom (channelConstruct d')
              /\ forall key c,
                   channelConstruct d' !! key = Some c ->
                   channelConstruct d !! key = Some c \/ channel_of (q :: query) c).
    { intros fs w. cbv zeta.
      destruct (IH fs (mkDatasource w (channelConstruct d))) as [Hdom Hreg].
      split; [exact Hdom|]. intros key c Hc.
      destruct (Hreg key c Hc) as [Hold|(p & Hp & Hs & ->)]; [by left|].
      right. exists p. split_and!; [by right|done|done]. }
    loop_step. unfold bind, read, lift.
    destruct (response_items q) as [items|msg]; [|split; [done|by left]].
    destruct (convertItemsToDataFrame _ _ _ _ _) as [frame [err|]].
    + destruct d as [w reg]. apply (Hnext _ w).
    + destruct (Streamable q) eqn:Hq; [|destruct d as [w reg]; apply (Hnext _ w)].
      unfold call, register. destruct (uuid_New (world d)) as [u w].
      cbn [world channelConstruct].
      match goal with
      | |- context [frames_loop RefID query ?fs ?d1] =>
          destruct (IH fs d1) as [Hdom Hreg]
      end.
      cbn [channelConstruct] in Hdom, Hreg. split.
      * etransitivity; [|exact Hdom]. rewrite dom_insert. apply union_subseteq_r.
      * intros key c Hc. destruct (Hreg key c Hc) as [Hold|(p & Hp & Hs & ->)].
        -- destruct (decide (key = u)) as [->|Hne].
           ++ rewrite lookup_insert_eq in Hold. injection Hold as <-.
              right. exists q. split_and!; [by left|done|done].
           ++ rewrite lookup_insert_ne in Hold by done. by left.
        -- right. exists p. split_and!; [by right|done|done].
Qed.

Lemma responses_loop_resolved (entries : list (string * list PiProcessedQuery)) :
  Forall (fun e => Forall resolved (snd e)) entries ->
  forall response d,
    exists response' d',
      responses_loop entries response d = (Ok response', d')
      /\ (forall k, is_Some (response' !! k)
                    <-> is_Some (response !! k) \/ k ∈ entries.*1)
      /\ forall k frames,
           response' !! k = Some frames ->
           response !! k = Some frames
           \/ exists l, (k, l) ∈ entries /\ Forall2 (frame_of k) l frames.
Proof.
  induction entries as [|[RefID query] entries IH]; intros Hall response d.
  - exists response, d. split_and!; [done| |by left].
    intros k. split; [by left|]. intros [H|H]; [done|]. by apply elem_of_nil in H.
  - apply Forall_cons in Hall as [Hhead Hall]. cbn [snd] in Hhead.
    loop_step. unfold bind.
    destruct (frames_loop_resolved RefID query Hhead [] d) as (frames & d1 & Hrun & Hfr).
    rewrite Hrun. cbn [app].
    destruct (IH Hall (<[RefID := frames]> response) d1)
      as (response' & d' & Hloop & Hkeys & Hvals).
    exists response', d'. split_and!; [exact Hloop| |].
    + intros k. rewrite Hkeys, fmap_cons. cbn [fst]. rewrite elem_of_cons.
      destruct (decide (k = RefID)) as [->|Hne].
      * rewrite lookup_insert_eq. split; [intros _; right; by left|by left].
      * rewrite lookup_insert_ne by done.
        split; [intros [H|H]; [by left|right; by right]
               |intros [H|[H|H]]; [by left|done|by right]].
    + intros k fs Hk. destruct (Hvals k fs Hk) as [Hins|(l & Hl & Hfs)].
      * destruct (decide (k = RefID)) as [->|Hne].
        -- rewrite lookup_insert_eq in Hins. injection Hins as <-.
           right. exists query. split; [by left|done].
        -- rewrite lookup_insert_ne in Hins by done. by left.
      * right. exists l. split; [by right|done].
Qed.

Lemma responses_loop_registry (entries : list (string * list PiProcessedQuery)) :
  forall response d,
    let d' := snd (responses_loop entries response d) in
    dom (channelConstruct d) ⊆ dom (channelConstruct d')
    /\ forall key c,
         channelConstruct d' !! key = Some c ->
         channelConstruct d !! key = Some c
         \/ exists k l, (k, l) ∈ entries /\ channel_of l c.
Proof.
  induction entries as [|[RefID query] entries IH]; intros response d; cbv zeta.
  - split; [done|]. intros key c H. by left.
  - loop_step. unfold bind.
    destruct (frames_loop_registry RefID query [] d) as [Hdom1 Hreg1].
    destruct (frames_loop RefID query [] d) as [[frames|msg] d1]; cbn [snd] in *.
    + destruct (IH (<[RefID := frames]> response) d1) as [Hdom Hreg].
      split; [by etransitivity|].
      intros key c Hc. destruct (Hreg key c Hc) as [Hmid|(k & l & Hl & Hch)].
      * destruct (Hreg1 key c Hmid) as [Hold|Hch]; [by left|].
        right. exists RefID, query. split; [by left|done].
      * right. exists k, l. split; [by right|done].
    + split; [done|]. intros key c Hc.
      destruct (Hreg1 key c Hc) as [Hold|Hch]; [by left|].
      right. exists RefID, query. split; [by left|done].
Qed.

(** The channels [processBatchtoFrames] may register. *)
Lemma processBatchtoFrames_registry (m : gmap string (list PiProcessedQuery))
    (d : Datasource World) :
  let d' := snd (processBatchtoFrames m d) in
  dom (channelConstruct d) ⊆ dom (channelConstruct d')
  /\ forall key c,
       channelConstruct d' !! key = Some c ->
       channelConstruct d !! key = Some c
       \/ exists k l, m !! k = Some l /\ channel_of l c.
Proof.
  cbv zeta. unfold_processBatchtoFrames. unfold bind, call.
  pose proof (range_order_perm m (world d)) as Hperm.
  destruct (range_order m (world d)) as [entries w]. cbn [fst] in Hperm.
  destruct (responses_loop_registry entries ∅ (mkDatasource w (channelConstruct d)))
    as [Hdom Hreg].
  split; [exact Hdom|]. intros key c Hc.
  destruct (Hreg key c Hc) as [Hold|(k & l & Hl & Hch)]; [by left|].
  right. exists k, l. split; [|done].
  rewrite Hperm in Hl. by apply elem_of_map_to_list in Hl.
Qed.

(** Entries with readable responses are all turned into frames. *)
Lemma processBatchtoFrames_resolved (m : gmap string (list PiProcessedQuery))
    (d : Datasource World) :
  map_Forall (fun _ l => Forall resolved l) m ->
  exists response d',
    processBatchtoFrames m d = (Ok response, d')
    /\ dom response = dom m
    /\ forall k l, m !! k = Some l ->
         exists frames, response !! k = Some frames /\ Forall2 (frame_of k) l frames.
Proof.
  intros Hm. unfold_processBatchtoFrames. unfold bind, call.
  pose proof (range_order_perm m (world d)) as Hperm.
  destruct (range_order m (world d)) as [entries w]. cbn [fst] in Hperm.
  assert (Hin : forall k l, (k, l) ∈ entries <-> m !! k = Some l).
  { intros k l. rewrite Hperm. apply elem_of_map_to_list. }
  assert (Hall : Forall (fun e => Forall resolved (snd e)) entries).
  { apply Forall_forall. intros [k l] Hkl. apply Hin in Hkl. by apply (Hm k l). }
  destruct (responses_loop_resolved entries Hall ∅ (mkDatasource w (channelConstruct d)))
    as (response & d' & Hrun & Hkeys & Hvals).
  assert (Hdom : forall k, is_Some (response !! k) <-> is_Some (m !! k)).
  { intros k. rewrite Hkeys, lookup_empty, list_elem_of_fmap. split.
    - intros [[? [=]]|([k' l] & -> & Hl)]. apply Hin in Hl. by eexists.
    - intros [l Hl]. right. exists (k, l). split; [done|by apply Hin]. }
  exists response, d'. split_and!; [exact Hrun| |].
  - apply set_eq. intros k. by rewrite !elem_of_dom.
  - intros k l Hl. destruct (proj2 (Hdom k)) as [frames Hframes]; [by eexists|].
    exists frames. split; [done|].
    destruct (Hvals k frames Hframes) as [Hemp|(l' & Hl' & Hfs)]; [done|].
    apply Hin in Hl'. rewrite Hl in Hl'. by injection Hl' as <-.
Qed.

(** X14. When every entry has a response whose items can be read,
    [processBatchtoFrames] returns, with the RefIDs of the map as the
    keys of the response and, under each, one frame per entry in the
    entries' order, carrying the RefID and the entry's request URL as
    executed query string, also for an entry the converter reports an
    error for. *)
Theorem frames_for_resolved_entries (m : gmap string (list PiProcessedQuery))
    (d : Datasource World) :
  map_Forall (fun _ l => Forall resolved l) m ->
  exists response d',
    processBatchtoFrames m d = (Ok response, d')
    /\ dom response = dom m
    /\ forall k l, m !! k = Some l ->
         exists frames,
           response !! k = Some frames
           /\ length frames = length l
           /\ forall i p f, l !! i = Some p -> frames !! i = Some f ->
                fr_RefID f = k
                /\ fr_ExecutedQueryString f = Resource (BatchRequest p).
Proof.
  intros Hm.
  destruct (processBatchtoFrames_resolved m d Hm) as (response & d' & Hrun & Hdom & Hfs).
  exists response, d'. split_and!; [exact Hrun|exact Hdom|].
  intros k l Hl. destruct (Hfs k l Hl) as (frames & Hk & Hall).
  exists frames. split_and!; [exact Hk|by rewrite (Forall2_length _ _ _ Hall)|].
  intros i p f Hp Hf. by apply (Forall2_lookup_lr _ _ _ _ _ _ Hall Hp Hf).
Qed.

(** X15. Whatever the outcome of [processBatchtoFrames], every key the
    channel registry had is still there, and every channel in it was
    either there before or is the WebID and the interval of an entry
    of the map that is streamable. *)
Theorem only_streamable_entries_registered (m : gmap string (list PiProcessedQuery))
    (d : Datasource World) :
  let d' := snd (processBatchtoFrames m d) in
  dom (channelConstruct d) ⊆ dom (channelConstruct d')
  /\ forall key c,
       channelConstruct d' !! key = Some c ->
       channelConstruct d !! key = Some c
       \/ exists k l p,
            m !! k = Some l /\ p ∈ l /\ Streamable p = true
            /\ sc_WebID c = WebID p
            /\ sc_IntervalNanoSeconds c = IntervalNanoSeconds p.
Proof.
  cbv zeta. destruct (processBatchtoFrames_registry m d) as [Hdom Hreg].
  split; [exact Hdom|]. intros key c Hc.
  destruct (Hreg key c Hc) as [Hold|(k & l & Hl & p & Hp & Hs & ->)]; [by left|].
  right. by exists k, l, p.
Qed.

End FramesMore.

Lemma frames_for_resolved_entries_witness :
  let p :=
    set_Response (mkEntry Demo.url Demo.q_attr "uid" "Seg1" "Base|Seg1" "W1")
      (Some (createPiBatchDataError [])) in
  let m : gmap string (list PiProcessedQuery) := {[ "A" := [p] ]} in
  (forall m w, fst (Demo.range_order m w) ≡ₚ map_to_list m)
  /\ map_Forall (fun _ l => Forall resolved l) m
  /\ exists response d',
       processBatchtoFrames Demo.World unit (list PiBatchContentItem)
         (fun _ _ => tt) (fun _ _ => false) Demo.convertItemsToDataFrame
         Demo.uuid_New Demo.range_order m (Demo.ds Demo.w_answers)
       = (Ok response, d')
       /\ dom response = dom m.
Proof.
  intros p m.
  assert (H : forall m w, fst (Demo.range_order m w) ≡ₚ map_to_list m) by done.
  assert (Hm : map_Forall (fun _ l => Forall resolved l) m).
  { apply map_Forall_singleton. apply Forall_singleton. by eexists. }
  split_and!; [exact H|exact Hm|].
  destruct (frames_for_resolved_entries (fun _ _ => tt) (fun _ _ => false)
              Demo.convertItemsToDataFrame Demo.uuid_New Demo.range_order H m
              (Demo.ds Demo.w_answers) Hm)
    as (response & d' & H1 & H2 & _).
  by exists response, d'.
Defined.

Lemma only_streamable_entries_registered_witness :
  let p :=
    set_Response (mkEntry Demo.url Demo.q_attr "uid" "Seg1" "Base|Seg1" "W1")
      (Some (createPiBatchDataError [])) in
  let m : gmap string (list PiProcessedQuery) := {[ "A" := [p] ]} in
  let d' :=
    snd (processBatchtoFrames Demo.World unit (list PiBatchContentItem)
           (fun _ _ => tt) (fun _ _ => false) Demo.convertItemsToDataFrame
           Demo.uuid_New Demo.range_order m (Demo.ds Demo.w_answers)) in
  (forall m w, fst (Demo.range_order m w) ≡ₚ map_to_list m)
  /\ forall key c,
       channelConstruct d' !! key = Some c ->
       sc_WebID c = "W1" /\ sc_IntervalNanoSeconds c = 1000.
Proof.
  intros p m d'.
  assert (H : forall m w, fst (Demo.range_order m w) ≡ₚ map_to_list m) by done.
  split; [exact H|]. intros key c Hc.
  destruct (only_streamable_entries_registered (fun _ _ => tt) (fun _ _ => false)
              Demo.convertItemsToDataFrame Demo.uuid_New Demo.range_order H m
              (Demo.ds Demo.w_answers)) as [_ Hreg].
  destruct (Hreg key c Hc) as [Hold|(k & l & q & Hl & Hq & _ & Hw & Hi)]; [done|].
  apply lookup_singleton_Some in Hl as [_ <-].
  apply list_elem_of_singleton in Hq as ->. by rewrite Hw, Hi.
Defined.

(** ** A request that is answered *)

Lemma decode_entries_answered (fields : list (string * json)) :
  Forall member_answers fields ->
  forall m : gmap Z PIBatchResponse,
    (forall n p, m !! n = Some p ->
       exists r, Content p = Some r /\ is_Ok (getItems r) = true) ->
    exists m',
      decode_entries fields m false = Ok (Some m')
      /\ (forall n p, m' !! n = Some p ->
            exists r, Content p = Some r /\ is_Ok (getItems r) = true)
      /\ (forall n, is_Some (m !! n) -> is_Some (m' !! n))
      /\ (forall k v n, (k, v) ∈ fields -> ParseInt k = Some n -> is_Some (m' !! n)).
Proof.
  induction fields as [|[k v] rest IH]; intros Hok m Hm.
  - exists m. split_and!; [done|done|done|]. intros k v n H. by apply elem_of_nil in H.
  - apply Forall_cons in Hok as [[[n0 Hk] (p0 & r0 & Hv & Hp0 & Hr0)] Hrest].
    cbn [fst snd] in Hk, Hv.
    destruct (IH Hrest (<[n0 := p0]> m)) as (m' & Hrun & Hcontent & Hmono & Hkeys).
    { intros n p. destruct (decide (n = n0)) as [->|Hne].
      - rewrite lookup_insert_eq. intros [= <-]. by exists r0.
      - rewrite lookup_insert_ne by done. apply Hm. }
    exists m'. split_and!; [cbn [decode_entries]; by rewrite Hv, Hk|exact Hcontent| |].
    + intros n Hn. apply Hmono. destruct (decide (n = n0)) as [->|Hne].
      * by rewrite lookup_insert_eq.
      * by rewrite lookup_insert_ne.
    + intros k' v' n Hin Hk'. apply elem_of_cons in Hin as [[= -> ->]|Hin].
      * apply Hmono. rewrite Hk in Hk'. injection Hk' as <-.
        by rewrite lookup_insert_eq.
      * by apply (Hkeys k' v').
Qed.

Lemma set_responses_resolved (tempresponse : gmap Z PIBatchResponse)
    (processed : list PiProcessedQuery) :
  (forall n p, tempresponse !! n = Some p ->
     exists r, Content p = Some r /\ is_Ok (getItems r) = true) ->
  (forall i, (i < length processed)%nat -> is_Some (tempresponse !! Z.of_nat i)) ->
  Forall resolved (set_responses tempresponse processed).
Proof.
  intros Hcontent Hkeys. apply Forall_lookup. intros i q.
  rewrite set_responses_lookup. destruct (processed !! i) as [p|] eqn:Hp; [|done].
  intros [= <-]. destruct (Hkeys i) as [resp Hresp]; [by apply lookup_lt_Some in Hp|].
  destruct (Hcontent _ _ Hresp) as (r & Hr & Hitems).
  exists r. split; [|done]. cbn. by rewrite Hresp, <- Hr.
Qed.

Section QueryMore.

Context {World DataQuery : Type}.
Context (dq_RefID : DataQuery -> string).
Context (decodeQuery : DataQuery -> option Query).
Context (settingsURL : string).
Context (getWebID : string -> bool -> World -> option string * World).
Context (apiBatchRequest :
           gmap string BatchSubRequest -> World -> option (option json) * World).
Context {SliceType Fields : Type}.
Context (getTypeForWebID : string -> World -> SliceType).
Context (getDigitalStateforWebID : string -> World -> bool).
Context (convertItemsToDataFrame :
           string -> list PiBatchContentItem -> SliceType -> bool -> bool ->
           Frame Fields * option string).
Context (uuid_New : World -> string * World).
Context (range_order :
           gmap string (list PiProcessedQuery) -> World ->
           list (string * list PiProcessedQuery) * World).

Hypothesis range_order_perm :
  forall m w, fst (range_order m w) ≡ₚ map_to_list m.

Local Abbreviation processTargets := (processTargets World settingsURL getWebID).
Local Abbreviation processQuery :=
  (processQuery World DataQuery decodeQuery settingsURL getWebID).
Local Abbreviation batchRequest_loop := (batchRequest_loop World apiBatchRequest).
Local Abbreviation batchRequest := (batchRequest World apiBatchRequest range_order).
Local Abbreviation frames_loop :=
  (frames_loop World SliceType Fields getTypeForWebID getDigitalStateforWebID
     convertItemsToDataFrame uuid_New).
Local Abbreviation responses_loop :=
  (responses_loop World SliceType Fields getTypeForWebID getDigitalStateforWebID
     convertItemsToDataFrame uuid_New).
Local Abbreviation processBatchtoFrames :=
  (processBatchtoFrames World SliceType Fields getTypeForWebID
     getDigitalStateforWebID convertItemsToDataFrame uuid_New range_order).
Local Abbreviation processQueries :=
  (processQueries World DataQuery dq_RefID decodeQuery settingsURL getWebID).
Local Abbreviation QueryData :=
  (QueryData World DataQuery dq_RefID decodeQuery settingsURL getWebID
     apiBatchRequest SliceType Fields getTypeForWebID getDigitalStateforWebID
     convertItemsToDataFrame uuid_New range_order).

(** The entry [p] was built for the query [dq]. *)
Local Abbreviation entry_from dq :=
  (fun p : PiProcessedQuery =>
     exists q, decodeQuery dq = Some q
               /\ Streamable p = isStreamable q
               /\ IntervalNanoSeconds p = q_Interval q).

Lemma processQuery_out (dq : DataQuery) (uid : string) (d d' : Datasource World)
    (out : list PiProcessedQuery) :
  processQuery dq uid d = (Ok out, d') ->
  Forall (entry_from dq) out
  /\ forall q, decodeQuery dq = Some q ->
       Str.mem ";" (pi_Target (q_Pi q)) = true
       /\ (length out <= length (Str.Split (Str.after ";" (pi_Target (q_Pi q))) ";"))%nat.
Proof.
  destruct (decodeQuery dq) as [q|] eqn:Hdec.
  - destruct (Str.mem ";" (pi_Target (q_Pi q))) eqn:Hsep.
    + rewrite (processQuery_with_separator decodeQuery settingsURL getWebID dq q uid d
                 Hdec Hsep).
      destruct (processTargets_entries settingsURL getWebID q uid _
                  (Str.Split (Str.after ";" (pi_Target (q_Pi q))) ";")
                  (getBasePath_ok _ Hsep) [] d)
        as (added & d1 & Hrun & Hsub & Hall & _).
      rewrite Hrun. intros [= <- <-]. split.
      * eapply Forall_impl; [exact Hall|]. intros p Hp. exists q. by rewrite Hp.
      * intros q' [= <-]. split; [done|].
        apply sublist_length in Hsub. by rewrite length_map in Hsub.
    + by rewrite (processQuery_without_separator decodeQuery settingsURL getWebID dq q
                    uid d Hdec Hsep).
  - rewrite (processQuery_undecodable decodeQuery settingsURL getWebID dq uid d Hdec).
    intros [= <- <-]. split; [done|]. by intros q.
Qed.

Lemma processQueries_from (queries : list DataQuery) (uid : string) :
  forall m d,
    channelConstruct (snd (processQueries queries uid m d)) = channelConstruct d
    /\ forall m', fst (processQueries queries uid m d) = Ok m' ->
         (forall k, is_Some (m' !! k)
                    <-> is_Some (m !! k) \/ k ∈ dq_RefID <$> queries)
         /\ forall k l, m' !! k = Some l ->
              m !! k = Some l
              \/ exists dq, dq ∈ queries /\ Forall (entry_from dq) l
                   /\ forall q, decodeQuery dq = Some q ->
                        (length l
                         <= length (Str.Split (Str.after ";" (pi_Target (q_Pi q))) ";"))%nat.
Proof.
  induction queries as [|dq queries IH]; intros m d.
  - split; [done|]. cbn. intros m' [= <-]. split; [|by left].
    intros k. split; [by left|]. intros [H|H]; [done|]. by apply elem_of_nil in H.
  - loop_step. unfold bind.
    pose proof (processQuery_keeps_registry decodeQuery settingsURL getWebID dq uid d)
      as Hreg1.
    destruct (processQuery dq uid d) as [[out|msg] d1] eqn:Hrun; cbn [snd] in Hreg1;
      [|by split].
    destruct (processQuery_out dq uid d d1 out Hrun) as [Hout Hlen].
    destruct (IH (<[dq_RefID dq := out]> m) d1) as [Hreg Hok].
    split; [by rewrite Hreg|]. intros m' Hm'.
    destruct (Hok m' Hm') as [Hkeys Hvals]. split.
    + intros k. rewrite Hkeys, fmap_cons, elem_of_cons.
      destruct (decide (k = dq_RefID dq)) as [->|Hne].
      * rewrite lookup_insert_eq. split; [intros _; right; by left|by left].
      * rewrite lookup_insert_ne by done.
        split; [intros [H|H]; [by left|right; by right]
               |intros [H|[H|H]]; [by left|done|by right]].
    + intros k l Hl. destruct (Hvals k l Hl) as [Hins|(dq' & Hdq' & Hfrom)].
      * destruct (decide (k = dq_RefID dq)) as [->|Hne].
        -- rewrite lookup_insert_eq in Hins. injection Hins as <-.
           right. exists dq. split_and!; [by left|done|].
           intros q Hq. by apply Hlen.
        -- rewrite lookup_insert_ne in Hins by done. by left.
      * right. exists dq'. split; [by right|done].
Qed.

Lemma frames_loop_RefID (RefID : string) (query : list PiProcessedQuery) :
  forall frames d out d',
    frames_loop RefID query frames d = (Ok out, d') ->
    Forall (fun f => fr_RefID f = RefID) frames ->
    Forall (fun f => fr_RefID f = RefID) out.
Proof.
  induction query as [|q query IH]; intros frames d out d'.
  - cbn. by intros [= <- <-].
  - loop_step. unfold bind, read, lift.
    destruct (response_items q) as [items|msg]; [|done].
    destruct (convertItemsToDataFrame _ _ _ _ _) as [frame [err|]].
    + intros Hrun Hall. eapply IH; [exact Hrun|].
      apply Forall_app. split; [done|by apply Forall_singleton].
    + destruct (Streamable q).
      * unfold call, register. destruct (uuid_New (world d)) as [u w].
        intros Hrun Hall. eapply IH; [exact Hrun|].
        apply Forall_app. split; [done|by apply Forall_singleton].
      * intros Hrun Hall. eapply IH; [exact Hrun|].
        apply Forall_app. split; [done|by apply Forall_singleton].
Qed.

Lemma responses_loop_keys (entries : list (string * list PiProcessedQuery)) :
  forall response d response' d',
    responses_loop entries response d = (Ok response', d') ->
    (forall k, is_Some (response' !! k) <-> is_Some (response !! k) \/ k ∈ entries.*1)
    /\ forall k frames,
         response' !! k = Some frames ->
         response !! k = Some frames \/ Forall (fun f => fr_RefID f = k) frames.
Proof.
  induction entries as [|[RefID query] entries IH]; intros response d response' d'.
  - cbn. intros [= <- <-]. split; [|by left].
    intros k. split; [by left|]. intros [H|H]; [done|]. by apply elem_of_nil in H.
  - loop_step. unfold bind.
    destruct (frames_loop RefID query [] d) as [[frames|msg] d1] eqn:Hframes; [|done].
    intros Hrun. destruct (IH _ _ _ _ Hrun) as [Hkeys Hvals]. split.
    + intros k. rewrite Hkeys, fmap_cons. cbn [fst]. rewrite elem_of_cons.
      destruct (decide (k = RefID)) as [->|Hne].
      * rewrite lookup_insert_eq. split; [intros _; right; by left|by left].
      * rewrite lookup_insert_ne by done.
        split; [intros [H|H]; [by left|right; by right]
               |intros [H|[H|H]]; [by left|done|by right]].
    + intros k fs Hk. destruct (Hvals k fs Hk) as [Hins|Hfs]; [|by right].
      destruct (decide (k = RefID)) as [->|Hne].
      * rewrite lookup_insert_eq in Hins. injection Hins as <-. right.
        by apply (frames_loop_RefID RefID query [] d frames d1 Hframes).
      * rewrite lookup_insert_ne in Hins by done. by left.
Qed.

Lemma processBatchtoFrames_keys (m : gmap string (list PiProcessedQuery))
    (d d' : Datasource World) (response : gmap string (list (Frame Fields))) :
  processBatchtoFrames m d = (Ok response, d') ->
  dom response = dom m
  /\ forall k frames, response !! k = Some frames ->
       Forall (fun f => fr_RefID f = k) frames.
Proof.
  unfold_processBatchtoFrames. unfold bind, call.
  pose proof (range_order_perm m (world d)) as Hperm.
  destruct (range_order m (world d)) as [entries w]. cbn [fst] in Hperm.
  intros Hrun. destruct (responses_loop_keys _ _ _ _ _ Hrun) as [Hkeys Hvals]. split.
  - apply set_eq. intros k. rewrite !elem_of_dom, Hkeys, lookup_empty.
    rewrite list_elem_of_fmap. split.
    + intros [[? [=]]|([k' l] & -> & Hl)]. rewrite Hperm in Hl.
      apply elem_of_map_to_list in Hl. by eexists.
    + intros [l Hl]. right. exists (k, l). split; [done|].
      rewrite Hperm. by apply elem_of_map_to_list.
  - intros k frames Hk. by destruct (Hvals k frames Hk).
Qed.

(** X16. The response of [QueryData].  Whatever the outcome, the
    channel registry keeps every key it had, and a channel that is new
    in it carries the interval of a query of the request for which
    [isStreamable] holds.  When [QueryData] returns, the error is nil,
    the keys of the response are exactly the RefIDs of the request
    (one key for queries sharing a RefID, a key also for a query that
    does not decode), and every frame carries the RefID it is filed
    under. *)
Theorem QueryData_response_shape (queries : list DataQuery) (uid : string)
    (d : Datasource World) :
  let d' := snd (QueryData queries uid d) in
  dom (channelConstruct d) ⊆ dom (channelConstruct d')
  /\ (forall key c,
        channelConstruct d' !! key = Some c ->
        channelConstruct d !! key = Some c
        \/ exists dq q,
             dq ∈ queries /\ decodeQuery dq = Some q /\ isStreamable q = true
             /\ sc_IntervalNanoSeconds c = q_Interval q)
  /\ forall response err,
       fst (QueryData queries uid d) = Ok (response, err) ->
       err = None
       /\ dom response = list_to_set (dq_RefID <$> queries)
       /\ forall k frames, response !! k = Some frames ->
            Forall (fun f => fr_RefID f = k) frames.
Proof.
  cbv zeta. unfold_QueryData. unfold bind, ret.
  destruct (processQueries_from queries uid ∅ d) as [Hreg1 Hok1].
  destruct (processQueries queries uid ∅ d) as [[m1|msg] d1]; cbn [fst snd] in *;
    [|split_and!; [by rewrite Hreg1|intros key c; rewrite Hreg1; by left|done]].
  destruct (Hok1 m1 eq_refl) as [Hkeys1 Hvals1].
  destruct (batchRequest_kept apiBatchRequest range_order range_order_perm m1 d1)
    as (Hreg2 & _ & Hok2).
  destruct (batchRequest m1 d1) as [[m2|msg] d2]; cbn [fst snd] in *;
    [|split_and!; [by rewrite Hreg2, Hreg1
                  |intros key c; rewrite Hreg2, Hreg1; by left|done]].
  destruct (Hok2 m2 eq_refl) as [Hdom2 Hkept].
  assert (Hchan : forall k l p,
            m2 !! k = Some l -> p ∈ l -> Streamable p = true ->
            exists dq q,
              dq ∈ queries /\ decodeQuery dq = Some q /\ isStreamable q = true
              /\ IntervalNanoSeconds p = q_Interval q).
  { intros k l p Hl Hp Hs.
    assert (is_Some (m1 !! k)) as [l1 Hl1].
    { apply elem_of_dom. rewrite <- Hdom2. apply elem_of_dom. by eexists. }
    destruct (Hkept k l1 Hl1) as (l' & Hl' & Hall).
    rewrite Hl in Hl'. injection Hl' as <-.
    apply list_elem_of_lookup in Hp as [i Hi].
    destruct (Forall2_lookup_r _ _ _ _ _ Hall Hi) as (p1 & Hp1 & Hsame).
    destruct (Hvals1 k l1 Hl1) as [Hemp|(dq & Hdq & Hfrom & _)];
      [by rewrite lookup_empty in Hemp|].
    destruct (proj1 (Forall_lookup _ _) Hfrom i p1 Hp1) as (q & Hq & Hst & Hint).
    exists dq, q. unfold same_entry in Hsame. rewrite Hsame in Hs. rewrite Hsame.
    cbn [set_Response Streamable IntervalNanoSeconds] in *.
    split_and!; [done|done|by rewrite <- Hst|done]. }
  destruct (processBatchtoFrames_registry getTypeForWebID getDigitalStateforWebID
              convertItemsToDataFrame uuid_New range_order range_order_perm m2 d2)
    as [Hdom3 Hreg3].
  assert (Hregistry : forall key c,
            channelConstruct (snd (processBatchtoFrames m2 d2)) !! key = Some c ->
            channelConstruct d !! key = Some c
            \/ exists dq q,
                 dq ∈ queries /\ decodeQuery dq = Some q /\ isStreamable q = true
                 /\ sc_IntervalNanoSeconds c = q_Interval q).
  { intros key c Hc.
    destruct (Hreg3 key c Hc) as [Hold|(k & l & Hl & p & Hp & Hs & ->)].
    - left. by rewrite <- Hreg1, <- Hreg2.
    - right. destruct (Hchan k l p Hl Hp Hs) as (dq & q & H1 & H2 & H3 & H4).
      by exists dq, q. }
  rewrite Hreg2, Hreg1 in Hdom3.
  pose proof (processBatchtoFrames_keys m2 d2) as Hkeys3.
  destruct (processBatchtoFrames m2 d2) as [[response|msg] d3]; cbn [fst snd] in *;
    [|by split_and!].
  split_and!; [exact Hdom3|exact Hregistry|].
  intros response' err [= <- <-]. split; [done|].
  destruct (Hkeys3 d3 response eq_refl) as [Hd Hf]. split; [|exact Hf].
  rewrite Hd, Hdom2. apply set_eq. intros k.
  rewrite elem_of_dom, Hkeys1, lookup_empty, elem_of_list_to_set.
  split; [intros [[? [=]]|H]; done|by right].
Qed.

Lemma processQueries_total (queries : list DataQuery) (uid : string) :
  (forall dq q, dq ∈ queries -> decodeQuery dq = Some q ->
     Str.mem ";" (pi_Target (q_Pi q)) = true) ->
  forall m d, exists m' d', processQueries queries uid m d = (Ok m', d').
Proof.
  induction queries as [|dq queries IH]; intros Hsep m d; [by exists m, d|].
  loop_step. unfold bind.
  assert (Hrun : exists out d1, processQuery dq uid d = (Ok out, d1)).
  { destruct (decodeQuery dq) as [q|] eqn:Hdec.
    - assert (Hq : Str.mem ";" (pi_Target (q_Pi q)) = true)
        by (apply (Hsep dq q); [by left|done]).
      rewrite (processQuery_with_separator decodeQuery settingsURL getWebID dq q uid d
                 Hdec Hq).
      destruct (processTargets_entries settingsURL getWebID q uid _
                  (Str.Split (Str.after ";" (pi_Target (q_Pi q))) ";")
                  (getBasePath_ok _ Hq) [] d) as (added & d1 & Hrun & _).
      by exists added, d1.
    - rewrite (processQuery_undecodable decodeQuery settingsURL getWebID dq uid d Hdec).
      by exists [], d. }
  destruct Hrun as (out & d1 & ->). apply IH.
  intros dq' q Hin. apply Hsep. by right.
Qed.

(** The API answers every sub-request of a batch with a member that is
    classified, without an error, as a payload whose items can be
    read. *)
Local Abbreviation answers_every_request :=
  (forall processed w,
     Z.of_nat (length processed) <= 2 ^ 63 ->
     exists fields,
       fst (apiBatchRequest (build_batch processed) w) = Some (Some (JObj fields))
       /\ Forall member_answers fields
       /\ forall k, is_Some (build_batch processed !! k) -> exists v, (k, v) ∈ fields).

Lemma batchRequest_loop_answered (entries : list (string * list PiProcessedQuery)) :
  answers_every_request ->
  Forall (fun e => Z.of_nat (length (snd e)) <= 2 ^ 63) entries ->
  forall m d,
    exists m' d',
      batchRequest_loop entries m d = (Ok m', d')
      /\ forall k l', m' !! k = Some l' ->
           (m !! k = Some l' /\ k ∉ entries.*1) \/ Forall resolved l'.
Proof.
  intros Hapi. induction entries as [|[RefID processed] entries IH]; intros Hlen m d.
  - exists m, d. split; [done|]. intros k l' Hl'. left. split; [done|].
    apply not_elem_of_nil.
  - apply Forall_cons in Hlen as [Hhead Hlen]. cbn [snd] in Hhead.
    loop_step. unfold bind, call, lift.
    destruct (Hapi processed (world d) Hhead) as (fields & Hcall & Hok & Hcover).
    destruct (apiBatchRequest (build_batch processed) (world d)) as [r w].
    cbn [fst] in Hcall. subst r. cbn [decode_tempresponse].
    destruct (decode_entries_answered fields Hok ∅)
      as (t & Hdec & Hcontent & _ & Hkeys); [intros n p; by rewrite lookup_empty|].
    rewrite Hdec.
    assert (Hres : Forall resolved (set_responses t processed)).
    { apply set_responses_resolved; [exact Hcontent|]. intros i Hi.
      destruct (lookup_lt_is_Some_2 processed i Hi) as [p Hp].
      destruct (Hcover (fmt_d (Z.of_nat i))) as [v Hv].
      { rewrite build_batch_lookup, Hp. by eexists. }
      apply (Hkeys (fmt_d (Z.of_nat i)) v); [done|].
      apply ParseInt_fmt_d. unfold int64_range. lia. }
    destruct (IH Hlen (<[RefID := set_responses t processed]> m)
                (mkDatasource w (channelConstruct d))) as (m' & d' & Hrun & Hm').
    exists m', d'. split; [exact Hrun|]. intros k l' Hl'.
    destruct (Hm' k l' Hl') as [[Hins Hnot]|Hr]; [|by right].
    destruct (decide (k = RefID)) as [->|Hne].
    + rewrite lookup_insert_eq in Hins. injection Hins as <-. by right.
    + rewrite lookup_insert_ne in Hins by done. left. split; [done|].
      rewrite fmap_cons. by apply not_elem_of_cons.
Qed.


End QueryMore.

Lemma QueryData_response_shape_witness :
  (forall m w, fst (Demo.range_order m w) ≡ₚ map_to_list m)
  /\ forall response err,
       fst (Demo.QueryData [] [Demo.q_attr; Demo.q_calc] "uid" (Demo.ds Demo.w_answers))
       = Ok (response, err) ->
       err = None /\ dom response = list_to_set ["A"; "A"].
Proof.
  assert (H : forall m w, fst (Demo.range_order m w) ≡ₚ map_to_list m) by done.
  split; [exact H|]. intros response err Hrun.
  destruct (QueryData_response_shape q_RefID Some Demo.url (Demo.getWebID [])
              Demo.apiBatchRequest (fun _ _ => tt) (fun _ _ => false)
              Demo.convertItemsToDataFrame Demo.uuid_New Demo.range_order H
              [Demo.q_attr; Demo.q_calc] "uid" (Demo.ds Demo.w_answers))
    as (_ & _ & Hshape).
  destruct (Hshape response err Hrun) as (H1 & H2 & _). by split.
Defined.

(** The echoing API answers every sub-request. *)
Lemma echo_answers (processed : list PiProcessedQuery) (w : Demo.World) :
  Z.of_nat (length processed) <= 2 ^ 63 ->
  exists fields,
    fst (Echo.apiBatchRequest (build_batch processed) w) = Some (Some (JObj fields))
    /\ Forall member_answers fields
    /\ forall k, is_Some (build_batch processed !! k) -> exists v, (k, v) ∈ fields.
Proof.
  intros Hlen. eexists. split; [reflexivity|]. split.
  - apply Forall_forall. intros [k v] Hin.
    apply list_elem_of_fmap in Hin as ([k' r] & [= -> ->] & Hin).
    apply elem_of_map_to_list in Hin.
    apply build_batch_key in Hin as (i & p & -> & Hi & _).
    apply lookup_lt_Some in Hi. split; cbn [fst snd].
    + rewrite ParseInt_fmt_d; [by eexists|]. unfold int64_range. lia.
    + eexists _, _. split_and!; [vm_compute; reflexivity|reflexivity|reflexivity].
  - intros k [r Hr]. exists Demo.body_nested. apply list_elem_of_fmap.
    exists (k, r). split; [done|]. by apply elem_of_map_to_list.
Qed.


(** ** The frontend *)

Lemma before_absent (c : ascii) (s : string) : mem c s = false -> before c s = s.
Proof.
  induction s as [|a s IH]; [done|]. simpl.
  destruct (decide (a = c)); [done|]. intros H. by rewrite IH.
Qed.

Lemma Join_join_params (options : list (string * string)) :
  Join (map (fun kv => fst kv +:+ "=" +:+ snd kv) options) "&" = join_params options.
Proof.
  induction options as [|[k v] rest IH]; [done|].
  cbn [map fst snd]. destruct rest as [|kv rest].
  - cbn [map Join join_params]. app_eq.
  - change (map _ (kv :: rest)) with
      ((fst kv +:+ "=" +:+ snd kv)
         :: map (fun kv => fst kv +:+ "=" +:+ snd kv) rest) in *.
    cbn [Join]. cbn [Join] in IH.
    change (join_params ((k, v) :: kv :: rest))
      with (k +:+ "=" +:+ v +:+ "&" +:+ join_params (kv :: rest)).
    rewrite <- IH. app_eq.
Qed.

Lemma querystring_cases (options : list (string * string)) :
  Frontend.querystring options
  = match options with
    | [] => ""
    | _ :: _ => "?" +:+ join_params options
    end.
Proof.
  unfold Frontend.querystring. cbv zeta. rewrite Join_join_params.
  destruct options as [|[k v] rest]; [done|].
  rewrite decide_False; [done|].
  cbn [join_params]. rewrite app_cons, app_nil_l. intros [= H].
  destruct k; [|by rewrite app_cons in H]. by rewrite app_nil_l, app_cons in H.
Qed.

(** X18. [metricQueryTransform] keeps the items in number and order,
    takes text, path and WebID over, gives every segment a list of
    children (empty when the item has none), and marks a segment as
    not expandable exactly when the item says it has no children and
    its path has three or more backslashes. *)
Theorem metricQueryTransform_expandable (response : list Frontend.PiwebapiRsp) :
  length (Frontend.metricQueryTransform response) = length response
  /\ forall i item,
       response !! i = Some item ->
       exists v,
         Frontend.metricQueryTransform response !! i = Some v
         /\ Frontend.text v = Frontend.rsp_Name item
         /\ Frontend.mfv_Path v = Frontend.rsp_Path item
         /\ Frontend.mfv_WebId v = Frontend.rsp_WebId item
         /\ Frontend.mfv_Items v = Frontend.nullish (Frontend.rsp_Items item) []
         /\ (Frontend.expandable v = false
             <-> Frontend.rsp_HasChildren item = Some false
                 /\ (3 <= count_byte "\" (Frontend.nullish (Frontend.rsp_Path item) ""))%nat).
Proof.
  unfold Frontend.metricQueryTransform. split; [by rewrite length_map|].
  intros i item Hi. eexists. split; [by rewrite list_lookup_fmap, Hi|].
  cbn -[Nat.leb]. split_and!; [done..|].
  rewrite Split_length.
  destruct (Frontend.rsp_HasChildren item) as [[]|]; cbn -[Nat.leb].
  - split; [done|]. by intros [[=] _].
  - rewrite bool_decide_eq_false_2 by done. cbn [orb]. rewrite Nat.leb_gt.
    split; [intros H; split; [done|lia]|intros [_ H]; lia].
  - split; [done|]. by intros [[=] _].
Qed.

(** X19. The segment type [metricFindQuery] works out for an asset
    path: [servers] for the empty path and for no other; for a path
    that is not empty the type [attributes] is kept, and any other
    type is replaced according to the number of backslashes in the
    path, [databases] for none, [databaseElements] for one,
    [elements] for two or more. *)
Theorem metricFindQuery_type_by_depth (path : string) (type : option string) :
  let result := Frontend.metricFindQuery_type false path type in
  (path = "" -> result = Some "servers")
  /\ (path <> "" -> type = Some "attributes" -> result = Some "attributes")
  /\ (path <> "" -> type <> Some "attributes" ->
      result = Some (match count_byte "\" path with
                     | O => "databases"
                     | S O => "databaseElements"
                     | _ => "elements"
                     end))
  /\ (result = Some "servers" -> path = "").
Proof.
  cbv zeta. unfold Frontend.metricFindQuery_type. cbn [negb].
  destruct (decide (path = "")) as [->|Hpath].
  - by split_and!.
  - destruct (decide (type <> Some "attributes")) as [Htype|Htype].
    + rewrite Split_length.
      assert (Hres : Frontend.querydepth
                       !! Nat.max 0 (Nat.min (S (count_byte "\" path))
                                        (length Frontend.querydepth - 1))
                     = Some (match count_byte "\" path with
                             | O => "databases"
                             | S O => "databaseElements"
                             | _ => "elements"
                             end)).
      { by destruct (count_byte "\" path) as [|[|[|n]]]. }
      rewrite Hres. split_and!; [done|done|done|].
      by destruct (count_byte "\" path) as [|[|n]].
    + apply dec_stable in Htype. subst type. by split_and!.
Qed.

(** X20. The paths [getAttributes], [getDatabaseElements] and
    [getElements] request: the resource with the ID in it and, unless
    there are no options, a query string that reads back as the
    options in their order, as long as the ID holds no [?] and no
    option holds an [&] or a [=] in its name. *)
Theorem option_query_strings (id : string) (options : list (string * string)) :
  mem "?" id = false ->
  Forall param_ok options ->
  let shape (resource : string) (path : string) :=
    path = resource +:+ (match options with
                         | [] => ""
                         | _ :: _ => "?" +:+ join_params options
                         end)
    /\ uri_path path = resource
    /\ (options <> [] -> uri_params path = options) in
  shape ("/elements/" +:+ id +:+ "/attributes") (Frontend.getAttributes_path id options)
  /\ shape ("/assetdatabases/" +:+ id +:+ "/elements")
       (Frontend.getDatabaseElements_path id options)
  /\ shape ("/elements/" +:+ id +:+ "/elements") (Frontend.getElements_path id options).
Proof.
  intros Hid Hok shape.
  assert (Hshape : forall resource,
            mem "?" resource = false ->
            shape resource (resource +:+ Frontend.querystring options)).
  { intros resource Hres. unfold shape. rewrite querystring_cases.
    destruct options as [|kv rest].
    - rewrite app_nil_r. split_and!; [done| |done].
      unfold uri_path. by apply before_absent.
    - split_and!; [done| |intros _].
      + by apply uri_path_join.
      + by apply uri_params_join. }
  unfold Frontend.getAttributes_path, Frontend.getDatabaseElements_path,
    Frontend.getElements_path.
  split_and!.
  - replace ("/elements/" +:+ id +:+ "/attributes" +:+ Frontend.querystring options)
      with (("/elements/" +:+ id +:+ "/attributes") +:+ Frontend.querystring options)
      by app_eq.
    apply Hshape. by rewrite !mem_app, Hid.
  - replace ("/assetdatabases/" +:+ id +:+ "/elements" +:+ Frontend.querystring options)
      with (("/assetdatabases/" +:+ id +:+ "/elements") +:+ Frontend.querystring options)
      by app_eq.
    apply Hshape. by rewrite !mem_app, Hid.
  - replace ("/elements/" +:+ id +:+ "/elements" +:+ Frontend.querystring options)
      with (("/elements/" +:+ id +:+ "/elements") +:+ Frontend.querystring options)
      by app_eq.
    apply Hshape. by rewrite !mem_app, Hid.
Qed.

Lemma option_query_strings_witness :
  Frontend.getElements_path "E1"
    [("selectedFields", "Items.WebId%3BItems.Name"); ("nameFilter", "*")]
  = "/elements/E1/elements?selectedFields=Items.WebId%3BItems.Name&nameFilter=*"
  /\ uri_params
       (Frontend.getElements_path "E1"
          [("selectedFields", "Items.WebId%3BItems.Name"); ("nameFilter", "*")])
     = [("selectedFields", "Items.WebId%3BItems.Name"); ("nameFilter", "*")].
Proof.
  assert (H1 : mem "?" "E1" = false) by reflexivity.
  assert (H2 : Forall param_ok
                 [("selectedFields", "Items.WebId%3BItems.Name"); ("nameFilter", "*")]).
  { repeat (apply Forall_cons; split; [by repeat split|]). apply Forall_nil_2. }
  destruct (option_query_strings "E1" _ H1 H2) as (_ & _ & H3 & _ & H4).
  split; [exact H3|]. by apply H4.
Defined.

(** ** Where the classifier faults *)

(** X21. The classifier faults on exactly one kind of body: an object
    that [json.Unmarshal] decodes into an [interface{}] (nested no
    deeper than the scanner allows, no number beyond the range of
    [float64]), with status 200 (the last member named [Status],
    whatever the case of the letters, that holds an integer) and whose
    [Content] is an object whose [Items] is the empty array; the fault
    is the index fault.  On every other body it returns. *)
Theorem classifier_fault_domain (data : json) :
  ((exists msg, UnmarshalJSON data = Panic msg)
   <-> exists top content,
         data = JObj top /\ is_Some (Unmarshal_any data)
         /\ dec_Status data = StatusOK
         /\ obj_get "Content" top = Some (JObj content)
         /\ obj_get "Items" content = Some (JArr []))
  /\ forall msg, UnmarshalJSON data = Panic msg ->
       msg = "index out of range [0] with length 0".
Proof.
  split; [|intros msg; apply UnmarshalJSON_fault]. split.
  - intros [msg Hmsg].
    destruct (dec_rawData data) as [rawData|] eqn:Hraw;
      [|unfold UnmarshalJSON in Hmsg; by rewrite Hraw in Hmsg].
    destruct (map_get "Content" rawData) as [[| | | | |content]|] eqn:Hc;
      try (unfold UnmarshalJSON in Hmsg; by rewrite Hraw, Hc in Hmsg).
    rewrite (UnmarshalJSON_content _ _ _ Hraw Hc) in Hmsg. cbv zeta in Hmsg.
    revert Hmsg.
    destruct (bool_decide (dec_Status data = StatusOK)) eqn:Hstatus;
      cbn [negb]; [|by destruct (dec_ErrorResponse content)].
    apply bool_decide_eq_true in Hstatus.
    destruct (map_get "Items" content) as [[| | | |[|[| | | | |item] rest]|]|] eqn:Hitems;
      try discriminate.
    + intros _. pose proof Hraw as Hraw'. unfold dec_rawData in Hraw'.
      destruct (Unmarshal_any data) as [[| | | | |entries]|] eqn:Hdec; try discriminate.
      { injection Hraw' as <-. discriminate Hc. }
      injection Hraw' as ->.
      assert (Htop : exists top, data = JObj top).
      { unfold Unmarshal_any in Hdec. destruct (valid data); [|done].
        apply decode_any_AMap in Hdec as (top & -> & _). by exists top. }
      destruct Htop as [top ->].
      apply (rawData_Content top rawData content Hraw) in Hc as (fields & Hf & Hfields).
      exists top, fields. split_and!; [done|by eexists|done|done|].
      by apply (content_Items_empty fields content).
    + destruct (map_get "WebId" item) as [[| | |s| |]|];
        first [by destruct (dec_WithSubItems content)
              |by destruct (dec_WithoutSubItems content)].
  - intros (top & content & -> & Hfits & Hstatus & Hcontent & Hitems).
    eexists. by apply (UnmarshalJSON_empty_items top content).
Qed.
